(** * Phishing detector: detection engine and result cache

    A shallow embedding of the extension's [PhishingDetector] class
    (phishing-detector.js), its [CacheManager] (cache-manager.js) and the
    frozen [CONFIG] object (config.js), followed by the properties of the
    scoring engine and of the cache that the specification states.

    Conventions.
    - JavaScript strings are byte strings ([string]); text outside ASCII is
      kept as its UTF-8 bytes, so [includes] agrees with the JavaScript
      substring test.  Case mapping is the ASCII one: host names produced by
      the URL constructor are ASCII.
    - JavaScript numbers that hold scores, lengths, counters and clock
      readings are integers ([Z]).
    - [Date.now()] is an explicit argument [now] of every operation that
      reads the clock; one cache operation sees one instant.  [analyze]
      calls several cache operations; [Clocked.analyze] gives each its own
      reading, and [PhishingDetector.analyze] is the case where the
      readings coincide.
    - [new URL], [JSON.parse] and [JSON.stringify] belong to the host
      platform, not to the repository: the code is parameterised by a
      [Platform] and the general statements hold for every platform.  A
      reference platform is given for evaluating concrete scenarios. *)

From Stdlib Require Import String Ascii List ZArith Lia Bool DecimalString.
Import ListNotations.

Open Scope string_scope.
Open Scope Z_scope.

Set Implicit Arguments.

(* ================================================================== *)
(** ** String.prototype *)

Module JsString.

Definition len (s : string) : Z := Z.of_nat (String.length s).

  (** [hay.includes(needle)] *)
Fixpoint includes (needle hay : string) : bool :=
    if String.prefix needle hay then true
    else match hay with
         | EmptyString => false
         | String _ t => includes needle t
         end.

Definition startsWith (p s : string) : bool := String.prefix p s.

  (** [s.endsWith(suffix)] *)
Fixpoint endsWith (suffix s : string) : bool :=
    if String.eqb suffix s then true
    else match s with
         | EmptyString => false
         | String _ t => endsWith suffix t
         end.

Definition lower_ascii (c : ascii) : ascii :=
    let n := nat_of_ascii c in
    if ((65 <=? n)%nat && (n <=? 90)%nat)%bool then ascii_of_nat (n + 32) else c.

  (** [s.toLowerCase()] *)
Fixpoint toLowerCase (s : string) : string :=
    match s with
    | EmptyString => EmptyString
    | String c t => String (lower_ascii c) (toLowerCase t)
    end.

  (** [s.split(sep)] for a one-character separator. *)
Fixpoint split_aux (sep : ascii) (s : string) (cur : string) : list string :=
    match s with
    | EmptyString => [cur]
    | String c t =>
        if Ascii.eqb c sep then cur :: split_aux sep t EmptyString
        else split_aux sep t (cur ++ String c EmptyString)
    end.

Definition split (sep : ascii) (s : string) : list string :=
    split_aux sep s EmptyString.

  (** [s.split(sep)[0]]: a split never returns the empty array. *)
Definition split_head (sep : ascii) (s : string) : string :=
    match split sep s with
    | h :: _ => h
    | [] => EmptyString
    end.

  (** [arr.join(sep)] *)
Fixpoint join (sep : string) (l : list string) : string :=
    match l with
    | [] => EmptyString
    | [x] => x
    | x :: r => x ++ sep ++ join sep r
    end.

Definition chars (s : string) : list ascii := list_ascii_of_string s.

Definition is_digit (c : ascii) : bool :=
    let n := nat_of_ascii c in ((48 <=? n)%nat && (n <=? 57)%nat)%bool.

End JsString.

(* ================================================================== *)
(** ** config.js *)

Module Config.

Record RiskThresholds := {
    SAFE : Z; LOW : Z; MEDIUM : Z; HIGH : Z; CRITICAL : Z
  }.

Record Performance := {
    CACHE_TTL_MS : Z;
    CACHE_MAX_ENTRIES : Z
  }.

Record ScoreWeights := {
    NON_HTTPS_SENSITIVE : Z;
    IP_ADDRESS_DOMAIN : Z;
    SUSPICIOUS_TLD : Z;
    EXCESSIVE_SUBDOMAINS : Z;
    HOMOGRAPH_ATTACK : Z;
    TYPOSQUATTING_W : Z;
    URL_AT_SYMBOL : Z;
    URL_SHORTENER : Z;
    EMBEDDED_URL : Z;
    SUSPICIOUS_KEYWORD : Z;
    URGENCY_PHRASE : Z;
    EXCESSIVE_EXCLAMATIONS : Z;
    HIDDEN_IFRAME : Z;
    MISLEADING_LINK : Z;
    OBFUSCATED_SCRIPT : Z;
    PASSWORD_NO_HTTPS : Z;
    EXTERNAL_FORM_ACTION : Z;
    HTTPS_LOGIN_UNKNOWN : Z;
    HTTP_LOGIN : Z;
    HTTPS_LOGIN_KNOWN : Z;
    CREDIT_CARD_REQUEST : Z;
    SSN_REQUEST : Z;
    AUTO_SUBMIT_FORM : Z;
    POPUP_WINDOW : Z;
    RIGHT_CLICK_DISABLED : Z;
    CLIPBOARD_ACCESS : Z
  }.

  (** The three regular expressions of [PATTERNS] are fixed by config.js;
      they are embedded as the matchers [IP_ADDRESS_PATTERN_test],
      [PUNYCODE_PATTERN_test] and [DEDUPLICATION_replace] of the detector. *)
Record Patterns := {
    SUSPICIOUS_TLDS : list string;
    SUSPICIOUS_KEYWORDS : list string;
    URGENCY_PHRASES : list string;
    URL_SHORTENERS : list string
  }.

  (** [KEYBOARD_PROXIMITY_THRESHOLD] is the ratio [thr_num / thr_den].  The
      code compares [matchScore / maxLen] with the double 0.8; [matchScore]
      is a multiple of one half and [maxLen] a string length, so the
      floating-point comparison agrees with the exact one on fractions. *)
Record Typosquatting := {
    MAX_LEVENSHTEIN_DISTANCE : Z;
    MIN_DOMAIN_LENGTH : Z;
    KEYBOARD_PROXIMITY_THRESHOLD_num : Z;
    KEYBOARD_PROXIMITY_THRESHOLD_den : Z
  }.

Record Features := {
    ENABLE_CACHING : bool
  }.

Record t := {
    RISK_THRESHOLDS : RiskThresholds;
    PERFORMANCE : Performance;
    SCORE_WEIGHTS : ScoreWeights;
    PATTERNS : Patterns;
    TYPOSQUATTING : Typosquatting;
    FEATURES : Features
  }.

Definition CONFIG : t := {|
    RISK_THRESHOLDS := {| SAFE := 0; LOW := 20; MEDIUM := 40; HIGH := 60; CRITICAL := 80 |};
    PERFORMANCE := {| CACHE_TTL_MS := 30 * 60 * 1000; CACHE_MAX_ENTRIES := 1000 |};
    SCORE_WEIGHTS := {|
      NON_HTTPS_SENSITIVE := 25;
      IP_ADDRESS_DOMAIN := 30;
      SUSPICIOUS_TLD := 15;
      EXCESSIVE_SUBDOMAINS := 10;
      HOMOGRAPH_ATTACK := 40;
      TYPOSQUATTING_W := 35;
      URL_AT_SYMBOL := 20;
      URL_SHORTENER := 10;
      EMBEDDED_URL := 15;
      SUSPICIOUS_KEYWORD := 5;
      URGENCY_PHRASE := 8;
      EXCESSIVE_EXCLAMATIONS := 10;
      HIDDEN_IFRAME := 25;
      MISLEADING_LINK := 15;
      OBFUSCATED_SCRIPT := 15;
      PASSWORD_NO_HTTPS := 35;
      EXTERNAL_FORM_ACTION := 30;
      HTTPS_LOGIN_UNKNOWN := 15;
      HTTP_LOGIN := 15;
      HTTPS_LOGIN_KNOWN := 2;
      CREDIT_CARD_REQUEST := 15;
      SSN_REQUEST := 20;
      AUTO_SUBMIT_FORM := 20;
      POPUP_WINDOW := 10;
      RIGHT_CLICK_DISABLED := 5;
      CLIPBOARD_ACCESS := 10
    |};
    PATTERNS := {|
      SUSPICIOUS_TLDS :=
        [".tk"; ".ml"; ".ga"; ".cf"; ".gq"; ".xyz"; ".top"; ".work";
         ".live"; ".site"; ".online"; ".club"; ".bid"; ".loan"];
      SUSPICIOUS_KEYWORDS :=
        ["verify"; "urgent"; "suspended"; "locked"; "limited"; "unusual";
         "confirm"; "update"; "secure"; "expire"; "immediately"; "account-update";
         "security-alert"; "billing-problem"; "reset-password"; "click-here";
         "prize"; "winner"; "congratulations"; "claim"; "free-money"];
      URGENCY_PHRASES :=
        ["act now"; "immediate action"; "within 24 hours"; "account will be closed";
         "verify immediately"; "urgent action required"; "expire soon"; "last chance";
         "don't miss out"; "limited time"; "respond now"; "final notice"];
      URL_SHORTENERS :=
        ["bit.ly"; "tinyurl.com"; "goo.gl"; "t.co"; "ow.ly"; "is.gd";
         "buff.ly"; "adf.ly"; "bit.do"; "mcaf.ee"]
    |};
    TYPOSQUATTING := {|
      MAX_LEVENSHTEIN_DISTANCE := 2;
      MIN_DOMAIN_LENGTH := 4;
      KEYBOARD_PROXIMITY_THRESHOLD_num := 4;
      KEYBOARD_PROXIMITY_THRESHOLD_den := 5
    |};
    FEATURES := {| ENABLE_CACHING := true |}
  |}.

End Config.

(* ================================================================== *)
(** ** Map: insertion-ordered, keyed by strings *)

Module JsMap.

Section WithValues.
Variable V : Type.

    (** Entries in insertion order; keys are pairwise distinct in every map
        built from [empty] with [set] and [delete]. *)
Definition t := list (string * V).

Definition empty : t := [].

Fixpoint get (k : string) (m : t) : option V :=
      match m with
      | [] => None
      | (k', v) :: r => if String.eqb k' k then Some v else get k r
      end.

Definition has (k : string) (m : t) : bool :=
      match get k m with Some _ => true | None => false end.

    (** [m.set(k, v)]: an existing key keeps its position, a new key goes
        last. *)
Fixpoint set (k : string) (v : V) (m : t) : t :=
      match m with
      | [] => [(k, v)]
      | (k', v') :: r =>
          if String.eqb k' k then (k, v) :: r else (k', v') :: set k v r
      end.

Definition delete (k : string) (m : t) : t :=
      filter (fun kv => negb (String.eqb (fst kv) k)) m.

Definition size (m : t) : Z := Z.of_nat (length m).

Definition keys (m : t) : list string := map fst m.

End WithValues.

Arguments empty {V}.

End JsMap.

(* ================================================================== *)
(** ** JavaScript values that JSON can carry *)

#[warnings="-register-all"]
Inductive jsval : Type :=
| JUndefined
| JNull
| JBool (b : bool)
| JNum (n : Z)
| JStr (s : string)
| JArr (items : list jsval)
| JObj (fields : list (string * jsval)).

Module Js.

  (** Own property lookup on a parsed object: with a repeated key the last
      binding is the one JSON.parse keeps. *)
Fixpoint obj_get (fields : list (string * jsval)) (k : string) : option jsval :=
    match fields with
    | [] => None
    | (k', v) :: r =>
        match obj_get r k with
        | Some w => Some w
        | None => if String.eqb k' k then Some v else None
        end
    end.

  (** ToBoolean *)
Definition truthy (v : jsval) : bool :=
    match v with
    | JUndefined | JNull => false
    | JBool b => b
    | JNum n => negb (n =? 0)
    | JStr s => negb (String.eqb s EmptyString)
    | JArr _ | JObj _ => true
    end.

End Js.

(* ================================================================== *)
(** ** The host platform *)

(** What the code observes of a URL object: the getters it reads and the
    serialisation it asks for after clearing the fragment. *)
Record URL := {
  protocol : string;
  hostname : string;
  pathname : string;
  toString_without_hash : string
}.

(** [new_URL s = None] when the constructor throws; [JSON_parse s = None]
    when JSON.parse throws. *)
Class Platform := {
  new_URL : string -> option URL;
  JSON_parse : string -> option jsval;
  JSON_stringify : jsval -> string
}.

(* ================================================================== *)
(** ** cache-manager.js *)

Module CacheManager.

Record Stats := {
    hits : Z;
    misses : Z;
    evictions : Z;
    sets : Z
  }.

Definition zero_stats : Stats :=
    {| hits := 0; misses := 0; evictions := 0; sets := 0 |}.

Section Generic.
Context {P : Platform}.
Variable A : Type.

    (** A value of [this.cache]: [{ data, timestamp }]. *)
Record Entry := {
      data : A;
      timestamp : Z
    }.

Record t := {
      maxEntries : Z;
      ttlMs : Z;
      cache : JsMap.t Entry;
      accessOrder : JsMap.t Z;
      stats : Stats
    }.

    (** [new CacheManager(maxEntries, ttlMs)] *)
Definition new (maxEntries ttlMs : Z) : t :=
      {| maxEntries := maxEntries;
         ttlMs := ttlMs;
         cache := JsMap.empty;
         accessOrder := JsMap.empty;
         stats := zero_stats |}.

    (** The defaults of the constructor. *)
Definition new_default : t := new 1000 (30 * 60 * 1000).

Definition _generateKey (url : string) : string :=
      match new_URL url with
      | Some urlObj => JsString.toLowerCase (toString_without_hash urlObj)
      | None => JsString.toLowerCase url
      end.

Definition _isExpired (c : t) (now : Z) (entry : Entry) : bool :=
      now - timestamp entry >? ttlMs c.

    (** The search loop of [_evictLRU]: [lruKey] starts as [null] and
        [lruTime] as [Infinity] ([None]). *)
Fixpoint lru_scan (order : list (string * Z))
                      (lruKey : option string) (lruTime : option Z)
      : option string :=
      match order with
      | [] => lruKey
      | (key, time) :: rest =>
          let smaller := match lruTime with
                         | None => true
                         | Some lt => time <? lt
                         end in
          if smaller then lru_scan rest (Some key) (Some time)
          else lru_scan rest lruKey lruTime
      end.

Definition with_stats (c : t) (s : Stats) : t :=
      {| maxEntries := maxEntries c; ttlMs := ttlMs c;
         cache := cache c; accessOrder := accessOrder c; stats := s |}.

Definition with_maps (c : t) (m : JsMap.t Entry) (o : JsMap.t Z) : t :=
      {| maxEntries := maxEntries c; ttlMs := ttlMs c;
         cache := m; accessOrder := o; stats := stats c |}.

    (** [_evictLRU()]; the guard [if (lruKey)] is a truthiness test, which
        the empty string fails like [null] does. *)
Definition _evictLRU (c : t) : t :=
      match lru_scan (accessOrder c) None None with
      | None => c
      | Some lruKey =>
          if String.eqb lruKey EmptyString then c
          else
            let s := stats c in
            with_stats
              (with_maps c (JsMap.delete lruKey (cache c))
                           (JsMap.delete lruKey (accessOrder c)))
              {| hits := hits s; misses := misses s;
                 evictions := evictions s + 1; sets := sets s |}
      end.

Definition count_miss (c : t) : t :=
      let s := stats c in
      with_stats c {| hits := hits s; misses := misses s + 1;
                      evictions := evictions s; sets := sets s |}.

Definition count_hit (c : t) : t :=
      let s := stats c in
      with_stats c {| hits := hits s + 1; misses := misses s;
                      evictions := evictions s; sets := sets s |}.

Definition count_set (c : t) : t :=
      let s := stats c in
      with_stats c {| hits := hits s; misses := misses s;
                      evictions := evictions s; sets := sets s + 1 |}.

Definition drop (c : t) (key : string) : t :=
      with_maps c (JsMap.delete key (cache c)) (JsMap.delete key (accessOrder c)).

    (** [get(url)]: the value returned ([None] for [null]) and the cache
        afterwards. *)
Definition get (c : t) (url : string) (now : Z) : option A * t :=
      let key := _generateKey url in
      match JsMap.get key (cache c) with
      | None => (None, count_miss c)
      | Some entry =>
          if _isExpired c now entry then (None, count_miss (drop c key))
          else
            (Some (data entry),
             count_hit (with_maps c (cache c) (JsMap.set key now (accessOrder c))))
      end.

    (** [set(url, data)] *)
Definition set (c : t) (url : string) (d : A) (now : Z) : t :=
      let key := _generateKey url in
      let c1 := if ((JsMap.size (cache c) >=? maxEntries c)
                    && negb (JsMap.has key (cache c)))%bool
                then _evictLRU c else c in
      count_set
        (with_maps c1
           (JsMap.set key {| data := d; timestamp := now |} (cache c1))
           (JsMap.set key now (accessOrder c1))).

    (** [has(url)] *)
Definition has (c : t) (url : string) (now : Z) : bool * t :=
      let key := _generateKey url in
      match JsMap.get key (cache c) with
      | None => (false, c)
      | Some entry =>
          if _isExpired c now entry then (false, drop c key) else (true, c)
      end.

    (** [clear()] *)
Definition clear (c : t) : t :=
      with_stats (with_maps c JsMap.empty JsMap.empty) zero_stats.

    (** [delete(url)] *)
Definition delete (c : t) (url : string) : t :=
      drop c (_generateKey url).

    (** [cleanup()]: the number of entries removed and the cache afterwards. *)
Definition cleanup (c : t) (now : Z) : Z * t :=
      let dead := filter (fun kv => now - timestamp (snd kv) >? ttlMs c) (cache c) in
      (Z.of_nat (length dead),
       fold_left (fun c' kv => drop c' (fst kv)) dead c).

End Generic.

Arguments new {A}.
Arguments new_default {A}.

  (** *** Persistence: [export] and [import]

      A cache that is exported or imported holds JSON-representable data. *)

  (** How a block of statements ends.  [Unmodelled] marks inputs on which
      JavaScript would coerce a value of the wrong type (a timestamp that is
      not a number, a key that is not a string, statistics that are not
      numeric counters); the embedding does not follow those coercions. *)
Inductive completion (S : Type) : Type :=
  | Normal (s : S)
  | Throws (s : S)
  | Unmodelled.

Arguments Normal {S}.
Arguments Throws {S}.
Arguments Unmodelled {S}.

Section Persistence.
Context {P : Platform}.

Definition export_entry (kv : string * Entry jsval) : jsval :=
      JObj [("key", JStr (fst kv));
            ("data", data (snd kv));
            ("timestamp", JNum (timestamp (snd kv)))].

Definition export_stats (s : Stats) : jsval :=
      JObj [("hits", JNum (hits s)); ("misses", JNum (misses s));
            ("evictions", JNum (evictions s)); ("sets", JNum (sets s))].

    (** The object handed to JSON.stringify by [export()]. *)
Definition export_value (c : t jsval) (now : Z) : jsval :=
      JObj [("entries", JArr (map export_entry (cache c)));
            ("stats", export_stats (stats c));
            ("metadata", JObj [("maxEntries", JNum (maxEntries c));
                               ("ttlMs", JNum (ttlMs c));
                               ("exportedAt", JNum now)])].

    (** [export()] *)
Definition export (c : t jsval) (now : Z) : string :=
      JSON_stringify (export_value c now).

    (** One turn of the loop [for (const entry of data.entries)].  Reading
        [entry.timestamp] throws on [null]; on a value without that
        property the difference is NaN and the entry is skipped. *)
Definition import_entry (c : t jsval) (now : Z) (entry : jsval)
      : completion (t jsval) :=
      match entry with
      | JUndefined | JNull => Throws c
      | JObj fields =>
          match Js.obj_get fields "timestamp" with
          | None | Some JUndefined => Normal c
          | Some (JNum ts) =>
              if now - ts <=? ttlMs c then
                match Js.obj_get fields "key" with
                | Some (JStr key) =>
                    let d := match Js.obj_get fields "data" with
                             | Some v => v
                             | None => JUndefined
                             end in
                    Normal (with_maps c
                              (JsMap.set key {| data := d; timestamp := ts |} (cache c))
                              (JsMap.set key ts (accessOrder c)))
                | _ => Unmodelled
                end
              else Normal c
          | Some _ => Unmodelled
          end
      | JBool _ | JNum _ | JStr _ | JArr _ => Normal c
      end.

Fixpoint import_entries (c : t jsval) (now : Z) (entries : list jsval)
      : completion (t jsval) :=
      match entries with
      | [] => Normal c
      | entry :: rest =>
          match import_entry c now entry with
          | Normal c' => import_entries c' now rest
          | Throws c' => Throws c'
          | Unmodelled => Unmodelled
          end
      end.

    (** [if (data.entries) { for (const entry of data.entries) ... }].
        [data.entries] throws on [null]; on an array it is the method
        [Array.prototype.entries], truthy and not iterable; a string
        iterates over one-character strings, which are all skipped. *)
Definition import_data_entries (c : t jsval) (now : Z) (d : jsval)
      : completion (t jsval) :=
      match d with
      | JUndefined | JNull => Throws c
      | JArr _ => Throws c
      | JObj fields =>
          match Js.obj_get fields "entries" with
          | None => Normal c
          | Some v =>
              if Js.truthy v then
                match v with
                | JArr items => import_entries c now items
                | JStr _ => Normal c
                | _ => Throws c
                end
              else Normal c
          end
      | JBool _ | JNum _ | JStr _ => Normal c
      end.

Definition is_counter (k : string) : bool :=
      existsb (String.eqb k) ["hits"; "misses"; "evictions"; "sets"].

Definition counter (fields : list (string * jsval)) (k : string) (old : Z)
      : option Z :=
      match Js.obj_get fields k with
      | None => Some old
      | Some (JNum n) => Some n
      | Some _ => None
      end.

    (** [if (data.stats) { this.stats = { ...this.stats, ...data.stats } }];
        [None] when the spread would bring in anything but the four numeric
        counters. *)
Definition merge_stats (s : Stats) (d : jsval) : option Stats :=
      match d with
      | JObj fields =>
          match Js.obj_get fields "stats" with
          | None => Some s
          | Some v =>
              if Js.truthy v then
                match v with
                | JObj sf =>
                    if forallb is_counter (map fst sf) then
                      match counter sf "hits" (hits s), counter sf "misses" (misses s),
                            counter sf "evictions" (evictions s), counter sf "sets" (sets s) with
                      | Some h, Some m, Some e, Some n =>
                          Some {| hits := h; misses := m; evictions := e; sets := n |}
                      | _, _, _, _ => None
                      end
                    else None
                | JArr [] | JNum _ | JBool _ => Some s
                | _ => None
                end
              else Some s
          end
      | _ => Some s
      end.

    (** [import(jsonString)]: the boolean returned and the cache afterwards;
        [None] on a snapshot outside the embedding (see [completion]). *)
Definition import (c : t jsval) (jsonString : string) (now : Z)
      : option (bool * t jsval) :=
      match JSON_parse jsonString with
      | None => Some (false, c)
      | Some d =>
          match import_data_entries (clear c) now d with
          | Throws c' => Some (false, c')
          | Unmodelled => None
          | Normal c' =>
              match merge_stats (stats c') d with
              | Some s => Some (true, with_stats c' s)
              | None => None
              end
          end
      end.

End Persistence.

(** A cache populated by a sequence of [set(url, data)] calls, each with
    the clock reading it saw. *)
Definition populate {P : Platform} {A : Type} (c : t A) (calls : list (string * A * Z)) : t A :=
  fold_left (fun c call => set c (fst (fst call)) (snd (fst call)) (snd call)) calls c.

(** A cache in which both maps hold the same, pairwise distinct keys. *)
Definition consistent {A : Type} (c : t A) : Prop :=
  NoDup (JsMap.keys (cache c))
  /\ NoDup (JsMap.keys (accessOrder c))
  /\ (forall k, In k (JsMap.keys (cache c)) <-> In k (JsMap.keys (accessOrder c))).

End CacheManager.

(* ================================================================== *)
(** ** Well-formed snapshots

    A snapshot is well formed when it has the shape [export] writes: an
    object whose [entries] is an array of objects with a string [key], a
    [data] and a numeric [timestamp], and whose [stats] is an object made of
    the four numeric counters.  The readers below recognise that shape. *)

Module Snapshot.

Import CacheManager.

Record entry := {
  key : string;
  data : jsval;
  timestamp : Z
}.

Definition read_entry (v : jsval) : option entry :=
  match v with
  | JObj fields =>
      match Js.obj_get fields "key", Js.obj_get fields "data",
            Js.obj_get fields "timestamp" with
      | Some (JStr k), Some d, Some (JNum ts) =>
          Some {| key := k; data := d; timestamp := ts |}
      | _, _, _ => None
      end
  | _ => None
  end.

Fixpoint read_entries (items : list jsval) : option (list entry) :=
  match items with
  | [] => Some []
  | v :: rest =>
      match read_entry v, read_entries rest with
      | Some e, Some es => Some (e :: es)
      | _, _ => None
      end
  end.

Definition read_stats (v : jsval) : option Stats :=
  match v with
  | JObj sf =>
      if forallb is_counter (map fst sf) then
        match Js.obj_get sf "hits", Js.obj_get sf "misses",
              Js.obj_get sf "evictions", Js.obj_get sf "sets" with
        | Some (JNum h), Some (JNum m), Some (JNum e), Some (JNum n) =>
            Some {| hits := h; misses := m; evictions := e; sets := n |}
        | _, _, _, _ => None
        end
      else None
  | _ => None
  end.

(** [read snap = Some (entries, stats)]: [snap] is well formed and carries
    these entries and counters. *)
Definition read (snap : jsval) : option (list entry * Stats) :=
  match snap with
  | JObj fields =>
      match Js.obj_get fields "entries", Js.obj_get fields "stats" with
      | Some (JArr items), Some sv =>
          match read_entries items, read_stats sv with
          | Some es, Some st => Some (es, st)
          | _, _ => None
          end
      | _, _ => None
      end
  | _ => None
  end.

(** The entries of a snapshot that are not expired at [now]. *)
Definition live (ttlMs now : Z) (entries : list entry) : list entry :=
  filter (fun e => now - timestamp e <=? ttlMs) entries.

Definition stored (e : entry) : string * Entry jsval :=
  (key e, {| CacheManager.data := data e; CacheManager.timestamp := timestamp e |}).

(** The snapshot entry that [export] writes for a stored pair. *)
Definition of_stored (kv : string * Entry jsval) : entry :=
  {| key := fst kv;
     data := CacheManager.data (snd kv);
     timestamp := CacheManager.timestamp (snd kv) |}.

(** What the loop of [import] does with a live entry. *)
Definition store (c : CacheManager.t jsval) (e : entry) : CacheManager.t jsval :=
  with_maps c (JsMap.set (key e) (snd (stored e)) (cache c))
              (JsMap.set (key e) (timestamp e) (accessOrder c)).

(** The last entry of [entries] with key [k], as the cache stores it. *)
Definition last_with_key (k : string) (entries : list entry) : option (Entry jsval) :=
  option_map (fun e => snd (stored e))
             (find (fun e => String.eqb (key e) k) (rev entries)).

End Snapshot.

(* ================================================================== *)
(** ** phishing-detector.js: data and string metrics *)

Module PhishingDetector.

Import Config.

  (** *** The tables loaded by [_ensureDataLoaded] *)

Definition _legitimateDomains : list string :=
    [ (* Tech Giants *)
      "google.com"; "facebook.com"; "microsoft.com"; "apple.com"; "amazon.com";
      "twitter.com"; "instagram.com"; "youtube.com"; "linkedin.com"; "tiktok.com";
      "zoom.us"; "dropbox.com"; "adobe.com"; "salesforce.com"; "slack.com";
      (* Financial *)
      "paypal.com"; "stripe.com"; "square.com"; "chase.com"; "bankofamerica.com";
      "wellsfargo.com"; "citibank.com"; "venmo.com"; "cashapp.com"; "coinbase.com";
      (* E-commerce *)
      "ebay.com"; "etsy.com"; "walmart.com"; "target.com"; "bestbuy.com";
      "shopify.com"; "alibaba.com"; "aliexpress.com";
      (* Developer *)
      "github.com"; "gitlab.com"; "stackoverflow.com"; "npmjs.com"; "pypi.org";
      "docker.com"; "heroku.com"; "vercel.com"; "netlify.com";
      (* Entertainment *)
      "netflix.com"; "spotify.com"; "hulu.com"; "twitch.tv"; "discord.com";
      "reddit.com"; "imgur.com"; "medium.com";
      (* Education *)
      "wikipedia.org"; "coursera.org"; "udemy.com"; "khanacademy.org";
      (* Government *)
      "irs.gov"; "usps.com"; "gov.uk"; "canada.ca" ].

  (** Latin letter and its lookalikes, in the order of [Object.entries]. *)
Definition _homographs : list (string * list string) :=
    [ ("a", ["а"; "ɑ"; "α"]); ("e", ["е"; "ė"; "ē"]); ("o", ["о"; "ο"; "0"]);
      ("p", ["р"; "ρ"]); ("c", ["с"; "ϲ"]); ("i", ["і"; "ı"; "1"; "l"]);
      ("x", ["х"; "χ"]); ("y", ["у"; "ү"]); ("h", ["һ"]); ("b", ["ь"]);
      ("s", ["ѕ"]); ("j", ["ј"]) ].

  (** In the order of [Object.entries]: the integer-like keys first. *)
Definition _charSubstitutions : list (string * string) :=
    [ ("0", "o"); ("1", "il"); ("3", "e"); ("5", "s"); ("8", "b");
      ("@", "a"); ("$", "s") ].

  (** Key and its neighbours on the keyboard; [k "wa"] is [['w', 'a']]. *)
Definition _keyboardProximity : list (string * list string) :=
    let k (s : string) := map (fun c => String c EmptyString) (JsString.chars s) in
    [ ("q", k "wa"); ("w", k "qesa"); ("e", k "wrds");
      ("r", k "etfd"); ("t", k "rygf"); ("y", k "tuhg");
      ("u", k "yijh"); ("i", k "uokj"); ("o", k "iplk");
      ("p", k "ol"); ("a", k "qwsz"); ("s", k "awedzx");
      ("d", k "serfxc"); ("f", k "drtgcv");
      ("g", k "ftyhvb"); ("h", k "gyujbn");
      ("j", k "huiknm"); ("k", k "jiolm");
      ("l", k "kop"); ("z", k "asx"); ("x", k "zsdc");
      ("c", k "xdfv"); ("v", k "cfgb"); ("b", k "vghn");
      ("n", k "bhjm"); ("m", k "njk") ].

  (** *** The regular expressions of CONFIG.PATTERNS *)

Definition strip_prefix (p s : string) : option string :=
    if String.prefix p s
    then Some (String.substring (String.length p) (String.length s - String.length p) s)
    else None.

Fixpoint skip_digits (s : string) : string :=
    match s with
    | String c t => if JsString.is_digit c then skip_digits t else s
    | EmptyString => s
    end.

  (** [\d+] at the head of [s]: what follows the digits. *)
Definition digits1 (s : string) : option string :=
    match s with
    | String c t => if JsString.is_digit c then Some (skip_digits t) else None
    | EmptyString => None
    end.

Definition dot_then_digits (s : string) : option string :=
    match s with
    | String "."%char t => digits1 t
    | _ => None
    end.

  (** [/^https?:\/\/\d+\.\d+\.\d+\.\d+/.test(url)] *)
Definition IP_ADDRESS_PATTERN_test (url : string) : bool :=
    match strip_prefix "http" url with
    | None => false
    | Some r =>
        let r := match r with String "s"%char r' => r' | _ => r end in
        match strip_prefix "://" r with
        | None => false
        | Some r =>
            match digits1 r with
            | None => false
            | Some r =>
                match dot_then_digits r with
                | None => false
                | Some r =>
                    match dot_then_digits r with
                    | None => false
                    | Some r =>
                        match dot_then_digits r with
                        | None => false
                        | Some _ => true
                        end
                    end
                end
            end
        end
    end.

  (** [/xn--/.test(domain)] *)
Definition PUNYCODE_PATTERN_test (domain : string) : bool :=
    JsString.includes "xn--" domain.

  (** The dot of a regular expression matches all but line terminators. *)
Definition is_dot (c : ascii) : bool :=
    negb (Ascii.eqb c "010"%char || Ascii.eqb c "013"%char).

  (** [s.replace(/(.)\1+/g, '$1')]: every run of one repeated character
      becomes a single instance. *)
Fixpoint DEDUPLICATION_replace (s : string) : string :=
    match s with
    | EmptyString => EmptyString
    | String c t =>
        match t with
        | String c' _ =>
            if (Ascii.eqb c c' && is_dot c)%bool then DEDUPLICATION_replace t
            else String c (DEDUPLICATION_replace t)
        | EmptyString => String c EmptyString
        end
    end.

  (** *** Levenshtein distance *)

  (** One row of the matrix from the row above it.  [above] is the row
      above from column [j-1] on, [left] the value just written at column
      [j-1] of this row. *)
Fixpoint lev_row (c2 : ascii) (str1 : list ascii) (above : list Z) (left : Z)
    : list Z :=
    match str1, above with
    | c1 :: str1', diag :: ((up :: _) as above') =>
        let v := if Ascii.eqb c2 c1 then diag
                 else Z.min (Z.min (diag + 1) (left + 1)) (up + 1) in
        v :: lev_row c2 str1' above' v
    | _, _ => []
    end.

Fixpoint lev_rows (str2 : list ascii) (str1 : list ascii) (above : list Z) (i : Z)
    : list Z :=
    match str2 with
    | [] => above
    | c2 :: str2' => lev_rows str2' str1 (i :: lev_row c2 str1 above i) (i + 1)
    end.

  (** [_calculateLevenshteinDistance(str1, str2)]: [matrix[i][j]] compares
      the first [i] characters of [str2] with the first [j] of [str1]. *)
Definition _calculateLevenshteinDistance (str1 str2 : string) : Z :=
    let s1 := JsString.chars str1 in
    let row0 := map Z.of_nat (seq 0 (S (length s1))) in
    last (lev_rows (JsString.chars str2) s1 row0 1) 0.

  (** [_getLevenshteinDistance]: the memo table is keyed by
      [str1 + ":" + str2]; [str1] is always a label of [_legitimateDomains],
      which holds no colon, so a key determines both strings and the table
      only ever returns what [_calculateLevenshteinDistance] would. *)
Definition _getLevenshteinDistance (str1 str2 : string) : Z :=
    _calculateLevenshteinDistance str1 str2.

  (** *** Typosquatting tests *)

  (** [new RegExp(fake, 'g')] for the keys of [_charSubstitutions], applied
      by [replace]: the key "$" is the end-of-input assertion, matched once
      by the empty string at the end; every other key is a literal
      character. *)
Fixpoint replace_literal (c : ascii) (real : string) (s : string) : string :=
    match s with
    | EmptyString => EmptyString
    | String x t =>
        if Ascii.eqb x c then real ++ replace_literal c real t
        else String x (replace_literal c real t)
    end.

Definition replace_RegExp_g (fake real : string) (s : string) : string :=
    match fake with
    | String "$"%char EmptyString => s ++ real
    | String c EmptyString => replace_literal c real s
    | _ => s
    end.

Definition _checkCharSubstitution (current legitimate : string) : bool :=
    let normalized :=
      fold_left (fun normalized fr => replace_RegExp_g (fst fr) (snd fr) normalized)
                _charSubstitutions current in
    String.eqb normalized legitimate.

  (** [this._keyboardProximity[legitChar]?.includes(currChar)] *)
Definition is_adjacent (legitChar currChar : ascii) : bool :=
    match find (fun kv => String.eqb (fst kv) (String legitChar EmptyString))
               _keyboardProximity with
    | Some (_, near) => existsb (String.eqb (String currChar EmptyString)) near
    | None => false
    end.

  (** The loop of [_detectKeyboardProximityAttack], counting in halves:
      an equal character adds 2, an adjacent key adds 1. *)
Fixpoint matchScore_halves (current legitimate : list ascii) : Z :=
    match current, legitimate with
    | currChar :: current', legitChar :: legitimate' =>
        (if Ascii.eqb currChar legitChar then 2
         else if is_adjacent legitChar currChar then 1 else 0)
        + matchScore_halves current' legitimate'
    | _, _ => 0
    end.

Section WithConfig.
Context {P : Platform}.
Variable config : Config.t.

Definition _detectKeyboardProximityAttack (current legitimate : string) : bool :=
      if Z.abs (JsString.len current - JsString.len legitimate) >? 2 then false
      else
        let maxLen := Z.max (JsString.len current) (JsString.len legitimate) in
        let halves := matchScore_halves (JsString.chars current) (JsString.chars legitimate) in
        (* (halves / 2) / maxLen > num / den *)
        halves * KEYBOARD_PROXIMITY_THRESHOLD_den (TYPOSQUATTING config)
        >? 2 * maxLen * KEYBOARD_PROXIMITY_THRESHOLD_num (TYPOSQUATTING config).

Definition _checkDoubledChars (current legitimate : string) : bool :=
      String.eqb (DEDUPLICATION_replace current) legitimate.

    (** The body of the loop of [_detectTyposquatting] for one legitimate
        domain: [true] when the loop returns [legitimate], [false] when it
        goes on to the next one. *)
Definition typosquats (currentBase legitimate : string) : bool :=
      let legitBase := JsString.split_head "."%char legitimate in
      if String.eqb legitBase currentBase then false
      else if Z.abs (JsString.len legitBase - JsString.len currentBase) >? 3 then false
      else
        let distance := _getLevenshteinDistance legitBase currentBase in
        if ((distance >? 0)
            && (distance <=? MAX_LEVENSHTEIN_DISTANCE (TYPOSQUATTING config))
            && (JsString.len legitBase >=? MIN_DOMAIN_LENGTH (TYPOSQUATTING config)))%bool
        then true
        else if (JsString.includes legitBase currentBase
                 && negb (String.eqb currentBase legitBase))%bool then true
        else if _checkCharSubstitution currentBase legitBase then true
        else if _detectKeyboardProximityAttack currentBase legitBase then true
        else _checkDoubledChars currentBase legitBase.

    (** [_detectTyposquatting(domain)]; [None] is [null]. *)
Definition _detectTyposquatting (domain : string) : option string :=
      let currentBase := JsString.split_head "."%char domain in
      find (typosquats currentBase) _legitimateDomains.

    (** [_detectHomographAttack(domain)] *)
Definition _detectHomographAttack (domain : string) : bool :=
      if PUNYCODE_PATTERN_test domain then true
      else
        existsb (fun entry => existsb (fun alt => JsString.includes alt domain) (snd entry))
                _homographs.

Definition _isSensitivePath (path : string) : bool :=
      (JsString.includes "login" path || JsString.includes "payment" path
       || JsString.includes "checkout" path)%bool.

Definition _hasSuspiciousTLD (domain : string) : bool :=
      existsb (fun tld => JsString.endsWith tld domain) (SUSPICIOUS_TLDS (PATTERNS config)).

Definition _getSubdomainCount (domain : string) : Z :=
      Z.of_nat (length (JsString.split "."%char domain)) - 2.

Definition _findSuspiciousKeywords (url : string) : list string :=
      filter (fun kw => JsString.includes kw url) (SUSPICIOUS_KEYWORDS (PATTERNS config)).

Definition _isURLShortener (domain : string) : bool :=
      existsb (fun sh => JsString.includes sh domain) (URL_SHORTENERS (PATTERNS config)).

    (** [(path.match(/http/g) || []).length > 0] *)
Definition _hasEmbeddedURL (path : string) : bool :=
      JsString.includes "http" path.

End WithConfig.

  (** *** Results *)

Inductive RiskLevel := safe | low | medium | high | critical.

  (** The object returned by [analyze].  Its [details] stay the empty
      object ([_mergeAnalysis] copies score and threats only) and are left
      out. *)
Record Assessment := {
    score : Z;
    level : RiskLevel;
    threats : list string;
    timestamp : Z;
    error : option string
  }.

  (** The [details] written by [_analyzeURL]. *)
Record URLDetails := {
    details_protocol : string;
    details_domain : string;
    isHTTPS : bool;
    subdomainCount : Z
  }.

  (** The per-pass [analysis] object. *)
Record Analysis := {
    a_score : Z;
    a_threats : list string;
    a_details : option URLDetails
  }.

Definition empty_analysis : Analysis :=
    {| a_score := 0; a_threats := []; a_details := None |}.

  (** [if (cond) { analysis.score += w; analysis.threats.push(msg); }] *)
Definition rule (cond : bool) (w : Z) (msg : string) (a : Analysis) : Analysis :=
    if cond
    then {| a_score := a_score a + w; a_threats := a_threats a ++ [msg];
            a_details := a_details a |}
    else a.

  (** [if (cond) { analysis.score += w; }] *)
Definition rule_silent (cond : bool) (w : Z) (a : Analysis) : Analysis :=
    if cond
    then {| a_score := a_score a + w; a_threats := a_threats a;
            a_details := a_details a |}
    else a.

Definition string_of_nat (n : nat) : string :=
    NilEmpty.string_of_uint (Nat.to_uint n).

  (** *** The document handle *)

Record Input := {
    input_type : string;
    input_name : string;
    input_id : string;
    input_placeholder : string
  }.

Record Form := {
    form_action : string;
    form_inputs : list Input
  }.

  (** An iframe with its computed style. *)
Record Iframe := {
    style_display : string;
    style_visibility : string;
    offsetWidth : Z;
    offsetHeight : Z
  }.

Record Link := {
    link_textContent : string;
    link_href : string
  }.

Record Body := {
    innerText : string;
    innerHTML : string;
    has_oncontextmenu : bool
  }.

Record Document := {
    body : option Body;
    iframes : list Iframe;
    links : list Link;
    scripts : list string;
    forms : list Form
  }.

Definition homograph_threat : string :=
    "Possible homograph attack (lookalike characters)".

Definition typosquatting_threat (typoTarget : string) : string :=
    "Possible typosquatting: similar to " ++ typoTarget.

Section Passes.
Context {P : Platform}.
Variable config : Config.t.

Let weights : ScoreWeights := SCORE_WEIGHTS config.

    (** The rules of [_analyzeURL] on a parsed URL, in source order: those
        before the homograph rule, the homograph rule, those after it. *)
Definition url_rules_before (url : string) (urlObj : URL) : Analysis :=
      let domain := JsString.toLowerCase (hostname urlObj) in
      let path := JsString.toLowerCase (pathname urlObj) in
      let fullURL := JsString.toLowerCase url in
      let a := empty_analysis in
      let a := rule (negb (String.eqb (protocol urlObj) "https:") && _isSensitivePath path)
                    (NON_HTTPS_SENSITIVE weights)
                    "Non-HTTPS connection on sensitive page" a in
      let a := rule (IP_ADDRESS_PATTERN_test url)
                    (IP_ADDRESS_DOMAIN weights)
                    "Using IP address instead of domain name" a in
      let a := rule (_hasSuspiciousTLD config domain)
                    (SUSPICIOUS_TLD weights)
                    "Suspicious top-level domain" a in
      let subdomainCount := _getSubdomainCount domain in
      let a := rule (subdomainCount >? 3)
                    (EXCESSIVE_SUBDOMAINS weights)
                    "Excessive subdomains detected" a in
      let keywords := _findSuspiciousKeywords config fullURL in
      let a := rule (0 <? length keywords)%nat
                    (Z.of_nat (length keywords) * SUSPICIOUS_KEYWORD weights)
                    ("Suspicious keywords: " ++ JsString.join ", " (firstn 3 keywords)) a in
      a.

Definition url_rule_homograph (urlObj : URL) (a : Analysis) : Analysis :=
      let domain := JsString.toLowerCase (hostname urlObj) in
      rule (_detectHomographAttack domain)
           (HOMOGRAPH_ATTACK weights)
           homograph_threat a.

Definition url_rules_after (url : string) (urlObj : URL) (a : Analysis) : Analysis :=
      let domain := JsString.toLowerCase (hostname urlObj) in
      let path := JsString.toLowerCase (pathname urlObj) in
      let fullURL := JsString.toLowerCase url in
      let a := match _detectTyposquatting config domain with
               | Some typoTarget =>
                   rule (negb (String.eqb typoTarget EmptyString))
                        (TYPOSQUATTING_W weights)
                        (typosquatting_threat typoTarget) a
               | None => a
               end in
      let a := rule (JsString.includes "@" fullURL)
                    (URL_AT_SYMBOL weights)
                    "URL contains @ symbol (possible redirect)" a in
      let a := rule (_isURLShortener config domain)
                    (URL_SHORTENER weights)
                    "URL shortener detected" a in
      let a := rule (_hasEmbeddedURL path)
                    (EMBEDDED_URL weights)
                    "Embedded URL in path (redirect chain)" a in
      a.

Definition url_rules (url : string) (urlObj : URL) : Analysis :=
      let domain := JsString.toLowerCase (hostname urlObj) in
      let a := url_rules_after url urlObj
                 (url_rule_homograph urlObj (url_rules_before url urlObj)) in
      {| a_score := a_score a; a_threats := a_threats a;
         a_details := Some {| details_protocol := protocol urlObj;
                              details_domain := domain;
                              isHTTPS := String.eqb (protocol urlObj) "https:";
                              subdomainCount := _getSubdomainCount domain |} |}.

    (** [_analyzeURL(url)]: when [new URL(url)] throws, the handler logs and
        the untouched [analysis] is returned. *)
Definition _analyzeURL (url : string) : Analysis :=
      match new_URL url with
      | Some urlObj => url_rules url urlObj
      | None => empty_analysis
      end.

Definition _findUrgencyPhrases (text : string) : list string :=
      filter (fun phrase => JsString.includes (JsString.toLowerCase phrase) text)
             (URGENCY_PHRASES (PATTERNS config)).

Definition _findHiddenIframes (doc : Document) : nat :=
      length (filter (fun iframe =>
                        String.eqb (style_display iframe) "none"
                        || String.eqb (style_visibility iframe) "hidden"
                        || (offsetWidth iframe =? 0)
                        || (offsetHeight iframe =? 0))%bool
                     (iframes doc)).

Definition _findMisleadingLinks (doc : Document) : nat :=
      length (filter (fun link =>
                        let displayText := JsString.toLowerCase (link_textContent link) in
                        let actualHref := JsString.toLowerCase (link_href link) in
                        existsb (fun domain =>
                                   JsString.includes domain displayText
                                   && negb (JsString.includes domain actualHref))%bool
                                _legitimateDomains)
                     (links doc)).

Definition _findObfuscatedScripts (doc : Document) : nat :=
      length (filter (fun content =>
                        JsString.includes "eval(" content
                        || JsString.includes "unescape(" content)%bool
                     (scripts doc)).

    (** [(bodyText.match(/!/g) || []).length] *)
Definition exclamationCount (bodyText : string) : nat :=
      length (filter (Ascii.eqb "!"%char) (JsString.chars bodyText)).

    (** [_analyzeContent(doc)] *)
Definition _analyzeContent (doc : Document) : Analysis :=
      let bodyText := match body doc with
                      | Some b => JsString.toLowerCase (innerText b)
                      | None => EmptyString
                      end in
      let a := empty_analysis in
      let urgencyMatches := length (_findUrgencyPhrases bodyText) in
      let a := rule (0 <? urgencyMatches)%nat
                    (Z.of_nat urgencyMatches * URGENCY_PHRASE weights)
                    ("Urgency tactics: " ++ string_of_nat urgencyMatches ++ " phrases") a in
      let a := rule (10 <? exclamationCount bodyText)%nat
                    (EXCESSIVE_EXCLAMATIONS weights)
                    "Excessive exclamation marks" a in
      let hiddenIframes := _findHiddenIframes doc in
      let a := rule (0 <? hiddenIframes)%nat
                    (Z.of_nat hiddenIframes * HIDDEN_IFRAME weights)
                    (string_of_nat hiddenIframes ++ " hidden iframe(s) detected") a in
      let misleadingLinks := _findMisleadingLinks doc in
      let a := rule (0 <? misleadingLinks)%nat
                    (Z.of_nat misleadingLinks * MISLEADING_LINK weights)
                    (string_of_nat misleadingLinks ++ " misleading link(s)") a in
      let obfuscatedScripts := _findObfuscatedScripts doc in
      let a := rule (0 <? obfuscatedScripts)%nat
                    (Z.of_nat obfuscatedScripts * OBFUSCATED_SCRIPT weights)
                    (string_of_nat obfuscatedScripts ++ " obfuscated script(s)") a in
      a.

    (** [_analyzeForm(form, urlObj)] *)
Definition _analyzeForm (form : Form) (urlObj : URL) : Analysis :=
      let combined (input : Input) :=
        JsString.toLowerCase (input_type input ++ " " ++ input_name input ++ " "
                              ++ input_id input ++ " " ++ input_placeholder input) in
      let hasPassword :=
        existsb (fun input => String.eqb (input_type input) "password"
                              || JsString.includes "password" (combined input))%bool
                (form_inputs form) in
      let hasEmail :=
        existsb (fun input => String.eqb (input_type input) "email"
                              || JsString.includes "email" (combined input))%bool
                (form_inputs form) in
      let hasCreditCard :=
        existsb (fun input => JsString.includes "card" (combined input)
                              || JsString.includes "cvv" (combined input))%bool
                (form_inputs form) in
      let hasSSN :=
        existsb (fun input => JsString.includes "ssn" (combined input)
                              || JsString.includes "social" (combined input))%bool
                (form_inputs form) in
      let action := form_action form in
      let isExternalAction :=
        (negb (String.eqb action EmptyString)
         && negb (JsString.includes (hostname urlObj) action))%bool in
      let https := String.eqb (protocol urlObj) "https:" in
      let a := empty_analysis in
      let a := rule (hasPassword && negb https)
                    (PASSWORD_NO_HTTPS weights)
                    "Password field on non-HTTPS page" a in
      let a := rule (isExternalAction && (hasPassword || hasEmail || hasCreditCard))
                    (EXTERNAL_FORM_ACTION weights)
                    "Sensitive form submits to external domain" a in
      let a :=
        if (hasEmail && hasPassword)%bool then
          let isKnownDomain :=
            existsb (fun d => JsString.includes d (hostname urlObj)) _legitimateDomains in
          if (https && isKnownDomain)%bool then
            rule_silent true (HTTPS_LOGIN_KNOWN weights) a
          else if https then
            rule_silent true (HTTPS_LOGIN_UNKNOWN weights) a
          else
            rule true (HTTP_LOGIN weights) "Login form on non-HTTPS page" a
        else a in
      let a := rule hasCreditCard (CREDIT_CARD_REQUEST weights)
                    "Credit card information requested" a in
      let a := rule hasSSN (SSN_REQUEST weights)
                    "Social Security Number requested" a in
      a.

    (** [_analyzeForms(doc, url)]: [new URL(url)] is inside the [try]; when
        it throws no form has been looked at. *)
Definition _analyzeForms (doc : Document) (url : string) : Analysis :=
      match new_URL url with
      | None => empty_analysis
      | Some urlObj =>
          fold_left (fun analysis form =>
                       let formData := _analyzeForm form urlObj in
                       {| a_score := a_score analysis + a_score formData;
                          a_threats := a_threats analysis ++ a_threats formData;
                          a_details := a_details analysis |})
                    (forms doc) empty_analysis
      end.

    (** [_analyzeBehavior(doc)] *)
Definition _analyzeBehavior (doc : Document) : Analysis :=
      let bodyHTML := match body doc with
                      | Some b => innerHTML b
                      | None => EmptyString
                      end in
      let a := empty_analysis in
      let a := rule (JsString.includes "submit()" bodyHTML)
                    (AUTO_SUBMIT_FORM weights)
                    "Auto-submitting form detected" a in
      let a := rule (JsString.includes "window.open(" bodyHTML)
                    (POPUP_WINDOW weights)
                    "Popup window code detected" a in
      let a := rule (match body doc with
                     | Some b => has_oncontextmenu b
                     | None => false
                     end)
                    (RIGHT_CLICK_DISABLED weights)
                    "Right-click disabled" a in
      let a := rule (JsString.includes "clipboard" bodyHTML)
                    (CLIPBOARD_ACCESS weights)
                    "Clipboard access detected" a in
      a.

    (** [_getRiskLevel(score)] *)
Definition _getRiskLevel (score : Z) : RiskLevel :=
      let thresholds := RISK_THRESHOLDS config in
      if score >=? CRITICAL thresholds then critical
      else if score >=? HIGH thresholds then high
      else if score >=? MEDIUM thresholds then medium
      else if score >=? LOW thresholds then low
      else safe.

End Passes.

  (** *** The detector object *)

  (** The instance state that [analyze] reads and writes: the configuration
      and the optional result cache. *)
Record t := {
    config : Config.t;
    cache : option (CacheManager.t Assessment)
  }.

  (** [new PhishingDetector(config)], with the CacheManager class loaded. *)
Definition new (config : Config.t) : t :=
    {| config := config;
       cache := if ENABLE_CACHING (FEATURES config)
                then Some (CacheManager.new
                             (CACHE_MAX_ENTRIES (PERFORMANCE config))
                             (CACHE_TTL_MS (PERFORMANCE config)))
                else None |}.

Definition with_cache (d : t) (c : CacheManager.t Assessment) : t :=
    {| config := config d; cache := Some c |}.

Definition _createSafeResult (now : Z) : Assessment :=
    {| score := 0; level := safe; threats := []; timestamp := now;
       error := Some "Invalid input" |}.

Definition _mergeAnalysis (results : Assessment) (analysis : Analysis) : Assessment :=
    {| score := score results + a_score analysis;
       level := level results;
       threats := threats results ++ a_threats analysis;
       timestamp := timestamp results;
       error := error results |}.

Section Analyze.
Context {P : Platform}.

    (** The body of the [try] block of [analyze] up to the classification. *)
Definition run_passes (cfg : Config.t) (url : string) (doc : option Document)
                          (now : Z) : Assessment :=
      let results := {| score := 0; level := safe; threats := [];
                        timestamp := now; error := None |} in
      let results := _mergeAnalysis results (_analyzeURL cfg url) in
      let results :=
        match doc with
        | Some doc =>
            let results := _mergeAnalysis results (_analyzeContent cfg doc) in
            let results := _mergeAnalysis results (_analyzeForms cfg doc url) in
            _mergeAnalysis results (_analyzeBehavior cfg doc)
        | None => results
        end in
      {| score := score results;
         level := _getRiskLevel cfg (score results);
         threats := threats results;
         timestamp := timestamp results;
         error := error results |}.

    (** [analyze(url, doc)]: the value returned ([None] for [null], which
        only [cache.get] could produce) and the detector afterwards. *)
Definition analyze (d : t) (url : string) (doc : option Document) (now : Z)
      : option Assessment * t :=
      if String.eqb url EmptyString then (Some (_createSafeResult now), d)
      else
        match cache d with
        | Some c =>
            let (hit, c1) := CacheManager.has c url now in
            if hit then
              let (cached, c2) := CacheManager.get c1 url now in
              (cached, with_cache d c2)
            else
              let results := run_passes (config d) url doc now in
              (Some results, with_cache d (CacheManager.set c1 url results now))
        | None => (Some (run_passes (config d) url doc now), d)
        end.

End Analyze.

End PhishingDetector.

(* ================================================================== *)
(** ** A reference platform

    Used to evaluate the code on concrete URLs and snapshots.  The URL
    reader accepts plain absolute URLs [http(s)://host/path?query#fragment]
    whose host is made of letters, digits, hyphens and dots, and the JSON
    codec covers integers and the short escapes; on such inputs the
    constructor and the JSON object of a browser give the same results. *)

Module Reference.

Definition is_host_char (c : ascii) : bool :=
  let n := nat_of_ascii c in
  ((48 <=? n) && (n <=? 57) || (65 <=? n) && (n <=? 90)
   || (97 <=? n) && (n <=? 122) || (n =? 45) || (n =? 46))%nat%bool.

(** [take_until stop s]: the longest prefix free of the characters of
    [stop], and what follows it. *)
Fixpoint take_until (stop : list ascii) (s : string) : string * string :=
  match s with
  | EmptyString => (EmptyString, EmptyString)
  | String c t =>
      if existsb (Ascii.eqb c) stop then (EmptyString, s)
      else let (a, b) := take_until stop t in (String c a, b)
  end.

Definition parse_URL (s : string) : option URL :=
  let scheme :=
    match PhishingDetector.strip_prefix "https://" s with
    | Some r => Some ("https:", r)
    | None =>
        match PhishingDetector.strip_prefix "http://" s with
        | Some r => Some ("http:", r)
        | None => None
        end
    end in
  match scheme with
  | None => None
  | Some (proto, r) =>
      let (host, r1) := take_until ["/"; "?"; "#"]%char r in
      let (path, r2) := take_until ["?"; "#"]%char r1 in
      let (search, _) := take_until ["#"]%char r2 in
      if (String.eqb host EmptyString
          || negb (forallb is_host_char (JsString.chars host)))%bool
      then None
      else
        let host := JsString.toLowerCase host in
        let path := if String.eqb path EmptyString then "/" else path in
        Some {| protocol := proto;
                hostname := host;
                pathname := path;
                toString_without_hash := proto ++ "//" ++ host ++ path ++ search |}
  end.

(** *** JSON text *)

Definition dquote : ascii := "034"%char.
Definition backslash : ascii := "092"%char.

Definition hex_digit (n : nat) : ascii :=
  if (n <? 10)%nat then ascii_of_nat (48 + n) else ascii_of_nat (87 + n).

Definition escape_char (c : ascii) : string :=
  let n := nat_of_ascii c in
  if Ascii.eqb c dquote then String backslash (String dquote EmptyString)
  else if Ascii.eqb c backslash then String backslash (String backslash EmptyString)
  else if (n =? 8)%nat then String backslash "b"
  else if (n =? 9)%nat then String backslash "t"
  else if (n =? 10)%nat then String backslash "n"
  else if (n =? 12)%nat then String backslash "f"
  else if (n =? 13)%nat then String backslash "r"
  else if (n <? 32)%nat
       then String backslash
              ("u00" ++ String (hex_digit (n / 16)) (String (hex_digit (n mod 16)) EmptyString))
  else String c EmptyString.

Fixpoint escape (s : string) : string :=
  match s with
  | EmptyString => EmptyString
  | String c t => escape_char c ++ escape t
  end.

Definition quote (s : string) : string :=
  String dquote (escape s ++ String dquote EmptyString).

(** [JSON.stringify(v)] for an object or array [v]: a property whose value
    is undefined is left out, an undefined array element prints as null. *)
Fixpoint stringify (v : jsval) : string :=
  let fix items_text (l : list jsval) : list string :=
    match l with
    | [] => []
    | x :: r => stringify x :: items_text r
    end in
  let fix fields_text (l : list (string * jsval)) : list string :=
    match l with
    | [] => []
    | (_, JUndefined) :: r => fields_text r
    | (k, x) :: r => (quote k ++ ":" ++ stringify x) :: fields_text r
    end in
  match v with
  | JUndefined | JNull => "null"
  | JBool true => "true"
  | JBool false => "false"
  | JNum n => NilEmpty.string_of_int (Z.to_int n)
  | JStr s => quote s
  | JArr items => "[" ++ JsString.join "," (items_text items) ++ "]"
  | JObj fields => "{" ++ JsString.join "," (fields_text fields) ++ "}"
  end.

Definition is_ws (c : ascii) : bool :=
  let n := nat_of_ascii c in
  ((n =? 32) || (n =? 9) || (n =? 10) || (n =? 13))%nat%bool.

Fixpoint skip_ws (s : string) : string :=
  match s with
  | String c t => if is_ws c then skip_ws t else s
  | EmptyString => s
  end.

Fixpoint read_digits (s : string) (acc : Z) : Z * string :=
  match s with
  | String c t =>
      if JsString.is_digit c
      then read_digits t (10 * acc + Z.of_nat (nat_of_ascii c - 48))
      else (acc, s)
  | EmptyString => (acc, s)
  end.

(** An integer literal; a fraction or an exponent is not read. *)
Definition read_number (s : string) : option (Z * string) :=
  let (negative, s1) := match s with
                        | String "-"%char t => (true, t)
                        | _ => (false, s)
                        end in
  match s1 with
  | String c t =>
      if JsString.is_digit c then
        let leading_zero := match t with
                            | String c' _ => (Ascii.eqb c "0"%char && JsString.is_digit c')%bool
                            | EmptyString => false
                            end in
        let (n, r) := read_digits s1 0 in
        match r with
        | String "."%char _ | String "e"%char _ | String "E"%char _ => None
        | _ => if leading_zero then None
               else Some (if negative then - n else n, r)
        end
      else None
  | EmptyString => None
  end.

Definition unescape (e : ascii) : option ascii :=
  if Ascii.eqb e dquote then Some dquote
  else if Ascii.eqb e backslash then Some backslash
  else if Ascii.eqb e "/"%char then Some "/"%char
  else if Ascii.eqb e "b"%char then Some "008"%char
  else if Ascii.eqb e "t"%char then Some "009"%char
  else if Ascii.eqb e "n"%char then Some "010"%char
  else if Ascii.eqb e "f"%char then Some "012"%char
  else if Ascii.eqb e "r"%char then Some "013"%char
  else None.

(** The rest of a string literal after its opening quote. *)
Fixpoint read_string (s : string) : option (string * string) :=
  match s with
  | EmptyString => None
  | String c t =>
      if Ascii.eqb c dquote then Some (EmptyString, t)
      else if Ascii.eqb c backslash then
        match t with
        | String e t' =>
            match unescape e, read_string t' with
            | Some x, Some (str, r) => Some (String x str, r)
            | _, _ => None
            end
        | EmptyString => None
        end
      else if (nat_of_ascii c <? 32)%nat then None
      else
        match read_string t with
        | Some (str, r) => Some (String c str, r)
        | None => None
        end
  end.

Definition literal (word : string) (v : jsval) (s : string) : option (jsval * string) :=
  match PhishingDetector.strip_prefix word s with
  | Some r => Some (v, r)
  | None => None
  end.

Fixpoint read_value (fuel : nat) (s : string) : option (jsval * string) :=
  match fuel with
  | O => None
  | S fuel' =>
      match skip_ws s with
      | EmptyString => None
      | String c t as s' =>
          if Ascii.eqb c "n"%char then literal "null" JNull s'
          else if Ascii.eqb c "t"%char then literal "true" (JBool true) s'
          else if Ascii.eqb c "f"%char then literal "false" (JBool false) s'
          else if Ascii.eqb c dquote then
            match read_string t with
            | Some (str, r) => Some (JStr str, r)
            | None => None
            end
          else if Ascii.eqb c "["%char then
            match skip_ws t with
            | String "]"%char r => Some (JArr [], r)
            | t' =>
                match read_items fuel' t' with
                | Some (items, r) => Some (JArr items, r)
                | None => None
                end
            end
          else if Ascii.eqb c "{"%char then
            match skip_ws t with
            | String "}"%char r => Some (JObj [], r)
            | t' =>
                match read_fields fuel' t' with
                | Some (fields, r) => Some (JObj fields, r)
                | None => None
                end
            end
          else
            match read_number s' with
            | Some (n, r) => Some (JNum n, r)
            | None => None
            end
      end
  end

with read_items (fuel : nat) (s : string) : option (list jsval * string) :=
  match fuel with
  | O => None
  | S fuel' =>
      match read_value fuel' s with
      | Some (v, r) =>
          match skip_ws r with
          | String ","%char r' =>
              match read_items fuel' r' with
              | Some (vs, r'') => Some (v :: vs, r'')
              | None => None
              end
          | String "]"%char r' => Some ([v], r')
          | _ => None
          end
      | None => None
      end
  end

with read_fields (fuel : nat) (s : string) : option (list (string * jsval) * string) :=
  match fuel with
  | O => None
  | S fuel' =>
      match skip_ws s with
      | String c t =>
          if Ascii.eqb c dquote then
            match read_string t with
            | Some (k, r) =>
                match skip_ws r with
                | String ":"%char r1 =>
                    match read_value fuel' r1 with
                    | Some (v, r2) =>
                        match skip_ws r2 with
                        | String ","%char r3 =>
                            match read_fields fuel' r3 with
                            | Some (fs, r4) => Some ((k, v) :: fs, r4)
                            | None => None
                            end
                        | String "}"%char r3 => Some ([(k, v)], r3)
                        | _ => None
                        end
                    | None => None
                    end
                | _ => None
                end
            | None => None
            end
          else None
      | EmptyString => None
      end
  end.

(** [JSON.parse(s)]; [None] for a SyntaxError. *)
Definition parse (s : string) : option jsval :=
  match read_value (2 * String.length s + 2) s with
  | Some (v, r) => if String.eqb (skip_ws r) EmptyString then Some v else None
  | None => None
  end.

Definition platform : Platform := {|
  new_URL := parse_URL;
  JSON_parse := parse;
  JSON_stringify := stringify
|}.

End Reference.

(* ================================================================== *)
(** ** Scenarios

    Concrete pages, caches and snapshots on which the code is evaluated. *)

Module Scenario.

Import Config PhishingDetector.

(** A page whose markup calls [submit()], with nothing else on it. *)
Definition auto_submit_page : Document :=
  {| body := Some {| innerText := "welcome";
                     innerHTML := "<script>document.forms[0].submit()</script>";
                     has_oncontextmenu := false |};
     iframes := []; links := []; scripts := []; forms := [] |}.

Definition positive_thresholds (cfg : Config.t) : Prop :=
  0 < LOW (RISK_THRESHOLDS cfg) /\ 0 < MEDIUM (RISK_THRESHOLDS cfg)
  /\ 0 < HIGH (RISK_THRESHOLDS cfg) /\ 0 < CRITICAL (RISK_THRESHOLDS cfg).

Definition RP : Platform := Reference.platform.

(** [new CacheManager(10, 1000)] after one [set] at time 5. *)
Definition used_cache : CacheManager.t jsval :=
  CacheManager.set (P := RP) (CacheManager.new 10 1000)
                   "https://a.example/" (JStr "first") 5.

(** A snapshot without entries whose counters say five sets. *)
Definition five_sets_snapshot : string :=
  Reference.stringify
    (JObj [("entries", JArr []);
           ("stats", JObj [("hits", JNum 0); ("misses", JNum 0);
                           ("evictions", JNum 0); ("sets", JNum 5)])]).

(** A snapshot whose second entry is [null]. *)
Definition broken_snapshot : string :=
  Reference.stringify
    (JObj [("entries",
            JArr [JObj [("key", JStr "https://b.example/"); ("data", JStr "second");
                        ("timestamp", JNum 6)];
                  JNull])]).

(** Two live entries, for a cache that may hold one. *)
Definition two_entries_snapshot : string :=
  Reference.stringify
    (JObj [("entries",
            JArr [JObj [("key", JStr "https://b.example/"); ("data", JStr "second");
                        ("timestamp", JNum 6)];
                  JObj [("key", JStr "https://c.example/"); ("data", JStr "third");
                        ("timestamp", JNum 7)]]);
           ("stats", JObj [("hits", JNum 0); ("misses", JNum 0);
                           ("evictions", JNum 0); ("sets", JNum 2)])]).

(** [new CacheManager(1, 1000)] after [set("", ...)] at time 5: full, and
    its only key is the empty string. *)
Definition empty_key_cache : CacheManager.t jsval :=
  CacheManager.set (P := RP) (CacheManager.new 1 1000) "" (JStr "first") 5.

(** [new CacheManager(1, 1000)] after one [set] at time 5: full. *)
Definition full_cache : CacheManager.t jsval :=
  CacheManager.set (P := RP) (CacheManager.new 1 1000)
                   "https://a.example/" (JStr "first") 5.

(** [new CacheManager(2, 1000)] populated by two [set]s. *)
Definition populated_cache : CacheManager.t jsval :=
  CacheManager.populate (P := RP) (CacheManager.new 2 1000)
                        [("https://a.example/", JStr "first", 1);
                         ("https://b.example/", JStr "second", 2)].

(** [new CacheManager(2, 1000)]: "a" set at 1, "b" set at 2, "a" read at 3. *)
Definition refreshed_cache : CacheManager.t jsval :=
  let c := CacheManager.set (P := RP) (CacheManager.new 2 1000)
                            "https://a.example/" (JStr "first") 1 in
  let c := CacheManager.set (P := RP) c "https://b.example/" (JStr "second") 2 in
  snd (CacheManager.get (P := RP) c "https://a.example/" 3).

End Scenario.

(* ================================================================== *)
(** ** Edit distance, by its recurrence

    The distance between two words given by their last characters first:
    nothing to do on equal last characters, otherwise one more than the best
    of a substitution, an insertion and a deletion.  [matrix[i][j]] of
    [_calculateLevenshteinDistance] is meant to hold this number for the
    first [i] characters of [str2] and the first [j] of [str1]. *)

Module EditDistance.

(** [distance a b] for [a] and [b] read from their last character. *)
Fixpoint distance (a : list ascii) : list ascii -> Z :=
  fix distance_a (b : list ascii) : Z :=
    match a, b with
    | [], _ => Z.of_nat (length b)
    | _, [] => Z.of_nat (length a)
    | x :: a', y :: b' =>
        if Ascii.eqb x y then distance a' b'
        else Z.min (Z.min (distance a' b' + 1) (distance_a b' + 1))
                   (distance a' b + 1)
    end.

(** The row of the matrix for the rows-word [r2]: the distances to the
    columns-words [q], then [q] extended by the characters of [t] one by
    one. *)
Fixpoint row_of (r2 q t : list ascii) : list Z :=
  distance r2 q ::
  match t with
  | [] => []
  | x :: t' => row_of r2 (x :: q) t'
  end.

End EditDistance.

(* ================================================================== *)
(** ** background.js: the check made before a page loads *)

Module Background.

Import Config.

(** [isInternalPage(url)] *)
Definition isInternalPage (url : string) : bool :=
  (JsString.startsWith "chrome://" url
   || JsString.startsWith "chrome-extension://" url
   || JsString.startsWith "about:" url
   || JsString.startsWith "edge://" url
   || JsString.startsWith "file://" url)%bool.

(** [shouldBlockNavigation(url)], reading the configuration [cfg] and the
    feature flag [CONFIG.FEATURES.ENABLE_PRE_NAVIGATION_BLOCKING]; the calls
    to the logger are left out.  [quickScore] is the sum computed before
    the comparison with the HIGH threshold. *)
Definition quickScore (cfg : Config.t) (url : string) (urlObj : URL) : Z :=
  let quickScore := 0 in
  let quickScore :=
    if PhishingDetector.IP_ADDRESS_PATTERN_test url
    then quickScore + IP_ADDRESS_DOMAIN (SCORE_WEIGHTS cfg) else quickScore in
  let domain := JsString.toLowerCase (hostname urlObj) in
  let hasSuspiciousTLD :=
    existsb (fun tld => JsString.endsWith tld domain) (SUSPICIOUS_TLDS (PATTERNS cfg)) in
  let quickScore :=
    if hasSuspiciousTLD
    then quickScore + SUSPICIOUS_TLD (SCORE_WEIGHTS cfg) else quickScore in
  let quickScore :=
    if negb (String.eqb (protocol urlObj) "https:") then
      let path := JsString.toLowerCase (pathname urlObj) in
      if (JsString.includes "login" path || JsString.includes "payment" path)%bool
      then quickScore + NON_HTTPS_SENSITIVE (SCORE_WEIGHTS cfg) else quickScore
    else quickScore in
  quickScore.

Definition shouldBlockNavigation {P : Platform} (cfg : Config.t)
           (ENABLE_PRE_NAVIGATION_BLOCKING : bool) (url : string) : bool :=
  if negb ENABLE_PRE_NAVIGATION_BLOCKING then false
  else if isInternalPage url then false
  else
    match new_URL url with
    | None => false
    | Some urlObj => quickScore cfg url urlObj >=? HIGH (RISK_THRESHOLDS cfg)
    end.

End Background.

(* ================================================================== *)
(** ** utils.js: the logger *)

Module Logger.

(** [Logger.levels] *)
Definition levels : list (string * Z) :=
  [("DEBUG", 0); ("INFO", 1); ("WARN", 2); ("ERROR", 3)].

Definition level_named (name : string) : option Z :=
  option_map snd (find (fun kv => String.eqb (fst kv) name) levels).

(** The initial [currentLevel]. *)
Definition initial_level : Z := 1.

(** [setLevel(level)]: the new [currentLevel],
    [this.levels[level.toUpperCase()] || 1].  The upper-casing of the host
    is the parameter [toUpperCase]. *)
Definition setLevel (toUpperCase : string -> string) (level : string) : Z :=
  match level_named (toUpperCase level) with
  | Some n => if n =? 0 then 1 else n
  | None => 1
  end.

(** Whether [debug], [info], [warn], [error] write to the console. *)
Definition debug_writes (currentLevel : Z) : bool := currentLevel <=? 0.
Definition info_writes (currentLevel : Z) : bool := currentLevel <=? 1.
Definition warn_writes (currentLevel : Z) : bool := currentLevel <=? 2.
Definition error_writes (currentLevel : Z) : bool := currentLevel <=? 3.

Definition upper_ascii (c : ascii) : ascii :=
  let n := nat_of_ascii c in
  if ((97 <=? n)%nat && (n <=? 122)%nat)%bool then ascii_of_nat (n - 32) else c.

(** [s.toUpperCase()] on ASCII text. *)
Fixpoint toUpperCase (s : string) : string :=
  match s with
  | EmptyString => EmptyString
  | String c t => String (upper_ascii c) (toUpperCase t)
  end.

(** The levels a logger can be at: the initial one, or one set by
    [setLevel]. *)
Inductive reachable (toUpperCase : string -> string) : Z -> Prop :=
| reachable_initial : reachable toUpperCase initial_level
| reachable_set (level : string) : reachable toUpperCase (setLevel toUpperCase level).

End Logger.

(* ================================================================== *)
(** ** Shapes of labels *)

Module Label.

(** No two neighbouring characters of [s] are equal, line terminators
    apart. *)
Fixpoint no_doubled (s : string) : Prop :=
  match s with
  | EmptyString => True
  | String c t =>
      match t with
      | EmptyString => True
      | String c' _ => (c = c' -> PhishingDetector.is_dot c = false) /\ no_doubled t
      end
  end.

End Label.

(* ================================================================== *)
(** ** Conditions on the outcome of an import *)

Module ImportOutcome.

Import CacheManager.

(** The cache a block of [import] ends with, when it ends, is consistent. *)
Definition settled (r : completion (CacheManager.t jsval)) : Prop :=
  match r with
  | Normal c' | Throws c' => consistent c'
  | Unmodelled => True
  end.

End ImportOutcome.

(* ================================================================== *)
(** ** Conditions on a configuration *)

Module Weights.

Import Config.

(** Every weight that a rule can add is at least [lo]. *)
Definition at_least (lo : Z) (w : ScoreWeights) : Prop :=
  Forall (fun x => lo <= x)
    [ NON_HTTPS_SENSITIVE w; IP_ADDRESS_DOMAIN w; SUSPICIOUS_TLD w;
      EXCESSIVE_SUBDOMAINS w; HOMOGRAPH_ATTACK w; TYPOSQUATTING_W w;
      URL_AT_SYMBOL w; URL_SHORTENER w; EMBEDDED_URL w; SUSPICIOUS_KEYWORD w;
      URGENCY_PHRASE w; EXCESSIVE_EXCLAMATIONS w; HIDDEN_IFRAME w;
      MISLEADING_LINK w; OBFUSCATED_SCRIPT w; PASSWORD_NO_HTTPS w;
      EXTERNAL_FORM_ACTION w; HTTPS_LOGIN_UNKNOWN w; HTTP_LOGIN w;
      HTTPS_LOGIN_KNOWN w; CREDIT_CARD_REQUEST w; SSN_REQUEST w;
      AUTO_SUBMIT_FORM w; POPUP_WINDOW w; RIGHT_CLICK_DISABLED w;
      CLIPBOARD_ACCESS w ].

Definition non_negative (cfg : Config.t) : Prop := at_least 0 (SCORE_WEIGHTS cfg).
Definition positive (cfg : Config.t) : Prop := at_least 1 (SCORE_WEIGHTS cfg).

(** A per-pass analysis that is sound as a report: the score is not
    negative, and a score of zero comes with no threat. *)
Definition sound (a : PhishingDetector.Analysis) : Prop :=
  0 <= PhishingDetector.a_score a
  /\ (PhishingDetector.a_score a = 0 -> PhishingDetector.a_threats a = []).

End Weights.

(* ================================================================== *)
(** ** The clock readings of one analysis

    One call of [analyze] reads [Date.now()] at separate places: inside
    [cache.has]; then, on a hit, inside [cache.get]; on a miss, for
    [results.timestamp] and inside [cache.set].  A rejected input reads it
    once, for the timestamp of the safe result.  [Clocked.analyze] is
    [analyze] with one reading for each of these places;
    [PhishingDetector.analyze] is the case where they all coincide. *)

Module Clocked.

Import PhishingDetector.

Record Clock := {
  at_has : Z;       (* [_isExpired] called by [cache.has] *)
  at_get : Z;       (* [cache.get], on a hit *)
  at_results : Z;   (* [timestamp: Date.now()] of the result *)
  at_set : Z        (* [cache.set], on a miss *)
}.

(** The clock that shows [now] at every reading. *)
Definition steady (now : Z) : Clock :=
  {| at_has := now; at_get := now; at_results := now; at_set := now |}.

Section Analyze.
Context {P : Platform}.

(** [analyze(url, doc)]: the value returned ([None] for [null]) and the
    detector afterwards. *)
Definition analyze (d : PhishingDetector.t) (url : string) (doc : option Document)
           (clock : Clock) : option Assessment * PhishingDetector.t :=
  if String.eqb url EmptyString then (Some (_createSafeResult (at_results clock)), d)
  else
    match cache d with
    | Some c =>
        let (hit, c1) := CacheManager.has c url (at_has clock) in
        if hit then
          let (cached, c2) := CacheManager.get c1 url (at_get clock) in
          (cached, with_cache d c2)
        else
          let results := run_passes (config d) url doc (at_results clock) in
          (Some results,
           with_cache d (CacheManager.set c1 url results (at_set clock)))
    | None => (Some (run_passes (config d) url doc (at_results clock)), d)
    end.

End Analyze.

(** A detector with the shipped configuration that analysed
    [https://example.org/] at time 0, and a clock whose readings in [has]
    and in [get] fall on either side of the end of the entry's life. *)
Definition visited : PhishingDetector.t :=
  snd (analyze (P := Reference.platform) (PhishingDetector.new Config.CONFIG)
         "https://example.org/" None (steady 0)).

Definition straddling : Clock :=
  {| at_has := 1800000; at_get := 1800001; at_results := 1800001; at_set := 1800001 |}.

End Clocked.

(* ================================================================== *)
(** * Properties *)

Unset Implicit Arguments.

(** ** Strings *)

Module JsStringFacts.

Import JsString.

Lemma prefix_single (c : ascii) (t : string) :
  String.prefix (String c EmptyString) (String c t) = true.
Proof.
  simpl. destruct (ascii_dec c c) as [_ | n]; [| now elim n].
  now destruct t.
Qed.

(** A string that holds the character [c] includes the one-character
    string [c]. *)
Lemma includes_char (c : ascii) (s : string) :
  In c (chars s) -> includes (String c EmptyString) s = true.
Proof.
  induction s as [| x t IH]; simpl.
  - intros [].
  - intros [-> | Hin].
    + destruct (ascii_dec c c) as [_ | n]; [| now elim n].
      now destruct t.
    + destruct (ascii_dec c x) as [_ | _].
      * destruct t; [reflexivity |]. destruct (String.prefix "" (String a t)); auto.
      * auto.
Qed.

Lemma lower_ascii_fixes (c : ascii) :
  (nat_of_ascii c < 65 \/ 90 < nat_of_ascii c)%nat -> lower_ascii c = c.
Proof.
  intros H. unfold lower_ascii.
  destruct (Nat.leb_spec 65 (nat_of_ascii c)); destruct (Nat.leb_spec (nat_of_ascii c) 90);
    simpl; try reflexivity; lia.
Qed.

(** Lower-casing keeps every character that is not an upper-case letter. *)
Lemma toLowerCase_keeps (c : ascii) (s : string) :
  (nat_of_ascii c < 65 \/ 90 < nat_of_ascii c)%nat ->
  In c (chars s) -> In c (chars (toLowerCase s)).
Proof.
  intros Hc. induction s as [| x t IH]; simpl; [tauto |].
  intros [-> | Hin].
  - left. now apply lower_ascii_fixes.
  - right. auto.
Qed.

End JsStringFacts.

(** ** Maps *)

Module JsMapFacts.

Import JsMap.

Section WithValues.
Variable V : Type.
Implicit Types (m : JsMap.t V) (k : string) (v : V).

Lemma get_set k k' v m :
  get k' (set k v m) = if String.eqb k k' then Some v else get k' m.
Proof.
  induction m as [| [k0 v0] r IH]; simpl.
  - reflexivity.
  - destruct (String.eqb_spec k0 k) as [-> | Hne]; simpl.
    + destruct (String.eqb k k'); reflexivity.
    + rewrite IH. destruct (String.eqb_spec k0 k') as [-> | Hne'].
      * destruct (String.eqb_spec k k'); [congruence | reflexivity].
      * reflexivity.
Qed.

Lemma has_In k m : has k m = true <-> In k (keys m).
Proof.
  unfold has. induction m as [| [k0 v0] r IH]; simpl.
  - split; [discriminate | tauto].
  - destruct (String.eqb_spec k0 k) as [-> | Hne].
    + split; auto.
    + rewrite IH. split; [auto | intros [? | ?]; [congruence | assumption]].
Qed.

Lemma get_None_not_In k m : get k m = None <-> ~ In k (keys m).
Proof.
  rewrite <- has_In. unfold has. destruct (get k m); split; congruence.
Qed.

Lemma keys_set k v m x : In x (keys (set k v m)) <-> x = k \/ In x (keys m).
Proof.
  induction m as [| [k0 v0] r IH]; simpl.
  - intuition.
  - destruct (String.eqb_spec k0 k) as [-> | Hne]; simpl.
    + intuition.
    + rewrite IH. intuition.
Qed.

Lemma NoDup_keys_set k v m : NoDup (keys m) -> NoDup (keys (set k v m)).
Proof.
  induction m as [| [k0 v0] r IH]; simpl; intros Hnd.
  - constructor; [intros [] | constructor].
  - inversion Hnd as [| ? ? Hnotin Hr]; subst.
    destruct (String.eqb_spec k0 k) as [-> | Hne]; simpl.
    + constructor; assumption.
    + constructor; [| auto].
      change (~ In k0 (keys (set k v r))). rewrite keys_set. intros [? | ?]; congruence.
Qed.

Lemma set_fresh k v m : ~ In k (keys m) -> set k v m = (m ++ [(k, v)])%list.
Proof.
  induction m as [| [k0 v0] r IH]; simpl; intros Hnotin.
  - reflexivity.
  - destruct (String.eqb_spec k0 k) as [-> | Hne].
    + elim Hnotin. now left.
    + f_equal. apply IH. tauto.
Qed.

Lemma length_set_present k v m : In k (keys m) -> length (set k v m) = length m.
Proof.
  induction m as [| [k0 v0] r IH]; simpl.
  - intros [].
  - intros Hin. destruct (String.eqb_spec k0 k) as [-> | Hne]; simpl.
    + reflexivity.
    + f_equal. apply IH. destruct Hin; congruence.
Qed.

Lemma length_set_le k v m : (length (set k v m) <= S (length m))%nat.
Proof.
  induction m as [| [k0 v0] r IH]; simpl.
  - lia.
  - destruct (String.eqb k0 k); simpl; lia.
Qed.

Lemma keys_delete k m x : In x (keys (delete k m)) <-> x <> k /\ In x (keys m).
Proof.
  unfold delete. induction m as [| [k0 v0] r IH]; simpl.
  - tauto.
  - destruct (String.eqb_spec k0 k) as [-> | Hne]; simpl.
    + rewrite IH. intuition congruence.
    + rewrite IH. intuition congruence.
Qed.

Lemma NoDup_keys_delete k m : NoDup (keys m) -> NoDup (keys (delete k m)).
Proof.
  induction m as [| [k0 v0] r IH]; simpl; intros Hnd.
  - constructor.
  - inversion Hnd as [| ? ? Hnotin Hr]; subst.
    destruct (String.eqb_spec k0 k) as [-> | Hne]; simpl.
    + auto.
    + constructor; [| auto].
      change (~ In k0 (keys (delete k r))). rewrite keys_delete. tauto.
Qed.

Lemma delete_absent k m : ~ In k (keys m) -> delete k m = m.
Proof.
  induction m as [| [k0 v0] r IH]; simpl; intros Hnotin.
  - reflexivity.
  - destruct (String.eqb_spec k0 k) as [-> | Hne]; simpl.
    + elim Hnotin. now left.
    + f_equal. apply IH. tauto.
Qed.

Lemma length_delete k m :
  NoDup (keys m) -> In k (keys m) -> S (length (delete k m)) = length m.
Proof.
  induction m as [| [k0 v0] r IH]; simpl; intros Hnd Hin.
  - destruct Hin.
  - inversion Hnd as [| ? ? Hnotin Hr]; subst.
    destruct (String.eqb_spec k0 k) as [-> | Hne]; simpl.
    + now rewrite delete_absent by assumption.
    + f_equal. apply IH; [assumption |]. destruct Hin; congruence.
Qed.

Lemma get_delete k k' m :
  get k' (delete k m) = if String.eqb k k' then None else get k' m.
Proof.
  induction m as [| [k0 v0] r IH]; simpl.
  - now destruct (String.eqb k k').
  - destruct (String.eqb_spec k0 k) as [-> | Hne]; simpl.
    + rewrite IH. destruct (String.eqb_spec k k'); reflexivity.
    + rewrite IH. destruct (String.eqb_spec k0 k') as [-> | Hne'].
      * destruct (String.eqb_spec k k'); [congruence | reflexivity].
      * reflexivity.
Qed.

End WithValues.

End JsMapFacts.

(** ** The result cache *)

Module CacheFacts.

Import CacheManager.

Section Generic.
Context {P : Platform}.
Variable A : Type.
Implicit Types (c : CacheManager.t A).

(** The scan keeps the accumulated key unless a strictly smaller time
    shows up: its result carries a time that is minimal over the
    accumulator and the whole list. *)
Lemma lru_scan_acc (order : list (string * Z)) (k0 : string) (t0 : Z) :
  exists k t,
    lru_scan order (Some k0) (Some t0) = Some k
    /\ ((k, t) = (k0, t0) \/ In (k, t) order)
    /\ t <= t0
    /\ forall k' t', In (k', t') order -> t <= t'.
Proof.
  revert k0 t0. induction order as [| [k1 t1] rest IH]; intros k0 t0; simpl.
  - exists k0, t0. split; [reflexivity |]. split; [now left |]. split; [lia |].
    intros ? ? [].
  - destruct (Z.ltb_spec t1 t0) as [Hlt | Hge].
    + destruct (IH k1 t1) as (k & t & Hscan & Hin & Hle & Hmin).
      exists k, t. split; [assumption |]. split; [| split; [lia |]].
      * right. destruct Hin as [Heq | Hin]; [left; congruence | right; assumption].
      * intros k' t' [Heq | Hin']; [inversion Heq; subst; lia | eauto].
    + destruct (IH k0 t0) as (k & t & Hscan & Hin & Hle & Hmin).
      exists k, t. split; [assumption |]. split; [| split; [lia |]].
      * destruct Hin as [Heq | Hin]; [left; assumption | right; right; assumption].
      * intros k' t' [Heq | Hin']; [inversion Heq; subst; lia | eauto].
Qed.

(** On a non-empty access map the scan of [_evictLRU] finds a key whose
    recorded access time is the smallest of all. *)
Lemma lru_scan_min (order : list (string * Z)) :
  order <> [] ->
  exists k t,
    lru_scan order None None = Some k
    /\ In (k, t) order
    /\ forall k' t', In (k', t') order -> t <= t'.
Proof.
  destruct order as [| [k1 t1] rest]; [congruence | intros _]. simpl.
  destruct (lru_scan_acc rest k1 t1) as (k & t & Hscan & Hin & Hle & Hmin).
  exists k, t. split; [assumption |]. split.
  - destruct Hin as [Heq | Hin]; [left; congruence | right; assumption].
  - intros k' t' [Heq | Hin']; [inversion Heq; subst; lia | eauto].
Qed.

Lemma lru_scan_empty : lru_scan [] None None = None.
Proof. reflexivity. Qed.

Lemma In_keys (V : Type) (k : string) (v : V) (m : JsMap.t V) :
  In (k, v) m -> In k (JsMap.keys m).
Proof. intros H. apply (in_map fst) in H. exact H. Qed.

(** When [_evictLRU] runs on a consistent, non-empty cache whose
    least-recently-used key is not the empty string, exactly that key
    leaves both maps. *)
Lemma _evictLRU_removes_least_recent c :
  consistent c ->
  cache c <> [] ->
  ~ In EmptyString (JsMap.keys (accessOrder c)) ->
  exists lruKey lruTime,
    In (lruKey, lruTime) (accessOrder c)
    /\ (forall k t, In (k, t) (accessOrder c) -> lruTime <= t)
    /\ cache (_evictLRU c) = JsMap.delete lruKey (cache c)
    /\ accessOrder (_evictLRU c) = JsMap.delete lruKey (accessOrder c)
    /\ S (length (cache (_evictLRU c))) = length (cache c)
    /\ maxEntries (_evictLRU c) = maxEntries c.
Proof.
  intros (Hnd & Hnd' & Hsame) Hne Hnoempty.
  assert (Horder : accessOrder c <> []).
  { destruct (cache c) as [| [k0 e0] r] eqn:Hc; [congruence |].
    assert (Hin : In k0 (JsMap.keys (accessOrder c))).
    { apply Hsame. simpl. now left. }
    intros Hnil. rewrite Hnil in Hin. destruct Hin. }
  destruct (lru_scan_min _ Horder) as (k & t & Hscan & Hin & Hmin).
  exists k, t. unfold _evictLRU. rewrite Hscan.
  assert (Hk : In k (JsMap.keys (accessOrder c))) by (eapply In_keys; eassumption).
  destruct (String.eqb_spec k EmptyString) as [-> | Hnonempty]; [contradiction |].
  simpl. repeat split; auto.
  apply JsMapFacts.length_delete; [assumption | now apply Hsame].
Qed.

Lemma consistent_new (maxEntries ttlMs : Z) : consistent (new (A := A) maxEntries ttlMs).
Proof.
  unfold consistent, new; simpl. repeat split; try constructor; auto.
Qed.

Lemma consistent_drop c (key : string) : consistent c -> consistent (drop c key).
Proof.
  intros (Hnd & Hnd' & Hsame). unfold consistent, drop; simpl.
  repeat split; auto using JsMapFacts.NoDup_keys_delete.
  - rewrite !JsMapFacts.keys_delete. intros [? ?]. split; [assumption | now apply Hsame].
  - rewrite !JsMapFacts.keys_delete. intros [? ?]. split; [assumption | now apply Hsame].
Qed.

Lemma consistent__evictLRU c : consistent c -> consistent (_evictLRU c).
Proof.
  intros H. unfold _evictLRU.
  destruct (lru_scan (accessOrder c) None None) as [k |]; [| assumption].
  destruct (String.eqb k EmptyString); [assumption |].
  exact (consistent_drop c k H).
Qed.

Lemma consistent_store c (key : string) (e : Entry A) (time : Z) :
  consistent c ->
  consistent (with_maps c (JsMap.set key e (cache c)) (JsMap.set key time (accessOrder c))).
Proof.
  intros (Hnd & Hnd' & Hsame). unfold consistent; simpl.
  repeat split; auto using JsMapFacts.NoDup_keys_set.
  - rewrite !JsMapFacts.keys_set. intros [? | ?]; [now left | right; now apply Hsame].
  - rewrite !JsMapFacts.keys_set. intros [? | ?]; [now left | right; now apply Hsame].
Qed.

Lemma consistent_set c (url : string) (d : A) (now : Z) :
  consistent c -> consistent (set c url d now).
Proof.
  intros H. unfold set.
  destruct ((JsMap.size (cache c) >=? maxEntries c)
            && negb (JsMap.has (_generateKey url) (cache c)))%bool.
  - apply consistent__evictLRU in H.
    exact (consistent_store _ (_generateKey url) {| data := d; timestamp := now |} now H).
  - exact (consistent_store _ (_generateKey url) {| data := d; timestamp := now |} now H).
Qed.

Lemma consistent_populate (calls : list (string * A * Z)) c :
  consistent c -> consistent (populate c calls).
Proof.
  unfold populate. revert c.
  induction calls as [| call rest IH]; intros c H; simpl; auto using consistent_set.
Qed.

(** [set] on a consistent cache within its capacity stays within it, as
    long as the capacity is at least one and no stored key is the empty
    string. *)
Lemma set_within_capacity c (url : string) (d : A) (now : Z) :
  consistent c ->
  1 <= maxEntries c ->
  ~ In EmptyString (JsMap.keys (accessOrder c)) ->
  JsMap.size (cache c) <= maxEntries c ->
  maxEntries (set c url d now) = maxEntries c
  /\ JsMap.size (cache (set c url d now)) <= maxEntries c.
Proof.
  intros Hc Hmax Hnoempty Hsize. unfold set.
  set (key := _generateKey url).
  destruct (JsMap.size (cache c) >=? maxEntries c) eqn:Hfull;
    destruct (JsMap.has key (cache c)) eqn:Hhas; simpl.
  - (* full, key present *)
    split; [reflexivity |]. unfold JsMap.size in *.
    rewrite JsMapFacts.length_set_present; [assumption |].
    now apply JsMapFacts.has_In.
  - (* full, new key: eviction *)
    assert (Hne : cache c <> []).
    { intros Hnil. rewrite Hnil in Hfull. unfold JsMap.size in Hfull. simpl in Hfull. lia. }
    destruct (_evictLRU_removes_least_recent c Hc Hne Hnoempty)
      as (k & t & _ & _ & _ & _ & Hlen & Hm).
    split; [exact Hm |]. unfold JsMap.size in *.
    pose proof (JsMapFacts.length_set_le _ key {| data := d; timestamp := now |}
                  (cache (_evictLRU c))). lia.
  - split; [reflexivity |]. unfold JsMap.size in *.
    rewrite JsMapFacts.length_set_present; [assumption |].
    now apply JsMapFacts.has_In.
  - split; [reflexivity |]. unfold JsMap.size in *.
    pose proof (JsMapFacts.length_set_le _ key {| data := d; timestamp := now |} (cache c)).
    lia.
Qed.

End Generic.

End CacheFacts.

(** ** The detection engine *)

Module DetectorFacts.

Import Config PhishingDetector.

Lemma rule_score (cond : bool) (w : Z) (msg : string) (a : Analysis) :
  a_score (rule cond w msg a) = a_score a + (if cond then w else 0).
Proof. destruct cond; simpl; lia. Qed.

Lemma rule_threats (cond : bool) (w : Z) (msg : string) (a : Analysis) :
  a_threats (rule cond w msg a) = (a_threats a ++ (if cond then [msg] else []))%list.
Proof. destruct cond; simpl; [reflexivity | now rewrite app_nil_r]. Qed.

Section WithPlatform.
Context {P : Platform}.
Variable cfg : Config.t.

(** The rules that follow the homograph rule add to whatever has been
    accumulated: their own share does not depend on it. *)
Lemma url_rules_after_adds (url : string) (urlObj : URL) (a : Analysis) :
  a_score (url_rules_after cfg url urlObj a)
  = a_score a + a_score (url_rules_after cfg url urlObj empty_analysis)
  /\ a_threats (url_rules_after cfg url urlObj a)
     = (a_threats a ++ a_threats (url_rules_after cfg url urlObj empty_analysis))%list.
Proof.
  unfold url_rules_after.
  destruct (_detectTyposquatting cfg (JsString.toLowerCase (hostname urlObj)))
    as [typoTarget |].
  - rewrite !rule_score, !rule_threats.
    change (a_score empty_analysis) with 0.
    change (a_threats empty_analysis) with (@nil string).
    split; [lia |]. simpl. now rewrite !app_assoc.
  - rewrite !rule_score, !rule_threats.
    change (a_score empty_analysis) with 0.
    change (a_threats empty_analysis) with (@nil string).
    split; [lia |]. simpl. now rewrite !app_assoc.
Qed.

Lemma _analyzeURL_parsed (url : string) (urlObj : URL) :
  new_URL url = Some urlObj ->
  a_score (_analyzeURL cfg url)
  = a_score (url_rules_after cfg url urlObj
               (url_rule_homograph cfg urlObj (url_rules_before cfg url urlObj)))
  /\ a_threats (_analyzeURL cfg url)
     = a_threats (url_rules_after cfg url urlObj
                    (url_rule_homograph cfg urlObj (url_rules_before cfg url urlObj))).
Proof. intros H. unfold _analyzeURL. rewrite H. split; reflexivity. Qed.

Lemma _analyzeURL_malformed (url : string) :
  new_URL url = None -> _analyzeURL cfg url = empty_analysis.
Proof. intros H. unfold _analyzeURL. now rewrite H. Qed.

Lemma _analyzeForms_malformed (doc : Document) (url : string) :
  new_URL url = None -> _analyzeForms cfg doc url = empty_analysis.
Proof. intros H. unfold _analyzeForms. now rewrite H. Qed.

End WithPlatform.

(** The homograph test succeeds as soon as the domain holds one of the
    ASCII characters listed among the lookalikes. *)
Lemma _detectHomographAttack_ascii (domain : string) (c : ascii) :
  In c ["l"; "0"; "1"]%char ->
  In c (JsString.chars domain) ->
  _detectHomographAttack domain = true.
Proof.
  intros Hc Hin. unfold _detectHomographAttack.
  destruct (PUNYCODE_PATTERN_test domain); [reflexivity |].
  pose proof (JsStringFacts.includes_char c domain Hin) as Hinc.
  unfold _homographs.
  cbn [existsb snd].
  destruct Hc as [<- | [<- | [<- | []]]]; rewrite Hinc;
    repeat rewrite ?orb_true_r, ?orb_true_l; reflexivity.
Qed.

End DetectorFacts.

Module Engine.

Import Config PhishingDetector Scenario.

(** C7. Under the default thresholds a score of 80 or more is critical,
    from 60 it is high, from 40 medium, from 20 low, and below 20 safe; the
    boundary scores 20/40/60/80 and 19/39/59/79 fall as stated.  The score
    of a result is the plain sum of the scores of the passes that ran and
    its level is the class of that sum: nothing clamps it, and a URL-only
    analysis can already exceed 100. *)
Theorem risk_level_classification :
  (forall s : Z,
      (80 <= s -> _getRiskLevel CONFIG s = critical)
      /\ (60 <= s < 80 -> _getRiskLevel CONFIG s = high)
      /\ (40 <= s < 60 -> _getRiskLevel CONFIG s = medium)
      /\ (20 <= s < 40 -> _getRiskLevel CONFIG s = low)
      /\ (s < 20 -> _getRiskLevel CONFIG s = safe))
  /\ (_getRiskLevel CONFIG 20 = low /\ _getRiskLevel CONFIG 40 = medium
      /\ _getRiskLevel CONFIG 60 = high /\ _getRiskLevel CONFIG 80 = critical
      /\ _getRiskLevel CONFIG 19 = safe /\ _getRiskLevel CONFIG 39 = low
      /\ _getRiskLevel CONFIG 59 = medium /\ _getRiskLevel CONFIG 79 = high)
  /\ (forall (P : Platform) (cfg : Config.t) (url : string) (doc : option Document) (now : Z),
         score (run_passes cfg url doc now)
         = a_score (_analyzeURL cfg url)
           + match doc with
             | Some doc => a_score (_analyzeContent cfg doc)
                           + a_score (_analyzeForms cfg doc url)
                           + a_score (_analyzeBehavior cfg doc)
             | None => 0
             end
         /\ level (run_passes cfg url doc now)
            = _getRiskLevel cfg (score (run_passes cfg url doc now)))
  /\ (forall now : Z,
         fst (analyze (P := Reference.platform) (new CONFIG)
                      "http://192.168.1.1/login/@http" None now)
         = Some {| score := 130; level := critical;
                   threats := ["Non-HTTPS connection on sensitive page";
                               "Using IP address instead of domain name";
                               homograph_threat;
                               "URL contains @ symbol (possible redirect)";
                               "Embedded URL in path (redirect chain)"];
                   timestamp := now; error := None |}).
Proof.
  split; [| split; [| split]].
  - intros s. unfold _getRiskLevel. cbn [RISK_THRESHOLDS CONFIG CRITICAL HIGH MEDIUM LOW].
    destruct (Z.geb_spec s 80); destruct (Z.geb_spec s 60);
      destruct (Z.geb_spec s 40); destruct (Z.geb_spec s 20);
      repeat split; intros; try reflexivity; lia.
  - repeat split; reflexivity.
  - intros P cfg url doc now. unfold run_passes.
    destruct doc as [doc |]; cbn [score level _mergeAnalysis]; split; try reflexivity; lia.
  - intros now. vm_compute. reflexivity.
Qed.

(** C1.  On a fresh detector with the default configuration and no
    document, the legitimate sign-in URL of Google does not come out safe:
    its host holds the letter l, the homograph rule fires, and the result
    has score 40 and level medium. *)
Theorem google_signin_is_flagged :
  forall now : Z,
    fst (analyze (P := Reference.platform) (new CONFIG)
                 "https://accounts.google.com/signin" None now)
    = Some {| score := 40; level := medium; threats := [homograph_threat];
              timestamp := now; error := None |}.
Proof. intros now. vm_compute. reflexivity. Qed.

(** C2.  The typosquatting detector does not flag arnaz0n.com: against
    amazon the edit distance is 3, the substitution table turns the label
    into arnazons, the keyboard score is 1.5 out of 7 and no character is
    doubled; no other legitimate domain matches either.  The analysis of a
    URL on that host carries the homograph finding only. *)
Theorem arnaz0n_is_not_flagged :
  _detectTyposquatting CONFIG "arnaz0n.com" = None
  /\ typosquats CONFIG "arnaz0n" "amazon.com" = false
  /\ _getLevenshteinDistance "amazon" "arnaz0n" = 3
  /\ fold_left (fun normalized fr => replace_RegExp_g (fst fr) (snd fr) normalized)
               _charSubstitutions "arnaz0n" = "arnazons"
  /\ matchScore_halves (JsString.chars "arnaz0n") (JsString.chars "amazon") = 3
  /\ DEDUPLICATION_replace "arnaz0n" = "arnaz0n"
  /\ forall now : Z,
       fst (analyze (P := Reference.platform) (new CONFIG) "http://arnaz0n.com/" None now)
       = Some {| score := 40; level := medium; threats := [homograph_threat];
                 timestamp := now; error := None |}.
Proof. repeat split; try (intros now); vm_compute; reflexivity. Qed.

(** Counterexample to C3.  A malformed URL analysed together with a
    document is not given the safe zero result: the behaviour pass still
    scores the page. *)
Lemma malformed_url_with_document_scores :
  new_URL (Platform := Reference.platform) "not a url" = None
  /\ fst (analyze (P := Reference.platform) (new CONFIG) "not a url"
                  (Some auto_submit_page) 0)
     = Some {| score := 20; level := low;
               threats := ["Auto-submitting form detected"];
               timestamp := 0; error := None |}.
Proof. split; vm_compute; reflexivity. Qed.

(** C3, in the form the code satisfies.  For a malformed URL that the cache does not hold, the
    URL pass and the form pass contribute no score and no threat.  Without
    a document the result has score 0, no threats and, the thresholds being
    positive, level safe; with a document its score and threats are those
    of the content pass followed by the behaviour pass. *)
Theorem malformed_url_passes :
  forall (P : Platform) (d : PhishingDetector.t) (url : string)
         (doc : option Document) (now : Z),
    url <> EmptyString ->
    new_URL url = None ->
    (forall c, cache d = Some c -> fst (CacheManager.has c url now) = false) ->
    exists r,
      fst (analyze d url doc now) = Some r
      /\ a_score (_analyzeURL (config d) url) = 0
      /\ a_threats (_analyzeURL (config d) url) = []
      /\ score r = match doc with
                   | Some doc => a_score (_analyzeContent (config d) doc)
                                 + a_score (_analyzeBehavior (config d) doc)
                   | None => 0
                   end
      /\ threats r = match doc with
                     | Some doc => (a_threats (_analyzeContent (config d) doc)
                                    ++ a_threats (_analyzeBehavior (config d) doc))%list
                     | None => []
                     end
      /\ level r = _getRiskLevel (config d) (score r)
      /\ (doc = None -> positive_thresholds (config d) ->
          score r = 0 /\ level r = safe /\ threats r = []).
Proof.
  intros P d url doc now Hne Hbad Hmiss.
  exists (run_passes (config d) url doc now).
  assert (Hrun : fst (analyze d url doc now) = Some (run_passes (config d) url doc now)).
  { unfold analyze.
    destruct (String.eqb_spec url EmptyString) as [-> | _]; [congruence |].
    destruct (cache d) as [c |] eqn:Hc; [| reflexivity].
    specialize (Hmiss c eq_refl).
    destruct (CacheManager.has c url now) as [hit c1]. simpl in Hmiss. subst hit.
    reflexivity. }
  split; [exact Hrun |].
  rewrite (DetectorFacts._analyzeURL_malformed (config d) url Hbad).
  split; [reflexivity |]. split; [reflexivity |].
  unfold run_passes.
  rewrite (DetectorFacts._analyzeURL_malformed (config d) url Hbad).
  destruct doc as [doc |].
  - rewrite (DetectorFacts._analyzeForms_malformed (config d) doc url Hbad).
    cbn [score level threats _mergeAnalysis empty_analysis a_score a_threats].
    split; [lia |]. split; [now rewrite app_nil_r |]. split; [reflexivity |].
    discriminate.
  - cbn [score level threats _mergeAnalysis empty_analysis a_score a_threats].
    split; [reflexivity |]. split; [reflexivity |]. split; [reflexivity |].
    intros _ (Hl & Hm & Hh & Hcr). split; [reflexivity |]. split; [| reflexivity].
    unfold _getRiskLevel.
    destruct (Z.geb_spec (0 + 0) (CRITICAL (RISK_THRESHOLDS (config d)))); [lia |].
    destruct (Z.geb_spec (0 + 0) (HIGH (RISK_THRESHOLDS (config d)))); [lia |].
    destruct (Z.geb_spec (0 + 0) (MEDIUM (RISK_THRESHOLDS (config d)))); [lia |].
    destruct (Z.geb_spec (0 + 0) (LOW (RISK_THRESHOLDS (config d)))); [lia |].
    reflexivity.
Qed.

Lemma malformed_url_passes_witness :
  exists r,
    fst (analyze (P := Reference.platform) (new CONFIG) "not a url" None 0) = Some r
    /\ score r = 0 /\ level r = safe /\ threats r = [].
Proof.
  destruct (@malformed_url_passes Reference.platform (new CONFIG) "not a url" None 0)
    as (r & Hr & _ & _ & _ & _ & _ & Hsafe).
  - discriminate.
  - reflexivity.
  - intros c Hc. injection Hc as <-. reflexivity.
  - exists r. split; [exact Hr |].
    apply Hsafe; [reflexivity |].
    unfold positive_thresholds. simpl. lia.
Defined.

(** C9.  Every domain string that holds the ASCII character l, 0 or 1 makes
    the homograph detector answer true; when such a string is the host of
    the analysed URL, the URL pass adds the HOMOGRAPH_ATTACK weight to the
    score and the homograph threat to the threats, between what the
    earlier and the later rules contribute. *)
Theorem homograph_rule_fires_on_ascii_lookalikes :
  forall (P : Platform) (cfg : Config.t) (domain : string) (c : ascii),
    In c ["l"; "0"; "1"]%char ->
    In c (JsString.chars domain) ->
    _detectHomographAttack domain = true
    /\ forall (url : string) (urlObj : URL),
         new_URL url = Some urlObj ->
         hostname urlObj = domain ->
         a_score (_analyzeURL cfg url)
         = a_score (url_rules_before cfg url urlObj)
           + HOMOGRAPH_ATTACK (SCORE_WEIGHTS cfg)
           + a_score (url_rules_after cfg url urlObj empty_analysis)
         /\ a_threats (_analyzeURL cfg url)
            = (a_threats (url_rules_before cfg url urlObj)
               ++ [homograph_threat]
               ++ a_threats (url_rules_after cfg url urlObj empty_analysis))%list.
Proof.
  intros P cfg domain c Hc Hin.
  split; [exact (DetectorFacts._detectHomographAttack_ascii domain c Hc Hin) |].
  intros url urlObj Hurl Hhost. subst domain.
  assert (Hlow : In c (JsString.chars (JsString.toLowerCase (hostname urlObj)))).
  { apply JsStringFacts.toLowerCase_keeps; [| assumption].
    destruct Hc as [<- | [<- | [<- | []]]]; [right | left | left]; vm_compute; lia. }
  pose proof (DetectorFacts._detectHomographAttack_ascii _ c Hc Hlow) as Hfire.
  destruct (DetectorFacts._analyzeURL_parsed cfg url urlObj Hurl) as [Hs Ht].
  destruct (DetectorFacts.url_rules_after_adds cfg url urlObj
              (url_rule_homograph cfg urlObj (url_rules_before cfg url urlObj)))
    as [Hs' Ht'].
  rewrite Hs, Ht, Hs', Ht'.
  unfold url_rule_homograph.
  rewrite DetectorFacts.rule_score, DetectorFacts.rule_threats, Hfire.
  split; [reflexivity |]. now rewrite <- app_assoc.
Qed.

Lemma homograph_rule_fires_on_ascii_lookalikes_witness :
  _detectHomographAttack "google.com" = true
  /\ _detectHomographAttack "paypal.com" = true
  /\ a_threats (_analyzeURL (P := Reference.platform) CONFIG "https://google.com/")
     = [homograph_threat]
  /\ a_score (_analyzeURL (P := Reference.platform) CONFIG "https://google.com/") = 40.
Proof.
  destruct (@homograph_rule_fires_on_ascii_lookalikes
              Reference.platform CONFIG "google.com" "l"%char)
    as [Hgoogle Hpass].
  - simpl. tauto.
  - simpl. tauto.
  - destruct (@homograph_rule_fires_on_ascii_lookalikes
                Reference.platform CONFIG "paypal.com" "l"%char)
      as [Hpaypal _].
    + simpl. tauto.
    + simpl. tauto.
    + destruct (Hpass "https://google.com/"
                  {| protocol := "https:"; hostname := "google.com"; pathname := "/";
                     toString_without_hash := "https://google.com/" |})
        as [Hscore Hthreats].
      * reflexivity.
      * reflexivity.
      * split; [exact Hgoogle |]. split; [exact Hpaypal |].
        split; [rewrite Hthreats | rewrite Hscore]; vm_compute; reflexivity.
Defined.

End Engine.

(** ** Export and import *)

Module ImportFacts.

Import CacheManager.

Lemma find_append (E : Type) (p : E -> bool) (l1 l2 : list E) :
  find p (l1 ++ l2)
  = match find p l1 with
    | Some x => Some x
    | None => find p l2
    end.
Proof.
  induction l1 as [| a l1 IH]; simpl; [reflexivity |].
  destruct (p a); [reflexivity | exact IH].
Qed.

(** Filling a map by successive [set]s: a lookup finds the last binding
    of the key in the list, or what the map held before. *)
Lemma get_fold_set (E V : Type) (kf : E -> string) (vf : E -> V)
      (l : list E) (m0 : JsMap.t V) (k : string) :
  JsMap.get k (fold_left (fun m e => JsMap.set (kf e) (vf e) m) l m0)
  = match find (fun e => String.eqb (kf e) k) (rev l) with
    | Some e => Some (vf e)
    | None => JsMap.get k m0
    end.
Proof.
  revert m0. induction l as [| a l IH]; intros m0; simpl.
  - reflexivity.
  - rewrite IH, find_append.
    destruct (find (fun e => String.eqb (kf e) k) (rev l)); [reflexivity |].
    simpl. rewrite JsMapFacts.get_set.
    destruct (String.eqb (kf a) k); reflexivity.
Qed.

(** With pairwise distinct fresh keys the [set]s append in order. *)
Lemma fold_set_distinct (E V : Type) (kf : E -> string) (vf : E -> V)
      (l : list E) (m0 : JsMap.t V) :
  NoDup (JsMap.keys m0 ++ map kf l) ->
  fold_left (fun m e => JsMap.set (kf e) (vf e) m) l m0
  = (m0 ++ map (fun e => (kf e, vf e)) l)%list.
Proof.
  revert m0. induction l as [| a l IH]; intros m0 Hnd; simpl.
  - now rewrite app_nil_r.
  - assert (Hfresh : ~ In (kf a) (JsMap.keys m0)).
    { apply NoDup_remove_2 in Hnd. intros Hin. apply Hnd. apply in_or_app. now left. }
    rewrite (JsMapFacts.set_fresh _ _ (vf a) _ Hfresh).
    rewrite IH.
    + now rewrite <- app_assoc.
    + unfold JsMap.keys in *. rewrite map_app. simpl. now rewrite <- app_assoc.
Qed.

Section WithPlatform.
Context {P : Platform}.

Lemma store_fields (c : t jsval) (e : Snapshot.entry) :
  maxEntries (Snapshot.store c e) = maxEntries c
  /\ ttlMs (Snapshot.store c e) = ttlMs c
  /\ stats (Snapshot.store c e) = stats c.
Proof. repeat split. Qed.

Lemma fold_store_fields (l : list Snapshot.entry) (c : t jsval) :
  maxEntries (fold_left Snapshot.store l c) = maxEntries c
  /\ ttlMs (fold_left Snapshot.store l c) = ttlMs c
  /\ stats (fold_left Snapshot.store l c) = stats c
  /\ cache (fold_left Snapshot.store l c)
     = fold_left (fun m e => JsMap.set (Snapshot.key e) (snd (Snapshot.stored e)) m)
                 l (cache c)
  /\ accessOrder (fold_left Snapshot.store l c)
     = fold_left (fun m e => JsMap.set (Snapshot.key e) (Snapshot.timestamp e) m)
                 l (accessOrder c).
Proof.
  revert c. induction l as [| e l IH]; intros c; simpl.
  - repeat split.
  - destruct (IH (Snapshot.store c e)) as (H1 & H2 & H3 & H4 & H5).
    rewrite H1, H2, H3, H4, H5. repeat split.
Qed.

(** One well-formed entry: stored when live, skipped when expired. *)
Lemma import_entry_read (c : t jsval) (now : Z) (v : jsval) (e : Snapshot.entry) :
  Snapshot.read_entry v = Some e ->
  import_entry c now v
  = Normal (if now - Snapshot.timestamp e <=? ttlMs c then Snapshot.store c e else c).
Proof.
  unfold Snapshot.read_entry, import_entry.
  destruct v as [| | | | | | fields]; try discriminate.
  destruct (Js.obj_get fields "key") as [[| | | | k | |] |]; try discriminate.
  destruct (Js.obj_get fields "data") as [d |]; try discriminate.
  destruct (Js.obj_get fields "timestamp") as [[| | | ts | | |] |]; try discriminate.
  intros [= <-]. simpl.
  destruct (now - ts <=? ttlMs c); reflexivity.
Qed.

Lemma import_entries_read (items : list jsval) (entries : list Snapshot.entry)
      (c : t jsval) (now : Z) :
  Snapshot.read_entries items = Some entries ->
  import_entries c now items
  = Normal (fold_left Snapshot.store (Snapshot.live (ttlMs c) now entries) c).
Proof.
  revert entries c. induction items as [| v items IH]; intros entries c; simpl.
  - intros [= <-]. reflexivity.
  - destruct (Snapshot.read_entry v) as [e |] eqn:He; [| discriminate].
    destruct (Snapshot.read_entries items) as [es |] eqn:Hes; [| discriminate].
    intros [= <-].
    rewrite (import_entry_read c now v e He). simpl.
    destruct (now - Snapshot.timestamp e <=? ttlMs c) eqn:Hlive.
    + rewrite (IH es (Snapshot.store c e) eq_refl). reflexivity.
    + apply (IH es c eq_refl).
Qed.

Lemma merge_stats_read (s st : Stats) (fields : list (string * jsval)) (sv : jsval) :
  Js.obj_get fields "stats" = Some sv ->
  Snapshot.read_stats sv = Some st ->
  merge_stats s (JObj fields) = Some st.
Proof.
  intros Hsv. unfold Snapshot.read_stats, merge_stats. rewrite Hsv.
  destruct sv as [| | | | | | sf]; try discriminate. simpl.
  destruct (forallb is_counter (map fst sf)); [| discriminate].
  unfold counter.
  destruct (Js.obj_get sf "hits") as [[| | | h | | |] |]; try discriminate.
  destruct (Js.obj_get sf "misses") as [[| | | m | | |] |]; try discriminate.
  destruct (Js.obj_get sf "evictions") as [[| | | e | | |] |]; try discriminate.
  destruct (Js.obj_get sf "sets") as [[| | | n | | |] |]; try discriminate.
  intros [= <-]. reflexivity.
Qed.

(** [import] of a well-formed snapshot: the live entries are stored, in
    order, into the cleared cache, and the counters become the snapshot's. *)
Lemma import_well_formed (c : t jsval) (s : string) (snap : jsval)
      (entries : list Snapshot.entry) (st : Stats) (now : Z) :
  JSON_parse s = Some snap ->
  Snapshot.read snap = Some (entries, st) ->
  import c s now
  = Some (true,
          with_stats (fold_left Snapshot.store
                                (Snapshot.live (ttlMs c) now entries) (clear c))
                     st).
Proof.
  intros Hparse Hread. unfold import. rewrite Hparse.
  unfold Snapshot.read in Hread.
  destruct snap as [| | | | | | fields]; try discriminate.
  destruct (Js.obj_get fields "entries") as [[| | | | | items |] |] eqn:Hitems;
    try discriminate.
  destruct (Js.obj_get fields "stats") as [sv |] eqn:Hsv; try discriminate.
  destruct (Snapshot.read_entries items) as [es |] eqn:Hes; try discriminate.
  destruct (Snapshot.read_stats sv) as [st' |] eqn:Hst; try discriminate.
  injection Hread as <- <-.
  unfold import_data_entries. rewrite Hitems. simpl Js.truthy. cbv iota.
  rewrite (import_entries_read items es (clear c) now Hes).
  change (ttlMs (clear c)) with (ttlMs c).
  rewrite (merge_stats_read _ st' fields sv Hsv Hst).
  reflexivity.
Qed.

(** A well-formed snapshot whose live keys are pairwise distinct leaves
    exactly its live entries in the cache, in snapshot order. *)
Lemma import_distinct (c : t jsval) (s : string) (snap : jsval)
      (entries : list Snapshot.entry) (st : Stats) (now : Z) :
  JSON_parse s = Some snap ->
  Snapshot.read snap = Some (entries, st) ->
  NoDup (map Snapshot.key (Snapshot.live (ttlMs c) now entries)) ->
  exists c',
    import c s now = Some (true, c')
    /\ cache c' = map Snapshot.stored (Snapshot.live (ttlMs c) now entries)
    /\ maxEntries c' = maxEntries c
    /\ ttlMs c' = ttlMs c.
Proof.
  intros Hparse Hread Hnd.
  rewrite (import_well_formed c s snap entries st now Hparse Hread).
  eexists. split; [reflexivity |].
  destruct (fold_store_fields (Snapshot.live (ttlMs c) now entries) (clear c))
    as (Hmax & Httl & _ & Hcache & _).
  cbn [cache maxEntries ttlMs with_stats].
  rewrite Hcache, Hmax, Httl. repeat split.
  change (cache (clear c)) with (@nil (string * Entry jsval)).
  rewrite fold_set_distinct; [reflexivity | exact Hnd].
Qed.

(** [read] recognises what [export] writes. *)
Lemma read_export_value (c : t jsval) (now : Z) :
  Snapshot.read (export_value c now)
  = Some (map Snapshot.of_stored (cache c), stats c).
Proof.
  unfold export_value, Snapshot.read.
  change (Js.obj_get _ "entries") with (Some (JArr (map export_entry (cache c)))).
  change (Js.obj_get _ "stats") with (Some (export_stats (stats c))).
  assert (He : Snapshot.read_entries (map export_entry (cache c))
               = Some (map Snapshot.of_stored (cache c))).
  { induction (cache c) as [| [k e] r IH]; simpl; [reflexivity |].
    change (Snapshot.read_entry (export_entry (k, e)))
      with (Some (Snapshot.of_stored (k, e))).
    simpl in IH. rewrite IH. reflexivity. }
  cbv beta iota. rewrite He.
  destruct (stats c) as [h m e n]. reflexivity.
Qed.

End WithPlatform.

End ImportFacts.

Module Cache.

Import CacheManager Scenario.

(** Counterexample to C4.  The counters of a snapshot are not added to
    the counters the cache had: a cache that has counted one set imports a
    snapshot that says five sets and then says five, not six. *)
Lemma import_overwrites_stats :
  sets (stats used_cache) = 1
  /\ option_map (fun r => (fst r, sets (stats (snd r))))
                (import (P := RP) used_cache five_sets_snapshot 6)
     = Some (true, 5).
Proof. split; vm_compute; reflexivity. Qed.

(** C4, in the form the code satisfies.  For every well-formed snapshot, [import] returns true
    and replaces the cache contents with the snapshot's non-expired entries:
    a lookup finds the last live entry with that key, and when the live
    keys are pairwise distinct the cache holds exactly the live entries in
    snapshot order.  Each statistics counter is set to the snapshot's value,
    whatever it was before; capacity and TTL are unchanged. *)
Theorem import_replaces_contents_and_stats :
  forall (P : Platform) (c : CacheManager.t jsval) (s : string) (snap : jsval)
         (entries : list Snapshot.entry) (st : Stats) (now : Z),
    JSON_parse s = Some snap ->
    Snapshot.read snap = Some (entries, st) ->
    exists c',
      import c s now = Some (true, c')
      /\ (forall k, JsMap.get k (cache c')
                    = Snapshot.last_with_key k (Snapshot.live (ttlMs c) now entries))
      /\ (NoDup (map Snapshot.key (Snapshot.live (ttlMs c) now entries)) ->
          cache c' = map Snapshot.stored (Snapshot.live (ttlMs c) now entries))
      /\ stats c' = st
      /\ maxEntries c' = maxEntries c
      /\ ttlMs c' = ttlMs c.
Proof.
  intros P c s snap entries st now Hparse Hread.
  rewrite (ImportFacts.import_well_formed c s snap entries st now Hparse Hread).
  eexists. split; [reflexivity |].
  destruct (ImportFacts.fold_store_fields (Snapshot.live (ttlMs c) now entries) (clear c))
    as (Hmax & Httl & _ & Hcache & _).
  cbn [cache stats maxEntries ttlMs with_stats].
  rewrite Hcache, Hmax, Httl. change (cache (clear c)) with (@nil (string * Entry jsval)).
  split; [| split; [| repeat split]].
  - intros k. rewrite ImportFacts.get_fold_set. unfold Snapshot.last_with_key.
    destruct (find (fun e => String.eqb (Snapshot.key e) k)
                   (rev (Snapshot.live (ttlMs c) now entries))); reflexivity.
  - intros Hnd. rewrite ImportFacts.fold_set_distinct; [reflexivity | exact Hnd].
Qed.

Lemma import_replaces_contents_and_stats_witness :
  exists c',
    import (P := RP) used_cache two_entries_snapshot 8 = Some (true, c')
    /\ JsMap.keys (cache c') = ["https://b.example/"; "https://c.example/"]
    /\ stats c' = {| hits := 0; misses := 0; evictions := 0; sets := 2 |}.
Proof.
  destruct (@import_replaces_contents_and_stats RP used_cache two_entries_snapshot
              (JObj [("entries",
                      JArr [JObj [("key", JStr "https://b.example/");
                                  ("data", JStr "second"); ("timestamp", JNum 6)];
                            JObj [("key", JStr "https://c.example/");
                                  ("data", JStr "third"); ("timestamp", JNum 7)]]);
                     ("stats", JObj [("hits", JNum 0); ("misses", JNum 0);
                                     ("evictions", JNum 0); ("sets", JNum 2)])])
              [ {| Snapshot.key := "https://b.example/"; Snapshot.data := JStr "second";
                   Snapshot.timestamp := 6 |};
                {| Snapshot.key := "https://c.example/"; Snapshot.data := JStr "third";
                   Snapshot.timestamp := 7 |} ]
              {| hits := 0; misses := 0; evictions := 0; sets := 2 |}
              8)
    as (c' & Himport & _ & Hexact & Hstats & _).
  - vm_compute. reflexivity.
  - vm_compute. reflexivity.
  - exists c'. split; [exact Himport |]. split; [| exact Hstats].
    rewrite Hexact; [reflexivity |].
    vm_compute. repeat constructor; simpl; intuition discriminate.
Defined.

(** Counterexample to C5.  A snapshot that parses but has the wrong
    shape makes [import] return false after the cache has been cleared:
    the text null empties a cache that held an entry, and a snapshot whose
    second entry is null leaves the first entry imported. *)
Lemma failed_import_clears_cache :
  JsMap.keys (cache used_cache) = ["https://a.example/"]
  /\ sets (stats used_cache) = 1
  /\ option_map (fun r => (fst r, JsMap.keys (cache (snd r)), stats (snd r)))
                (import (P := RP) used_cache "null" 6)
     = Some (false, [], zero_stats)
  /\ option_map (fun r => (fst r, JsMap.keys (cache (snd r)), stats (snd r)))
                (import (P := RP) used_cache broken_snapshot 6)
     = Some (false, ["https://b.example/"], zero_stats).
Proof. repeat split; vm_compute; reflexivity. Qed.

(** C5, in the form the code satisfies.  For every snapshot string that is not valid JSON,
    [import] returns false and the cache is exactly as before: every entry,
    every access time and every counter. *)
Theorem unparsable_snapshot_leaves_cache_untouched :
  forall (P : Platform) (c : CacheManager.t jsval) (s : string) (now : Z),
    JSON_parse s = None ->
    import c s now = Some (false, c).
Proof.
  intros P c s now Hparse. unfold import. rewrite Hparse. reflexivity.
Qed.

Lemma unparsable_snapshot_leaves_cache_untouched_witness :
  import (P := RP) used_cache "{not json" 6 = Some (false, used_cache).
Proof.
  apply (@unparsable_snapshot_leaves_cache_untouched RP used_cache "{not json" 6).
  vm_compute. reflexivity.
Defined.

(** On a consistent cache that is full, a [set] of a new key removes the
    key with the smallest recorded access time before it stores the new
    entry, provided no stored key is the empty string. *)
Lemma set_evicts_least_recent (P : Platform) (A : Type) (c : CacheManager.t A)
      (url : string) (d : A) (now : Z) :
  consistent c ->
  cache c <> [] ->
  ~ In EmptyString (JsMap.keys (accessOrder c)) ->
  JsMap.size (cache c) >= maxEntries c ->
  JsMap.has (_generateKey url) (cache c) = false ->
  exists lruKey lruTime,
    In (lruKey, lruTime) (accessOrder c)
    /\ (forall k t, In (k, t) (accessOrder c) -> lruTime <= t)
    /\ cache (set c url d now)
       = JsMap.set (_generateKey url) {| data := d; timestamp := now |}
                   (JsMap.delete lruKey (cache c)).
Proof.
  intros Hc Hne Hnoempty Hfull Hnew.
  destruct (CacheFacts._evictLRU_removes_least_recent A c Hc Hne Hnoempty)
    as (k & t & Hin & Hmin & Hcache & _).
  exists k, t. split; [exact Hin |]. split; [exact Hmin |].
  unfold set. rewrite Hnew.
  destruct (Z.geb_spec (JsMap.size (cache c)) (maxEntries c)); [| lia].
  simpl. now rewrite Hcache.
Qed.

(** C6.  A full cache whose least-recently-used key is the empty string
    evicts nothing when a new key is set: both keys are held afterwards and
    the eviction counter stays at zero.  With ordinary keys the refreshed
    key survives and the less recently used one goes. *)
Theorem empty_key_survives_eviction :
  maxEntries empty_key_cache = 1
  /\ accessOrder empty_key_cache = [(EmptyString, 5)]
  /\ JsMap.keys (cache (set (P := RP) empty_key_cache "https://b.example/" (JStr "second") 6))
     = [EmptyString; "https://b.example/"]
  /\ evictions (stats (set (P := RP) empty_key_cache "https://b.example/" (JStr "second") 6))
     = 0
  /\ accessOrder refreshed_cache = [("https://a.example/", 3); ("https://b.example/", 2)]
  /\ JsMap.keys (cache (set (P := RP) refreshed_cache "https://c.example/" (JStr "third") 4))
     = ["https://a.example/"; "https://c.example/"].
Proof. repeat split; vm_compute; reflexivity. Qed.

Lemma get_same_maps (P : Platform) (A : Type) (c c' : CacheManager.t A)
      (url : string) (now : Z) :
  cache c' = cache c -> ttlMs c' = ttlMs c ->
  fst (get c' url now) = fst (get c url now).
Proof.
  intros Hcache Httl. unfold get. rewrite Hcache.
  destruct (JsMap.get (_generateKey url) (cache c)) as [entry |]; [| reflexivity].
  unfold _isExpired. rewrite Httl.
  destruct (now - timestamp entry >? ttlMs c); reflexivity.
Qed.

Lemma get_live (P : Platform) (A : Type) (c : CacheManager.t A) (url : string) (now : Z) :
  Forall (fun kv => now - timestamp (snd kv) <= ttlMs c) (cache c) ->
  fst (get c url now) = option_map (@data A) (JsMap.get (_generateKey url) (cache c)).
Proof.
  intros Hlive. unfold get.
  destruct (JsMap.get (_generateKey url) (cache c)) as [entry |] eqn:Hget; [| reflexivity].
  assert (Hentry : now - timestamp entry <= ttlMs c).
  { clear - Hlive Hget. induction (cache c) as [| [k e] r IH]; simpl in Hget.
    - discriminate.
    - inversion Hlive as [| ? ? Hhead Htail]; subst.
      destruct (String.eqb k (_generateKey url)).
      + injection Hget as <-. exact Hhead.
      + auto. }
  unfold _isExpired.
  destruct (Z.gtb_spec (now - timestamp entry) (ttlMs c)); [lia | reflexivity].
Qed.

Lemma stored_of_stored (l : JsMap.t (Entry jsval)) :
  map Snapshot.stored (map Snapshot.of_stored l) = l.
Proof.
  induction l as [| [k [d ts]] r IH]; simpl; [reflexivity |].
  now rewrite IH.
Qed.

Lemma live_all (ttl now : Z) (l : JsMap.t (Entry jsval)) :
  Forall (fun kv => now - timestamp (snd kv) <= ttl) l ->
  Snapshot.live ttl now (map Snapshot.of_stored l) = map Snapshot.of_stored l.
Proof.
  unfold Snapshot.live.
  induction 1 as [| [k e] r Hhead Htail IH]; [reflexivity |].
  cbn [map filter Snapshot.of_stored Snapshot.timestamp snd].
  simpl in Hhead. destruct (Z.leb_spec (now - timestamp e) ttl); [| lia].
  f_equal. exact IH.
Qed.

(** C8.  A cache populated by [set] calls, all of whose entries are still
    within the TTL, comes back from [import(export())] with the same entry
    map: [get] returns the same value for every URL, namely the stored
    assessment for a key that is held and nothing for any other.  The
    platform is assumed to parse the exported text back to the exported
    object. *)
Theorem import_export_round_trip :
  forall (P : Platform) (c : CacheManager.t jsval) (maxEntries ttlMs : Z)
         (calls : list (string * jsval * Z)) (exportedAt now : Z),
    c = populate (CacheManager.new maxEntries ttlMs) calls ->
    Forall (fun kv => now - timestamp (snd kv) <= CacheManager.ttlMs c) (cache c) ->
    JSON_parse (export c exportedAt) = Some (export_value c exportedAt) ->
    exists c',
      import c (export c exportedAt) now = Some (true, c')
      /\ cache c' = cache c
      /\ (forall url now', fst (get c' url now') = fst (get c url now'))
      /\ (forall url, fst (get c' url now)
                      = option_map (@data jsval) (JsMap.get (_generateKey url) (cache c))).
Proof.
  intros P c maxE ttl calls exportedAt now Hc Hlive Hparse.
  assert (Hcons : consistent c).
  { subst c. apply CacheFacts.consistent_populate, CacheFacts.consistent_new. }
  assert (Hnd : NoDup (map Snapshot.key
                           (Snapshot.live (CacheManager.ttlMs c) now
                                          (map Snapshot.of_stored (cache c))))).
  { rewrite (live_all _ _ _ Hlive), map_map. simpl. exact (proj1 Hcons). }
  destruct (ImportFacts.import_distinct c (export c exportedAt)
              (export_value c exportedAt) (map Snapshot.of_stored (cache c)) (stats c) now
              Hparse (ImportFacts.read_export_value c exportedAt) Hnd)
    as (c' & Himport & Hexact & _ & Httl).
  rewrite (live_all _ _ _ Hlive) in Hexact.
  assert (Hcache : cache c' = cache c).
  { rewrite Hexact. apply stored_of_stored. }
  exists c'. split; [exact Himport |]. split; [exact Hcache |]. split.
  - intros url now'. now apply get_same_maps.
  - intros url. rewrite (get_same_maps P jsval c c' url now Hcache Httl).
    now apply get_live.
Qed.

Lemma import_export_round_trip_witness :
  exists c',
    import (P := RP) populated_cache (export (P := RP) populated_cache 7) 8 = Some (true, c')
    /\ fst (get (P := RP) c' "https://a.example/#top" 9) = Some (JStr "first")
    /\ fst (get (P := RP) c' "https://b.example/" 9) = Some (JStr "second")
    /\ fst (get (P := RP) c' "https://c.example/" 9) = None.
Proof.
  destruct (@import_export_round_trip RP populated_cache 2 1000
              [("https://a.example/", JStr "first", 1);
               ("https://b.example/", JStr "second", 2)]
              7 8)
    as (c' & Himport & Hcache & Hget & _).
  - reflexivity.
  - vm_compute. repeat constructor; discriminate.
  - vm_compute. reflexivity.
  - exists c'. split; [exact Himport |].
    rewrite !Hget. repeat split; vm_compute; reflexivity.
Defined.

(** C10.  [import] does not enforce the capacity: into any cache, a
    well-formed snapshot with more live, distinct entries than [maxEntries]
    is imported whole, [import] returns true and the cache is left strictly
    above its capacity.  A [set] does not always keep the capacity either: a
    cache of capacity one that is within its bound, and whose only key is
    the empty string, holds two entries after a new key is set. *)
Theorem import_ignores_capacity_set_overflows :
  (forall (P : Platform) (c : CacheManager.t jsval) (s : string) (snap : jsval)
          (entries : list Snapshot.entry) (st : Stats) (now : Z),
      JSON_parse s = Some snap ->
      Snapshot.read snap = Some (entries, st) ->
      NoDup (map Snapshot.key entries) ->
      Snapshot.live (ttlMs c) now entries = entries ->
      maxEntries c < Z.of_nat (length entries) ->
      exists c',
        import c s now = Some (true, c')
        /\ cache c' = map Snapshot.stored entries
        /\ maxEntries c' = maxEntries c
        /\ JsMap.size (cache c') > maxEntries c')
  /\ maxEntries empty_key_cache = 1
  /\ JsMap.size (cache empty_key_cache) = 1
  /\ maxEntries (set (P := RP) empty_key_cache "https://b.example/" (JStr "second") 6) = 1
  /\ JsMap.size (cache (set (P := RP) empty_key_cache "https://b.example/" (JStr "second") 6))
     = 2.
Proof.
  split; [| repeat split; vm_compute; reflexivity].
  intros P c s snap entries st now Hparse Hread Hnd Hlive Hmany.
  assert (Hnd' : NoDup (map Snapshot.key (Snapshot.live (ttlMs c) now entries)))
    by (rewrite Hlive; exact Hnd).
  destruct (ImportFacts.import_distinct c s snap entries st now Hparse Hread Hnd')
    as (c' & Himport & Hexact & Hmax' & _).
  rewrite Hlive in Hexact.
  exists c'. split; [exact Himport |]. split; [exact Hexact |]. split; [exact Hmax' |].
  rewrite Hmax', Hexact. unfold JsMap.size. rewrite length_map. lia.
Qed.

Lemma import_ignores_capacity_set_overflows_witness :
  (exists c',
      import (P := RP) full_cache two_entries_snapshot 8 = Some (true, c')
      /\ JsMap.size (cache c') > maxEntries c')
  /\ (exists c',
         import (P := RP) empty_key_cache two_entries_snapshot 8 = Some (true, c')
         /\ JsMap.size (cache c') > maxEntries c').
Proof.
  pose proof (proj1 import_ignores_capacity_set_overflows) as Himport.
  split.
  - destruct (Himport RP full_cache two_entries_snapshot
                (JObj [("entries",
                        JArr [JObj [("key", JStr "https://b.example/");
                                    ("data", JStr "second"); ("timestamp", JNum 6)];
                              JObj [("key", JStr "https://c.example/");
                                    ("data", JStr "third"); ("timestamp", JNum 7)]]);
                       ("stats", JObj [("hits", JNum 0); ("misses", JNum 0);
                                       ("evictions", JNum 0); ("sets", JNum 2)])])
                [ {| Snapshot.key := "https://b.example/"; Snapshot.data := JStr "second";
                     Snapshot.timestamp := 6 |};
                  {| Snapshot.key := "https://c.example/"; Snapshot.data := JStr "third";
                     Snapshot.timestamp := 7 |} ]
                {| hits := 0; misses := 0; evictions := 0; sets := 2 |} 8)
      as (c' & Hc' & _ & _ & Hover).
    + vm_compute. reflexivity.
    + vm_compute. reflexivity.
    + vm_compute. repeat constructor; simpl; intuition discriminate.
    + vm_compute. reflexivity.
    + vm_compute. reflexivity.
    + exists c'. split; [exact Hc' | exact Hover].
  - destruct (Himport RP empty_key_cache two_entries_snapshot
                (JObj [("entries",
                        JArr [JObj [("key", JStr "https://b.example/");
                                    ("data", JStr "second"); ("timestamp", JNum 6)];
                              JObj [("key", JStr "https://c.example/");
                                    ("data", JStr "third"); ("timestamp", JNum 7)]]);
                       ("stats", JObj [("hits", JNum 0); ("misses", JNum 0);
                                       ("evictions", JNum 0); ("sets", JNum 2)])])
                [ {| Snapshot.key := "https://b.example/"; Snapshot.data := JStr "second";
                     Snapshot.timestamp := 6 |};
                  {| Snapshot.key := "https://c.example/"; Snapshot.data := JStr "third";
                     Snapshot.timestamp := 7 |} ]
                {| hits := 0; misses := 0; evictions := 0; sets := 2 |} 8)
      as (c' & Hc' & _ & _ & Hover).
    + vm_compute. reflexivity.
    + vm_compute. reflexivity.
    + vm_compute. repeat constructor; simpl; intuition discriminate.
    + vm_compute. reflexivity.
    + vm_compute. reflexivity.
    + exists c'. split; [exact Hc' | exact Hover].
Defined.

End Cache.

(** ** The cache, operation by operation *)

Module CacheOps.

Import CacheManager.

Section Generic.
Context {P : Platform}.
Variable A : Type.
Implicit Types (c : CacheManager.t A).

Lemma _evictLRU_fields c :
  ttlMs (_evictLRU c) = ttlMs c
  /\ maxEntries (_evictLRU c) = maxEntries c
  /\ hits (stats (_evictLRU c)) = hits (stats c)
  /\ misses (stats (_evictLRU c)) = misses (stats c)
  /\ sets (stats (_evictLRU c)) = sets (stats c)
  /\ evictions (stats c) <= evictions (stats (_evictLRU c)) <= evictions (stats c) + 1.
Proof.
  unfold _evictLRU.
  destruct (lru_scan (accessOrder c) None None) as [k |]; [| repeat split; lia].
  destruct (String.eqb k EmptyString); simpl; repeat split; lia.
Qed.

Lemma set_fields c (url : string) (d : A) (now : Z) :
  ttlMs (set c url d now) = ttlMs c
  /\ maxEntries (set c url d now) = maxEntries c
  /\ hits (stats (set c url d now)) = hits (stats c)
  /\ misses (stats (set c url d now)) = misses (stats c)
  /\ sets (stats (set c url d now)) = sets (stats c) + 1
  /\ evictions (stats c) <= evictions (stats (set c url d now)) <= evictions (stats c) + 1.
Proof.
  unfold set.
  destruct ((JsMap.size (cache c) >=? maxEntries c)
            && negb (JsMap.has (_generateKey url) (cache c)))%bool; simpl.
  - destruct (_evictLRU_fields c) as (H1 & H2 & H3 & H4 & H5 & H6).
    rewrite H1, H2, H3, H4, H5. repeat split; lia.
  - repeat split; lia.
Qed.

Lemma cache_set c (url : string) (d : A) (now : Z) :
  JsMap.get (_generateKey url) (cache (set c url d now))
  = Some {| data := d; timestamp := now |}.
Proof.
  unfold set. simpl. rewrite JsMapFacts.get_set, String.eqb_refl. reflexivity.
Qed.

Lemma get_of_set c (url : string) (d : A) (now now' : Z) :
  now' - now <= ttlMs c ->
  fst (get (set c url d now) url now') = Some d.
Proof.
  intros Hlive. unfold get. rewrite cache_set. unfold _isExpired.
  destruct (set_fields c url d now) as (Httl & _).
  rewrite Httl. cbn [timestamp].
  destruct (Z.gtb_spec (now' - now) (ttlMs c)); [lia | reflexivity].
Qed.

(** X1.  A value stored by [set] is what [get] returns for the same URL as
    long as the TTL has not elapsed, and that read counts as one hit. *)
Theorem set_then_get c (url : string) (d : A) (now now' : Z) :
  now' - now <= ttlMs c ->
  fst (get (set c url d now) url now') = Some d
  /\ hits (stats (snd (get (set c url d now) url now'))) = hits (stats c) + 1
  /\ misses (stats (snd (get (set c url d now) url now'))) = misses (stats c).
Proof.
  intros Hlive. unfold get. rewrite cache_set. unfold _isExpired.
  destruct (set_fields c url d now) as (Httl & _ & Hhits & Hmiss & _).
  rewrite Httl. cbn [timestamp].
  destruct (Z.gtb_spec (now' - now) (ttlMs c)); [lia |].
  cbn [fst snd data stats count_hit with_stats with_maps hits misses].
  rewrite Hhits, Hmiss. repeat split.
Qed.

(** X2.  Once the TTL has elapsed, [get] returns nothing for a stored URL,
    counts one miss, and purges the entry from both maps: the URL is then
    absent for [has] at any time, until it is set again. *)
Theorem get_after_expiry c (url : string) (d : A) (now now' : Z) :
  now' - now > ttlMs c ->
  fst (get (set c url d now) url now') = None
  /\ misses (stats (snd (get (set c url d now) url now'))) = misses (stats c) + 1
  /\ hits (stats (snd (get (set c url d now) url now'))) = hits (stats c)
  /\ JsMap.get (_generateKey url) (cache (snd (get (set c url d now) url now'))) = None
  /\ JsMap.get (_generateKey url) (accessOrder (snd (get (set c url d now) url now'))) = None
  /\ forall now'', fst (has (snd (get (set c url d now) url now')) url now'') = false.
Proof.
  intros Hdead.
  destruct (set_fields c url d now) as (Httl & _ & Hhits & Hmiss & _).
  assert (Hget : get (set c url d now) url now'
                 = (None, count_miss (drop (set c url d now) (_generateKey url)))).
  { unfold get. rewrite cache_set. unfold _isExpired. rewrite Httl. cbn [timestamp].
    destruct (Z.gtb_spec (now' - now) (ttlMs c)); [reflexivity | lia]. }
  rewrite Hget.
  cbn [fst snd stats count_miss drop with_stats with_maps hits misses cache accessOrder].
  rewrite Hhits, Hmiss, !JsMapFacts.get_delete, String.eqb_refl.
  repeat split. intros now''. unfold has.
  cbn [cache count_miss drop with_stats with_maps].
  now rewrite JsMapFacts.get_delete, String.eqb_refl.
Qed.

Lemma has_iff_get c (url : string) (now : Z) :
  (fst (has c url now) = true <-> exists d, fst (get c url now) = Some d)
  /\ (fst (has c url now) = true -> snd (has c url now) = c).
Proof.
  unfold has, get.
  destruct (JsMap.get (_generateKey url) (cache c)) as [entry |].
  - destruct (_isExpired c now entry); simpl.
    + split; [| discriminate].
      split; [discriminate | intros [d Hd]; discriminate].
    + split; [| reflexivity].
      split; [intros _; now exists (data entry) | reflexivity].
  - simpl. split; [| discriminate].
    split; [discriminate | intros [d Hd]; discriminate].
Qed.

(** X3.  [has] answers true exactly when [get] at the same instant would
    return a value; it never touches the counters, and a true answer
    leaves the cache as it was. *)
Theorem has_agrees_with_get c (url : string) (now : Z) :
  (fst (has c url now) = true <-> exists d, fst (get c url now) = Some d)
  /\ stats (snd (has c url now)) = stats c
  /\ (fst (has c url now) = true -> snd (has c url now) = c).
Proof.
  unfold has, get.
  destruct (JsMap.get (_generateKey url) (cache c)) as [entry |].
  - destruct (_isExpired c now entry); simpl.
    + split; [| split; [reflexivity | discriminate]].
      split; [discriminate | intros [d Hd]; discriminate].
    + split; [| split; reflexivity].
      split; [intros _; now exists (data entry) | reflexivity].
  - simpl. split; [| split; [reflexivity | discriminate]].
    split; [discriminate | intros [d Hd]; discriminate].
Qed.

(** X4.  After [delete(url)] the URL is absent for [get] and [has]; URLs
    with another key are read as before, and the counters are unchanged. *)
Theorem delete_removes_only_its_key c (url : string) (now : Z) :
  fst (get (delete c url) url now) = None
  /\ fst (has (delete c url) url now) = false
  /\ stats (delete c url) = stats c
  /\ forall url', _generateKey url' <> _generateKey url ->
                  fst (get (delete c url) url' now) = fst (get c url' now).
Proof.
  unfold delete, get, has, drop. cbn [cache with_maps stats].
  rewrite JsMapFacts.get_delete, String.eqb_refl.
  repeat split. intros url' Hne.
  rewrite JsMapFacts.get_delete.
  destruct (String.eqb_spec (_generateKey url) (_generateKey url')); [congruence |].
  destruct (JsMap.get (_generateKey url') (cache c)) as [entry |]; [| reflexivity].
  unfold _isExpired. cbn [ttlMs with_maps].
  destruct (now - timestamp entry >? ttlMs c); reflexivity.
Qed.

Lemma keys_set_present (V : Type) (k : string) (v : V) (m : JsMap.t V) :
  In k (JsMap.keys m) -> JsMap.keys (JsMap.set k v m) = JsMap.keys m.
Proof.
  induction m as [| [k0 v0] r IH]; simpl.
  - intros [].
  - intros Hin. destruct (String.eqb_spec k0 k) as [-> | Hne]; simpl.
    + reflexivity.
    + f_equal. apply IH. destruct Hin; congruence.
Qed.

(** X5.  A [set] into a cache that is not full, or of a URL whose key is
    already held, evicts nothing: every URL with another key is read as
    before and the eviction counter does not move; for a key already held
    the keys keep their order, so the size is unchanged. *)
Theorem set_without_eviction c (url : string) (d : A) (now : Z) :
  JsMap.size (cache c) < maxEntries c \/ JsMap.has (_generateKey url) (cache c) = true ->
  evictions (stats (set c url d now)) = evictions (stats c)
  /\ (forall url' now', _generateKey url' <> _generateKey url ->
                        fst (get (set c url d now) url' now') = fst (get c url' now'))
  /\ (JsMap.has (_generateKey url) (cache c) = true ->
      JsMap.keys (cache (set c url d now)) = JsMap.keys (cache c)).
Proof.
  intros Hroom.
  assert (Hcond : ((JsMap.size (cache c) >=? maxEntries c)
                   && negb (JsMap.has (_generateKey url) (cache c)))%bool = false).
  { destruct Hroom as [Hlt | Hhas].
    - destruct (Z.geb_spec (JsMap.size (cache c)) (maxEntries c)); [lia | reflexivity].
    - rewrite Hhas. apply andb_false_r. }
  unfold set. rewrite Hcond.
  cbn [stats count_set with_stats with_maps evictions cache].
  split; [reflexivity |]. split.
  - intros url' now' Hne. unfold get. cbn [cache count_set with_stats with_maps].
    rewrite JsMapFacts.get_set.
    destruct (String.eqb_spec (_generateKey url) (_generateKey url')); [congruence |].
    destruct (JsMap.get (_generateKey url') (cache c)) as [entry |]; [| reflexivity].
    unfold _isExpired. cbn [ttlMs count_set with_stats with_maps].
    destruct (now' - timestamp entry >? ttlMs c); reflexivity.
  - intros Hhas. apply keys_set_present. now apply JsMapFacts.has_In.
Qed.

(** X6.  Every [get] is counted exactly once, as a hit when it returns a
    value and as a miss when it does not; it changes no other counter. *)
Theorem get_counts_once c (url : string) (now : Z) :
  hits (stats (snd (get c url now))) + misses (stats (snd (get c url now)))
  = hits (stats c) + misses (stats c) + 1
  /\ (hits (stats (snd (get c url now))) = hits (stats c) + 1
      <-> exists d, fst (get c url now) = Some d)
  /\ sets (stats (snd (get c url now))) = sets (stats c)
  /\ evictions (stats (snd (get c url now))) = evictions (stats c).
Proof.
  unfold get.
  destruct (JsMap.get (_generateKey url) (cache c)) as [entry |].
  - destruct (_isExpired c now entry); simpl.
    + split; [lia |]. split; [| split; reflexivity].
      split; [lia | intros [d Hd]; discriminate].
    + split; [lia |]. split; [| split; reflexivity].
      split; [intros _; now exists (data entry) | reflexivity].
  - simpl. split; [lia |]. split; [| split; reflexivity].
    split; [lia | intros [d Hd]; discriminate].
Qed.

End Generic.

End CacheOps.

(** ** The cache: sweep, invariant and capacity *)

Module CacheInvariants.

Import CacheManager.

Lemma NoDup_keys_inj (V : Type) (m : JsMap.t V) (kv kv' : string * V) :
  NoDup (JsMap.keys m) -> In kv m -> In kv' m -> fst kv = fst kv' -> kv = kv'.
Proof.
  induction m as [| x r IH]; simpl; intros Hnd Hin Hin' Hkey.
  - destruct Hin.
  - inversion Hnd as [| ? ? Hnotin Hr]; subst.
    destruct Hin as [-> | Hin], Hin' as [-> | Hin'].
    + reflexivity.
    + elim Hnotin. rewrite Hkey. now apply (in_map fst).
    + elim Hnotin. rewrite <- Hkey. now apply (in_map fst).
    + auto.
Qed.

(** Deleting a list of keys one after the other keeps the entries whose
    key is not in the list. *)
Lemma fold_delete (E V : Type) (kf : E -> string) (l : list E) (m : JsMap.t V) :
  fold_left (fun m e => JsMap.delete (kf e) m) l m
  = filter (fun kv => negb (existsb (fun e => String.eqb (fst kv) (kf e)) l)) m.
Proof.
  revert m. induction l as [| e l IH]; intros m; simpl.
  - induction m as [| kv r IHm]; simpl; [reflexivity | now rewrite <- IHm].
  - rewrite IH. unfold JsMap.delete.
    induction m as [| kv r IHm]; simpl; [reflexivity |].
    destruct (String.eqb (fst kv) (kf e)); simpl.
    + exact IHm.
    + destruct (existsb (fun e0 => String.eqb (fst kv) (kf e0)) l); simpl;
        [exact IHm | now rewrite IHm].
Qed.

Lemma filter_rejected (E : Type) (p : E -> bool) (l : list E) :
  filter p (filter (fun x => negb (p x)) l) = [].
Proof.
  induction l as [| x r IH]; simpl; [reflexivity |].
  destruct (p x) eqn:Hp; simpl; [exact IH | now rewrite Hp].
Qed.

Section Generic.
Context {P : Platform}.
Variable A : Type.
Implicit Types (c : CacheManager.t A).

Lemma fold_drop_fields (l : list (string * Entry A)) c :
  cache (fold_left (fun c' kv => drop c' (fst kv)) l c)
  = fold_left (fun m kv => JsMap.delete (fst kv) m) l (cache c)
  /\ accessOrder (fold_left (fun c' kv => drop c' (fst kv)) l c)
     = fold_left (fun m kv => JsMap.delete (fst kv) m) l (accessOrder c)
  /\ stats (fold_left (fun c' kv => drop c' (fst kv)) l c) = stats c
  /\ ttlMs (fold_left (fun c' kv => drop c' (fst kv)) l c) = ttlMs c
  /\ maxEntries (fold_left (fun c' kv => drop c' (fst kv)) l c) = maxEntries c.
Proof.
  revert c. induction l as [| kv l IH]; intros c; simpl.
  - repeat split.
  - destruct (IH (drop c (fst kv))) as (H1 & H2 & H3 & H4 & H5).
    rewrite H1, H2, H3, H4, H5. repeat split.
Qed.

Lemma consistent_fold_drop (l : list (string * Entry A)) c :
  consistent c -> consistent (fold_left (fun c' kv => drop c' (fst kv)) l c).
Proof.
  revert c. induction l as [| kv l IH]; intros c H; simpl; [assumption |].
  apply IH. now apply CacheFacts.consistent_drop.
Qed.

(** With distinct keys, deleting the keys of the entries that satisfy [p]
    leaves exactly the entries that do not. *)
Lemma delete_selected (m : JsMap.t (Entry A)) (p : string * Entry A -> bool) :
  NoDup (JsMap.keys m) ->
  fold_left (fun m' kv => JsMap.delete (fst kv) m') (filter p m) m
  = filter (fun kv => negb (p kv)) m.
Proof.
  intros Hnd. rewrite fold_delete. apply filter_ext_in. intros kv Hin. f_equal.
  destruct (p kv) eqn:Hp.
  - apply existsb_exists. exists kv. split; [| apply String.eqb_refl].
    apply filter_In. now split.
  - destruct (existsb (fun e => String.eqb (fst kv) (fst e)) (filter p m)) eqn:Hex;
      [| reflexivity].
    apply existsb_exists in Hex. destruct Hex as (kv' & Hin' & Heq).
    apply filter_In in Hin'. destruct Hin' as [Hin' Hp'].
    apply String.eqb_eq in Heq.
    rewrite (NoDup_keys_inj _ m kv kv' Hnd Hin Hin' Heq) in Hp. congruence.
Qed.

Lemma consistent_cleanup c (now : Z) :
  consistent c -> consistent (snd (cleanup c now)).
Proof. intros Hc. unfold cleanup. cbn [snd]. now apply consistent_fold_drop. Qed.

(** X7.  On a consistent cache, [cleanup] removes the expired entries and
    only them: the entries that stay are the live ones, in their order; the
    number returned is the number of entries removed; the counters are
    untouched; and a second sweep at the same instant removes nothing. *)
Theorem cleanup_removes_exactly_the_expired c (now : Z) :
  consistent c ->
  cache (snd (cleanup c now))
  = filter (fun kv => negb (_isExpired c now (snd kv))) (cache c)
  /\ JsMap.size (cache c) = JsMap.size (cache (snd (cleanup c now))) + fst (cleanup c now)
  /\ stats (snd (cleanup c now)) = stats c
  /\ consistent (snd (cleanup c now))
  /\ fst (cleanup (snd (cleanup c now)) now) = 0.
Proof.
  intros Hc. unfold cleanup. cbn [fst snd].
  set (expired := fun kv : string * Entry A => now - timestamp (snd kv) >? ttlMs c).
  destruct (fold_drop_fields (filter expired (cache c)) c) as (Hcache & _ & Hstats & Httl & _).
  assert (Hkept : cache (fold_left (fun c' kv => drop c' (fst kv)) (filter expired (cache c)) c)
                  = filter (fun kv => negb (expired kv)) (cache c)).
  { rewrite Hcache. apply delete_selected. exact (proj1 Hc). }
  split; [exact Hkept |]. split; [| split; [exact Hstats | split]].
  - rewrite Hkept. unfold JsMap.size.
    rewrite <- (filter_length expired (cache c)) at 1. lia.
  - now apply consistent_fold_drop.
  - rewrite Hkept, Httl. fold expired.
    rewrite filter_rejected. reflexivity.
Qed.

Lemma consistent_get c (url : string) (now : Z) :
  consistent c -> consistent (snd (get c url now)).
Proof.
  intros Hc. unfold get.
  destruct (JsMap.get (_generateKey url) (cache c)) as [entry |] eqn:Hget; [| exact Hc].
  destruct (_isExpired c now entry); cbn [snd].
  - exact (CacheFacts.consistent_drop A c (_generateKey url) Hc).
  - destruct Hc as (Hnd & Hnd' & Hsame). unfold consistent.
    cbn [cache accessOrder count_hit with_stats with_maps].
    assert (Hin : In (_generateKey url) (JsMap.keys (accessOrder c))).
    { apply Hsame. apply JsMapFacts.has_In. unfold JsMap.has. now rewrite Hget. }
    split; [exact Hnd |]. split; [now apply JsMapFacts.NoDup_keys_set |].
    intros k. rewrite JsMapFacts.keys_set, Hsame. intuition congruence.
Qed.

Lemma consistent_has c (url : string) (now : Z) :
  consistent c -> consistent (snd (has c url now)).
Proof.
  intros Hc. unfold has.
  destruct (JsMap.get (_generateKey url) (cache c)) as [entry |]; [| exact Hc].
  destruct (_isExpired c now entry); cbn [snd]; [| exact Hc].
  exact (CacheFacts.consistent_drop A c (_generateKey url) Hc).
Qed.

Lemma consistent_clear c : consistent (clear c).
Proof.
  unfold consistent, clear; simpl. repeat split; try constructor; auto.
Qed.

(** What [set] leaves in the access map: the key just set and keys that
    were there. *)
Lemma accessOrder_keys_set c (url : string) (d : A) (now : Z) (k : string) :
  In k (JsMap.keys (accessOrder (set c url d now))) ->
  k = _generateKey url \/ In k (JsMap.keys (accessOrder c)).
Proof.
  unfold set.
  destruct ((JsMap.size (cache c) >=? maxEntries c)
            && negb (JsMap.has (_generateKey url) (cache c)))%bool;
    cbn [accessOrder count_set with_stats with_maps]; rewrite JsMapFacts.keys_set.
  - intros [-> | Hin]; [now left | right].
    unfold _evictLRU in Hin.
    destruct (lru_scan (accessOrder c) None None) as [lruKey |]; [| exact Hin].
    destruct (String.eqb lruKey EmptyString); [exact Hin |].
    cbn [accessOrder with_stats with_maps] in Hin.
    apply JsMapFacts.keys_delete in Hin. tauto.
  - tauto.
Qed.

(** The invariant carried along a sequence of [set] calls. *)
Lemma populate_bound_from (calls : list (string * A * Z)) c :
  consistent c ->
  1 <= maxEntries c ->
  ~ In EmptyString (JsMap.keys (accessOrder c)) ->
  JsMap.size (cache c) <= maxEntries c ->
  Forall (fun call => _generateKey (fst (fst call)) <> EmptyString) calls ->
  maxEntries (populate c calls) = maxEntries c
  /\ JsMap.size (cache (populate c calls)) <= maxEntries c.
Proof.
  unfold populate. revert c.
  induction calls as [| [[url d] now] rest IH]; intros c Hc Hmax Hnoempty Hsize Hkeys; simpl.
  - split; [reflexivity | assumption].
  - inversion Hkeys as [| ? ? Hkey Hrest]; subst. cbn [fst snd] in Hkey.
    destruct (CacheFacts.set_within_capacity A c url d now Hc Hmax Hnoempty Hsize)
      as [Hsame Hbound].
    destruct (IH (set c url d now)) as [Hsame' Hbound'].
    + now apply CacheFacts.consistent_set.
    + now rewrite Hsame.
    + intros Hin. apply accessOrder_keys_set in Hin. destruct Hin; [congruence | tauto].
    + now rewrite Hsame.
    + exact Hrest.
    + rewrite Hsame in Hsame', Hbound'. split; assumption.
Qed.

(** X9.  A cache created with a capacity of at least one and filled by any
    sequence of [set] calls never holds more than [maxEntries] entries,
    provided no call uses a URL whose key is the empty string. *)
Theorem populate_within_capacity (maxEntries ttlMs : Z) (calls : list (string * A * Z)) :
  1 <= maxEntries ->
  Forall (fun call => _generateKey (fst (fst call)) <> EmptyString) calls ->
  JsMap.size (cache (populate (CacheManager.new maxEntries ttlMs) calls)) <= maxEntries.
Proof.
  intros Hmax Hkeys.
  assert (Hfrom := populate_bound_from calls (CacheManager.new maxEntries ttlMs)).
  cbn [CacheManager.maxEntries CacheManager.new cache accessOrder] in Hfrom.
  apply Hfrom.
  - apply CacheFacts.consistent_new.
  - exact Hmax.
  - intros [].
  - unfold JsMap.size, JsMap.empty. simpl. lia.
  - exact Hkeys.
Qed.

End Generic.

Section ImportKeeps.
Context {P : Platform}.
Import ImportOutcome.

Lemma import_entry_settled (c : CacheManager.t jsval) (now : Z) (entry : jsval) :
  consistent c -> settled (import_entry c now entry).
Proof.
  intros Hc. unfold import_entry.
  destruct entry as [| | | | | | fields]; simpl; auto.
  destruct (Js.obj_get fields "timestamp") as [[| | | ts | | |] |]; simpl; auto.
  destruct (now - ts <=? ttlMs c); simpl; auto.
  destruct (Js.obj_get fields "key") as [[| | | | key | |] |]; simpl; auto.
  now apply CacheFacts.consistent_store.
Qed.

Lemma import_entries_settled (items : list jsval) (c : CacheManager.t jsval) (now : Z) :
  consistent c -> settled (import_entries c now items).
Proof.
  revert c. induction items as [| entry rest IH]; intros c Hc; simpl; [exact Hc |].
  pose proof (import_entry_settled c now entry Hc) as Hstep.
  destruct (import_entry c now entry) as [c' | c' |]; simpl in *; auto.
Qed.

Lemma import_data_entries_settled (c : CacheManager.t jsval) (now : Z) (d : jsval) :
  consistent c -> settled (import_data_entries c now d).
Proof.
  intros Hc. unfold import_data_entries.
  destruct d as [| | | | | | fields]; simpl; auto.
  destruct (Js.obj_get fields "entries") as [v |]; simpl; auto.
  destruct (Js.truthy v); simpl; auto.
  destruct v; simpl; auto. now apply import_entries_settled.
Qed.

(** X8.  Every operation keeps the cache consistent: the entry map and the
    access map hold the same, pairwise distinct keys after [set], [get],
    [has], [delete], [clear] and [cleanup], and after [import] whatever it
    returns, a failed import included. *)
Theorem operations_keep_consistency (c : CacheManager.t jsval) (url : string)
        (d : jsval) (s : string) (now : Z) :
  consistent c ->
  consistent (set c url d now)
  /\ consistent (snd (get c url now))
  /\ consistent (snd (has c url now))
  /\ consistent (delete c url)
  /\ consistent (clear c)
  /\ consistent (snd (cleanup c now))
  /\ forall r c', import c s now = Some (r, c') -> consistent c'.
Proof.
  intros Hc.
  split; [now apply CacheFacts.consistent_set |].
  split; [now apply consistent_get |].
  split; [now apply consistent_has |].
  split; [exact (CacheFacts.consistent_drop jsval c (_generateKey url) Hc) |].
  split; [apply consistent_clear |].
  split; [now apply (consistent_cleanup) |].
  intros r c'. unfold import.
  destruct (JSON_parse s) as [v |]; [| intros [= <- <-]; exact Hc].
  pose proof (import_data_entries_settled (clear c) now v (consistent_clear jsval c)) as Hs.
  destruct (import_data_entries (clear c) now v) as [c1 | c1 |]; simpl in Hs.
  - destruct (merge_stats (stats c1) v); [| discriminate].
    intros [= <- <-]. exact Hs.
  - intros [= <- <-]. exact Hs.
  - discriminate.
Qed.

End ImportKeeps.

End CacheInvariants.

(** ** Levenshtein distance *)

Module LevenshteinFacts.

Import PhishingDetector EditDistance.

Lemma distance_nil_l (b : list ascii) : distance [] b = Z.of_nat (length b).
Proof. destruct b; reflexivity. Qed.

Lemma distance_nil_r (a : list ascii) : distance a [] = Z.of_nat (length a).
Proof. destruct a; reflexivity. Qed.

Lemma distance_cons (x y : ascii) (a b : list ascii) :
  distance (x :: a) (y :: b)
  = if Ascii.eqb x y then distance a b
    else Z.min (Z.min (distance a b + 1) (distance (x :: a) b + 1))
               (distance a (y :: b) + 1).
Proof. reflexivity. Qed.

(** One pass of the inner loop writes the row of the longer rows-word. *)
Lemma lev_row_row_of (c2 : ascii) (r2 t q : list ascii) :
  lev_row c2 t (row_of r2 q t) (distance (c2 :: r2) q) = tl (row_of (c2 :: r2) q t).
Proof.
  revert q. induction t as [| x t IH]; intros q.
  - reflexivity.
  - cbn [row_of tl].
    destruct t as [| x' t'].
    + cbn [row_of lev_row]. rewrite distance_cons. reflexivity.
    + specialize (IH (x :: q)).
      change (row_of r2 (x :: q) (x' :: t'))
        with (distance r2 (x :: q) :: row_of r2 (x' :: x :: q) t') in *.
      cbn [lev_row].
      change (row_of (c2 :: r2) (x :: q) (x' :: t'))
        with (distance (c2 :: r2) (x :: q) :: row_of (c2 :: r2) (x' :: x :: q) t') in *.
      cbn [tl] in IH.
      rewrite (distance_cons c2 x r2 q).
      f_equal. exact IH.
Qed.

Lemma row_of_head (r2 q t : list ascii) :
  row_of r2 q t = distance r2 q :: tl (row_of r2 q t).
Proof. destruct t; reflexivity. Qed.

(** The outer loop, started on the row of [r2], ends on the row of the
    whole rows-word. *)
Lemma lev_rows_row_of (s2 s1 r2 : list ascii) :
  lev_rows s2 s1 (row_of r2 [] s1) (Z.of_nat (length r2) + 1)
  = row_of (rev s2 ++ r2) [] s1.
Proof.
  revert r2. induction s2 as [| c2 s2 IH]; intros r2.
  - reflexivity.
  - cbn [lev_rows].
    assert (Hi : Z.of_nat (length r2) + 1 = distance (c2 :: r2) []).
    { rewrite distance_nil_r. cbn [length]. lia. }
    rewrite Hi at 1 2.
    rewrite lev_row_row_of, <- row_of_head.
    replace (Z.of_nat (length r2) + 1 + 1) with (Z.of_nat (length (c2 :: r2)) + 1)
      by (cbn [length]; lia).
    rewrite IH. cbn [rev]. now rewrite <- app_assoc.
Qed.

Lemma row_of_empty_word (q t : list ascii) :
  row_of [] q t = map Z.of_nat (seq (length q) (S (length t))).
Proof.
  revert q. induction t as [| x t IH]; intros q.
  - cbn [row_of length seq map]. now rewrite distance_nil_l.
  - cbn [row_of]. rewrite IH, distance_nil_l. reflexivity.
Qed.

Lemma last_row_of (r2 q t : list ascii) (d : Z) :
  last (row_of r2 q t) d = distance r2 (rev t ++ q).
Proof.
  revert q. induction t as [| x t IH]; intros q.
  - reflexivity.
  - cbn [row_of rev]. rewrite <- app_assoc. cbn [app].
    rewrite <- IH. rewrite (row_of_head r2 (x :: q) t). reflexivity.
Qed.

(** The last row of the matrix, from the first row the code writes. *)
Lemma final_row (s1 s2 : list ascii) :
  lev_rows s2 s1 (map Z.of_nat (seq 0 (S (length s1)))) 1 = row_of (rev s2) [] s1.
Proof.
  pose proof (row_of_empty_word [] s1) as Hrow0.
  cbn [length] in Hrow0. rewrite <- Hrow0.
  pose proof (lev_rows_row_of s2 s1 []) as Hrows.
  cbn [length] in Hrows. change (Z.of_nat 0 + 1) with 1 in Hrows.
  now rewrite Hrows, app_nil_r.
Qed.

Ltac as_distance :=
  unfold _getLevenshteinDistance, _calculateLevenshteinDistance in *;
  rewrite ?final_row, ?last_row_of, ?app_nil_r in *.

(** X10.  The matrix computation returns the edit distance given by the
    recurrence on last characters (equal last characters cost nothing,
    otherwise one more than the best of substitution, insertion and
    deletion), here written on the reversed words. *)
Theorem levenshtein_is_edit_distance (str1 str2 : string) :
  _calculateLevenshteinDistance str1 str2
  = distance (rev (JsString.chars str2)) (rev (JsString.chars str1)).
Proof.
  unfold _calculateLevenshteinDistance.
  now rewrite final_row, last_row_of, app_nil_r.
Qed.

Lemma distance_refl (a : list ascii) : distance a a = 0.
Proof.
  induction a as [| x a IH]; [reflexivity |].
  rewrite distance_cons, Ascii.eqb_refl. exact IH.
Qed.

Lemma distance_bounds (a b : list ascii) :
  0 <= distance a b
  /\ Z.of_nat (length a) - Z.of_nat (length b) <= distance a b
  /\ Z.of_nat (length b) - Z.of_nat (length a) <= distance a b
  /\ distance a b <= Z.max (Z.of_nat (length a)) (Z.of_nat (length b)).
Proof.
  revert b. induction a as [| x a IHa]; intros b.
  - rewrite distance_nil_l. cbn [length]. lia.
  - induction b as [| y b IHb].
    + rewrite distance_nil_r. cbn [length]. lia.
    + rewrite distance_cons.
      pose proof (IHa b) as H1. pose proof (IHa (y :: b)) as H2.
      cbn [length] in *.
      destruct (Ascii.eqb x y); lia.
Qed.

Lemma distance_zero (a b : list ascii) : distance a b = 0 -> a = b.
Proof.
  revert b. induction a as [| x a IHa]; intros b.
  - rewrite distance_nil_l. destruct b; [reflexivity | cbn [length]; lia].
  - induction b as [| y b IHb].
    + rewrite distance_nil_r. cbn [length]. lia.
    + rewrite distance_cons.
      destruct (Ascii.eqb_spec x y) as [-> | Hne].
      * intros H. f_equal. now apply IHa.
      * pose proof (distance_bounds a b). pose proof (distance_bounds (x :: a) b).
        pose proof (distance_bounds a (y :: b)). lia.
Qed.

Lemma distance_sym (a b : list ascii) : distance a b = distance b a.
Proof.
  revert b. induction a as [| x a IHa]; intros b.
  - now rewrite distance_nil_l, distance_nil_r.
  - induction b as [| y b IHb].
    + now rewrite distance_nil_l, distance_nil_r.
    + rewrite !distance_cons, (Ascii.eqb_sym y x), (IHa b), (IHa (y :: b)), IHb.
      destruct (Ascii.eqb x y); lia.
Qed.

Lemma chars_length (s : string) : length (JsString.chars s) = String.length s.
Proof. induction s as [| c s IH]; simpl; [reflexivity | now rewrite IH]. Qed.

Lemma chars_inj (s1 s2 : string) : JsString.chars s1 = JsString.chars s2 -> s1 = s2.
Proof.
  intros H. rewrite <- (string_of_list_ascii_of_string s1),
                    <- (string_of_list_ascii_of_string s2).
  unfold JsString.chars in H. now rewrite H.
Qed.

(** X11.  The distance computed for two strings is zero exactly when they
    are equal, does not depend on the order of the arguments, is at least
    the difference of the lengths and at most the greater length. *)
Theorem levenshtein_is_a_distance (str1 str2 : string) :
  _calculateLevenshteinDistance str1 str1 = 0
  /\ (_calculateLevenshteinDistance str1 str2 = 0 <-> str1 = str2)
  /\ _calculateLevenshteinDistance str1 str2 = _calculateLevenshteinDistance str2 str1
  /\ Z.abs (JsString.len str1 - JsString.len str2)
     <= _calculateLevenshteinDistance str1 str2
     <= Z.max (JsString.len str1) (JsString.len str2).
Proof.
  as_distance.
  split; [apply distance_refl |]. split; [| split].
  - split.
    + intros H. apply distance_zero in H.
      apply (f_equal (@rev ascii)) in H. rewrite !rev_involutive in H.
      symmetry. now apply chars_inj.
    + intros ->. apply distance_refl.
  - apply distance_sym.
  - pose proof (distance_bounds (rev (JsString.chars str2)) (rev (JsString.chars str1)))
      as H.
    rewrite !length_rev, !chars_length in H. unfold JsString.len. lia.
Qed.

(** X12.  The length filter and the test [distance > 0] of
    [_detectTyposquatting] hide no Levenshtein match: as long as the
    maximal distance is at most 3, a label that differs from a legitimate
    label of sufficient length by at most that many edits is flagged. *)
Theorem close_labels_are_flagged (cfg : Config.t) (currentBase legitimate : string) :
  Config.MAX_LEVENSHTEIN_DISTANCE (Config.TYPOSQUATTING cfg) <= 3 ->
  JsString.split_head "."%char legitimate <> currentBase ->
  _calculateLevenshteinDistance (JsString.split_head "."%char legitimate) currentBase
  <= Config.MAX_LEVENSHTEIN_DISTANCE (Config.TYPOSQUATTING cfg) ->
  JsString.len (JsString.split_head "."%char legitimate)
  >= Config.MIN_DOMAIN_LENGTH (Config.TYPOSQUATTING cfg) ->
  typosquats cfg currentBase legitimate = true.
Proof.
  intros Hmax Hne Hclose Hlong. unfold typosquats.
  set (legitBase := JsString.split_head "."%char legitimate) in *.
  destruct (String.eqb_spec legitBase currentBase) as [Heq | _]; [contradiction |].
  as_distance.
  pose proof (distance_bounds (rev (JsString.chars currentBase))
                              (rev (JsString.chars legitBase))) as Hb.
  rewrite !length_rev, !chars_length in Hb. unfold JsString.len in *.
  assert (Hpos : distance (rev (JsString.chars currentBase))
                          (rev (JsString.chars legitBase)) <> 0).
  { intros H0. apply distance_zero in H0.
    apply (f_equal (@rev ascii)) in H0. rewrite !rev_involutive in H0.
    apply chars_inj in H0. congruence. }
  destruct (Z.gtb_spec (Z.abs (Z.of_nat (String.length legitBase)
                               - Z.of_nat (String.length currentBase))) 3); [lia |].
  destruct (Z.gtb_spec (distance (rev (JsString.chars currentBase))
                                 (rev (JsString.chars legitBase))) 0); [| lia].
  destruct (Z.leb_spec (distance (rev (JsString.chars currentBase))
                                 (rev (JsString.chars legitBase)))
                       (Config.MAX_LEVENSHTEIN_DISTANCE (Config.TYPOSQUATTING cfg))); [| lia].
  destruct (Z.geb_spec (Z.of_nat (String.length legitBase))
                       (Config.MIN_DOMAIN_LENGTH (Config.TYPOSQUATTING cfg))); [| lia].
  reflexivity.
Qed.

End LevenshteinFacts.

(** ** The typosquatting tests *)

Module TyposquattingFacts.

Import Config PhishingDetector.

(** X13.  A domain reported by [_detectTyposquatting] is one of the
    legitimate domains, its first label differs from the first label of the
    analysed domain, and the two labels differ in length by at most 3. *)
Theorem typosquatting_target_is_legitimate (cfg : Config.t) (domain legitimate : string) :
  _detectTyposquatting cfg domain = Some legitimate ->
  In legitimate _legitimateDomains
  /\ JsString.split_head "."%char legitimate <> JsString.split_head "."%char domain
  /\ Z.abs (JsString.len (JsString.split_head "."%char legitimate)
            - JsString.len (JsString.split_head "."%char domain)) <= 3.
Proof.
  unfold _detectTyposquatting. intros Hfind.
  apply find_some in Hfind. destruct Hfind as [Hin Hflag].
  split; [exact Hin |].
  unfold typosquats in Hflag.
  destruct (String.eqb_spec (JsString.split_head "."%char legitimate)
                            (JsString.split_head "."%char domain)) as [_ | Hne];
    [discriminate |].
  split; [exact Hne |].
  destruct (Z.gtb_spec (Z.abs (JsString.len (JsString.split_head "."%char legitimate)
                               - JsString.len (JsString.split_head "."%char domain))) 3);
    [discriminate | lia].
Qed.

Lemma endsWith_append (x suffix : string) : JsString.endsWith suffix (x ++ suffix) = true.
Proof.
  induction x as [| c x IH].
  - change (EmptyString ++ suffix) with suffix.
    destruct suffix as [| c s]; cbn [JsString.endsWith]; now rewrite String.eqb_refl.
  - change (String c x ++ suffix) with (String c (x ++ suffix)).
    cbn [JsString.endsWith].
    destruct (String.eqb suffix (String c (x ++ suffix))); [reflexivity | exact IH].
Qed.

(** X14.  The substitution test always appends an s to the normalised
    label (the key "$" of the table, compiled as a regular expression, is
    the end of input), so it can only succeed against a legitimate label
    that ends in s. *)
Theorem substitution_needs_trailing_s (current legitimate : string) :
  _checkCharSubstitution current legitimate = true ->
  JsString.endsWith "s" legitimate = true.
Proof.
  unfold _checkCharSubstitution, _charSubstitutions. cbn [fold_left fst snd].
  set (normalized := replace_RegExp_g "@" "a" _).
  change (replace_RegExp_g "$" "s" normalized) with (normalized ++ "s").
  intros H. apply String.eqb_eq in H. rewrite <- H. apply endsWith_append.
Qed.

Lemma DEDUPLICATION_replace_head (c : ascii) (t : string) :
  exists u, DEDUPLICATION_replace (String c t) = String c u.
Proof.
  revert c. induction t as [| c' t IH]; intros c.
  - now exists EmptyString.
  - change (DEDUPLICATION_replace (String c (String c' t)))
      with (if (Ascii.eqb c c' && is_dot c)%bool
            then DEDUPLICATION_replace (String c' t)
            else String c (DEDUPLICATION_replace (String c' t))).
    destruct (Ascii.eqb_spec c c') as [-> | Hne]; cbn [andb].
    + destruct (is_dot c').
      * apply IH.
      * eexists. reflexivity.
    + eexists. reflexivity.
Qed.

Lemma DEDUPLICATION_replace_no_doubled (s : string) :
  Label.no_doubled (DEDUPLICATION_replace s).
Proof.
  induction s as [| c t IH]; [exact I |].
  destruct t as [| c' t']; [exact I |].
  change (DEDUPLICATION_replace (String c (String c' t')))
    with (if (Ascii.eqb c c' && is_dot c)%bool
          then DEDUPLICATION_replace (String c' t')
          else String c (DEDUPLICATION_replace (String c' t'))).
  destruct (Ascii.eqb c c' && is_dot c)%bool eqn:Hcond; [exact IH |].
  destruct (DEDUPLICATION_replace_head c' t') as [u Hu].
  rewrite Hu in *. cbn [Label.no_doubled]. split; [| exact IH].
  intros ->. rewrite Ascii.eqb_refl in Hcond. exact Hcond.
Qed.

Lemma DEDUPLICATION_replace_fixes (s : string) :
  Label.no_doubled s -> DEDUPLICATION_replace s = s.
Proof.
  induction s as [| c t IH]; [reflexivity |].
  destruct t as [| c' t']; [reflexivity |].
  intros [Hhead Htail].
  change (DEDUPLICATION_replace (String c (String c' t')))
    with (if (Ascii.eqb c c' && is_dot c)%bool
          then DEDUPLICATION_replace (String c' t')
          else String c (DEDUPLICATION_replace (String c' t'))).
  destruct (Ascii.eqb_spec c c') as [Heq | Hne]; cbn [andb].
  - rewrite (Hhead Heq). f_equal. now apply IH.
  - f_equal. now apply IH.
Qed.

(** X15.  The doubled-character test can only succeed against a legitimate
    label in which no character is repeated in a row: collapsing leaves no
    such repetition, and collapsing twice changes nothing more. *)
Theorem doubled_test_needs_plain_label (current legitimate : string) :
  _checkDoubledChars current legitimate = true ->
  Label.no_doubled legitimate
  /\ DEDUPLICATION_replace legitimate = legitimate
  /\ DEDUPLICATION_replace (DEDUPLICATION_replace current) = DEDUPLICATION_replace current.
Proof.
  unfold _checkDoubledChars. intros H. apply String.eqb_eq in H.
  pose proof (DEDUPLICATION_replace_no_doubled current) as Hplain.
  rewrite H in *.
  split; [exact Hplain |]. split; now apply DEDUPLICATION_replace_fixes.
Qed.

Lemma matchScore_halves_bound (current legitimate : list ascii) :
  0 <= matchScore_halves current legitimate
  <= 2 * Z.min (Z.of_nat (length current)) (Z.of_nat (length legitimate)).
Proof.
  revert legitimate. induction current as [| c current IH]; intros legitimate.
  - cbn [matchScore_halves length]. lia.
  - destruct legitimate as [| l legitimate].
    + cbn [matchScore_halves length]. lia.
    + cbn [matchScore_halves length]. specialize (IH legitimate).
      destruct (Ascii.eqb c l); [lia |]. destruct (is_adjacent l c); lia.
Qed.

(** X16.  The keyboard-proximity test only fires on labels of similar
    length: their lengths differ by at most 2 and, for a threshold
    [num/den] with a non-negative denominator, the shorter length times
    [den] exceeds the longer length times [num]. *)
Theorem keyboard_test_needs_similar_lengths (cfg : Config.t) (current legitimate : string) :
  0 <= KEYBOARD_PROXIMITY_THRESHOLD_den (TYPOSQUATTING cfg) ->
  _detectKeyboardProximityAttack cfg current legitimate = true ->
  Z.abs (JsString.len current - JsString.len legitimate) <= 2
  /\ Z.min (JsString.len current) (JsString.len legitimate)
     * KEYBOARD_PROXIMITY_THRESHOLD_den (TYPOSQUATTING cfg)
     > Z.max (JsString.len current) (JsString.len legitimate)
       * KEYBOARD_PROXIMITY_THRESHOLD_num (TYPOSQUATTING cfg).
Proof.
  intros Hden. unfold _detectKeyboardProximityAttack.
  destruct (Z.gtb_spec (Z.abs (JsString.len current - JsString.len legitimate)) 2);
    [discriminate |].
  intros Hfire. split; [lia |].
  apply Z.gtb_lt in Hfire.
  pose proof (matchScore_halves_bound (JsString.chars current) (JsString.chars legitimate))
    as Hb.
  rewrite !LevenshteinFacts.chars_length in Hb. unfold JsString.len in *. nia.
Qed.

(** X17.  Under the default configuration six of the legitimate domains
    are themselves reported as typosquatting, each against a neighbour in
    the list: the exact-match skip only protects a domain against its own
    label. *)
Theorem legitimate_domains_flagged_as_typosquats :
  map (fun d => (d, _detectTyposquatting CONFIG d))
      (filter (fun d => match _detectTyposquatting CONFIG d with
                        | Some _ => true
                        | None => false
                        end)
              _legitimateDomains)
  = [("ebay.com", Some "etsy.com"); ("etsy.com", Some "ebay.com");
     ("shopify.com", Some "spotify.com");
     ("github.com", Some "gitlab.com"); ("gitlab.com", Some "github.com");
     ("spotify.com", Some "shopify.com")].
Proof. vm_compute. reflexivity. Qed.

End TyposquattingFacts.

(** ** The engine and its cache *)

Module EngineCache.

Import Config PhishingDetector.

Section WithPlatform.
Context {P : Platform}.

(** With every reading of the clock the same, [Clocked.analyze] is
    [PhishingDetector.analyze]. *)
Lemma analyze_steady (d : PhishingDetector.t) (url : string)
      (doc : option Document) (now : Z) :
  Clocked.analyze d url doc (Clocked.steady now) = analyze d url doc now.
Proof. reflexivity. Qed.

(** X18.  [analyze] returns null in exactly one situation: the cache holds
    an entry for the URL that has not expired at the clock reading taken in
    [has] and has expired at the reading taken in [get].  In every other
    case it returns an assessment. *)
Theorem analyze_returns_null_exactly_on_expiry_between_reads
        (d : PhishingDetector.t) (url : string) (doc : option Document)
        (clock : Clocked.Clock) :
  fst (Clocked.analyze d url doc clock) = None
  <-> url <> EmptyString
      /\ exists (c : CacheManager.t Assessment) (entry : CacheManager.Entry Assessment),
           cache d = Some c
           /\ JsMap.get (CacheManager._generateKey url) (CacheManager.cache c) = Some entry
           /\ Clocked.at_has clock - CacheManager.timestamp entry <= CacheManager.ttlMs c
           /\ CacheManager.ttlMs c < Clocked.at_get clock - CacheManager.timestamp entry.
Proof.
  unfold Clocked.analyze.
  destruct (String.eqb_spec url EmptyString) as [Hurl | Hurl].
  { cbn [fst]. split; [discriminate | intros [Hne _]; contradiction]. }
  destruct (cache d) as [c |].
  2:{ cbn [fst]. split; [discriminate |].
      intros (_ & c & entry & Hc & _). discriminate Hc. }
  unfold CacheManager.has.
  destruct (JsMap.get (CacheManager._generateKey url) (CacheManager.cache c))
    as [entry |] eqn:Hentry.
  2:{ cbn [fst]. split; [discriminate |].
      intros (_ & c' & entry & Hc & Hget & _).
      injection Hc as <-. rewrite Hentry in Hget. discriminate Hget. }
  unfold CacheManager._isExpired.
  destruct (Z.gtb_spec (Clocked.at_has clock - CacheManager.timestamp entry)
              (CacheManager.ttlMs c)) as [Hdead | Hlive].
  { cbn [fst]. split; [discriminate |].
    intros (_ & c' & entry' & Hc & Hget & Hhas & _).
    injection Hc as <-. rewrite Hentry in Hget. injection Hget as <-. lia. }
  unfold CacheManager.get. rewrite Hentry. unfold CacheManager._isExpired.
  destruct (Z.gtb_spec (Clocked.at_get clock - CacheManager.timestamp entry)
              (CacheManager.ttlMs c)) as [Hdead' | Hlive'].
  - cbn [fst]. split; [| reflexivity].
    intros _. split; [exact Hurl |].
    exists c, entry. repeat split; [exact Hentry | lia | lia].
  - cbn [fst]. split; [discriminate |].
    intros (_ & c' & entry' & Hc & Hget & _ & Hgone).
    injection Hc as <-. rewrite Hentry in Hget. injection Hget as <-. lia.
Qed.

Lemma has_ttl (A : Type) (c : CacheManager.t A) (url : string) (now : Z) :
  CacheManager.ttlMs (snd (CacheManager.has c url now)) = CacheManager.ttlMs c.
Proof.
  unfold CacheManager.has.
  destruct (JsMap.get (CacheManager._generateKey url) (CacheManager.cache c)) as [e |];
    [| reflexivity].
  destruct (CacheManager._isExpired c now e); reflexivity.
Qed.

(** X19.  With caching on, a call for a URL that the cache does not hold
    returns the fresh analysis and stores it.  The call for the same URL
    made next, on the detector as the first call left it, returns that
    stored result whatever document it supplies, provided both of its clock
    readings, the one in [has] and the one in [get], are within the TTL of
    the reading at which the first call stored the result. *)
Theorem analyze_next_call_repeats_the_stored_result (d : PhishingDetector.t)
        (c : CacheManager.t Assessment) (url : string)
        (doc doc' : option Document) (clock clock' : Clocked.Clock) :
  url <> EmptyString ->
  cache d = Some c ->
  fst (CacheManager.has c url (Clocked.at_has clock)) = false ->
  Clocked.at_has clock' - Clocked.at_set clock <= CacheManager.ttlMs c ->
  Clocked.at_get clock' - Clocked.at_set clock <= CacheManager.ttlMs c ->
  fst (Clocked.analyze d url doc clock)
  = Some (run_passes (config d) url doc (Clocked.at_results clock))
  /\ fst (Clocked.analyze (snd (Clocked.analyze d url doc clock)) url doc' clock')
     = Some (run_passes (config d) url doc (Clocked.at_results clock)).
Proof.
  intros Hne Hc Hmiss Hlive_has Hlive_get.
  set (c1 := snd (CacheManager.has c url (Clocked.at_has clock))).
  set (r := run_passes (config d) url doc (Clocked.at_results clock)).
  assert (Hfirst : Clocked.analyze d url doc clock
                   = (Some r,
                      with_cache d (CacheManager.set c1 url r (Clocked.at_set clock)))).
  { unfold Clocked.analyze, c1, r.
    destruct (String.eqb_spec url EmptyString); [contradiction |].
    rewrite Hc. destruct (CacheManager.has c url (Clocked.at_has clock)) as [hit c0].
    cbn [fst snd] in *. subst hit. reflexivity. }
  rewrite Hfirst. cbn [fst snd]. split; [reflexivity |].
  set (stored := CacheManager.set c1 url r (Clocked.at_set clock)).
  assert (Httl : CacheManager.ttlMs c1 = CacheManager.ttlMs c)
    by (unfold c1; apply has_ttl).
  assert (Hget_has : fst (CacheManager.get stored url (Clocked.at_has clock')) = Some r).
  { apply CacheOps.get_of_set. now rewrite Httl. }
  assert (Hget : fst (CacheManager.get stored url (Clocked.at_get clock')) = Some r).
  { apply CacheOps.get_of_set. now rewrite Httl. }
  unfold Clocked.analyze.
  destruct (String.eqb_spec url EmptyString); [contradiction |].
  cbn [cache with_cache].
  destruct (CacheOps.has_iff_get Assessment stored url (Clocked.at_has clock'))
    as (Hiff & Hsame).
  assert (Hhit : fst (CacheManager.has stored url (Clocked.at_has clock')) = true).
  { apply Hiff. now exists r. }
  specialize (Hsame Hhit).
  destruct (CacheManager.has stored url (Clocked.at_has clock')) as [hit c2].
  cbn [fst snd] in *. subst hit c2.
  destruct (CacheManager.get stored url (Clocked.at_get clock')) as [cached c3].
  cbn [fst] in *. exact Hget.
Qed.

End WithPlatform.

End EngineCache.

(** ** Scores and threats *)

Module EngineScores.

Import Config PhishingDetector Weights.

Lemma sound_empty : sound empty_analysis.
Proof. split; [simpl; lia | reflexivity]. Qed.

Lemma sound_rule (cond : bool) (w : Z) (msg : string) (a : Analysis) :
  (cond = true -> 1 <= w) -> sound a -> sound (rule cond w msg a).
Proof.
  intros Hw [Hpos Hzero]. destruct cond; [| split; assumption].
  specialize (Hw eq_refl). split; simpl; lia.
Qed.

Lemma sound_rule_silent (cond : bool) (w : Z) (a : Analysis) :
  (cond = true -> 1 <= w) -> sound a -> sound (rule_silent cond w a).
Proof.
  intros Hw [Hpos Hzero]. destruct cond; [| split; assumption].
  specialize (Hw eq_refl). split; simpl; lia.
Qed.

Lemma sound_sum (a b : Analysis) (details : option URLDetails) :
  sound a -> sound b ->
  sound {| a_score := a_score a + a_score b;
           a_threats := a_threats a ++ a_threats b;
           a_details := details |}.
Proof.
  intros [Ha Ha0] [Hb Hb0]. split; simpl; [lia |].
  intros H. rewrite Ha0, Hb0 by lia. reflexivity.
Qed.

Ltac weights H :=
  unfold positive, at_least in H;
  repeat (apply Forall_cons_iff in H; let Hw := fresh "Hw" in destruct H as [Hw H]).

Ltac rules :=
  repeat first
    [ apply sound_empty
    | apply sound_rule; [intros Hcond; try assumption; try (apply Nat.ltb_lt in Hcond; nia) |]
    | apply sound_rule_silent; [intros Hcond; try assumption |] ].

Section WithPlatform.
Context {P : Platform}.
Variable cfg : Config.t.
Hypothesis Hcfg : positive cfg.

Lemma sound__analyzeURL (url : string) : sound (_analyzeURL cfg url).
Proof.
  pose proof Hcfg as H. weights H.
  unfold _analyzeURL. destruct (new_URL url) as [urlObj |]; [| apply sound_empty].
  unfold url_rules.
  assert (Hs : sound (url_rules_after cfg url urlObj
                        (url_rule_homograph cfg urlObj (url_rules_before cfg url urlObj)))).
  { unfold url_rules_after, url_rule_homograph, url_rules_before. cbv zeta.
    destruct (_detectTyposquatting cfg (JsString.toLowerCase (hostname urlObj))); rules. }
  destruct Hs as [H1 H2]. split; assumption.
Qed.

Lemma sound__analyzeContent (doc : Document) : sound (_analyzeContent cfg doc).
Proof.
  pose proof Hcfg as H. weights H.
  unfold _analyzeContent. cbv zeta. rules.
Qed.

Lemma sound__analyzeBehavior (doc : Document) : sound (_analyzeBehavior cfg doc).
Proof.
  pose proof Hcfg as H. weights H.
  unfold _analyzeBehavior. cbv zeta. rules.
Qed.

Lemma sound__analyzeForm (form : Form) (urlObj : URL) : sound (_analyzeForm cfg form urlObj).
Proof.
  pose proof Hcfg as H. weights H.
  unfold _analyzeForm. cbv zeta.
  rules.
  match goal with |- sound (if ?b then _ else _) => destruct b end; [| rules].
  match goal with |- sound (if ?b then _ else _) => destruct b end; [rules |].
  match goal with |- sound (if ?b then _ else _) => destruct b end; rules.
Qed.

Lemma sound__analyzeForms (doc : Document) (url : string) : sound (_analyzeForms cfg doc url).
Proof.
  unfold _analyzeForms. destruct (new_URL url) as [urlObj |]; [| apply sound_empty].
  assert (Hfold : forall (l : list Form) (a : Analysis),
             sound a ->
             sound (fold_left
                      (fun analysis form =>
                         {| a_score := a_score analysis + a_score (_analyzeForm cfg form urlObj);
                            a_threats := a_threats analysis
                                         ++ a_threats (_analyzeForm cfg form urlObj);
                            a_details := a_details analysis |})
                      l a)).
  { induction l as [| form l IH]; intros a Ha; [exact Ha |].
    cbn [fold_left]. apply IH. apply sound_sum; [exact Ha | apply sound__analyzeForm]. }
  apply Hfold, sound_empty.
Qed.

(** X20.  When every weight of the configuration is positive, each pass
    reports a score that is not negative and, when the score is zero, no
    threat; so does the whole analysis, and supplying a document never
    lowers the score that the URL alone would get. *)
Theorem positive_weights_give_sound_scores (url : string) (doc : Document) (now : Z) :
  sound (_analyzeURL cfg url)
  /\ sound (_analyzeContent cfg doc)
  /\ sound (_analyzeForms cfg doc url)
  /\ sound (_analyzeBehavior cfg doc)
  /\ 0 <= score (run_passes cfg url None now) <= score (run_passes cfg url (Some doc) now)
  /\ (score (run_passes cfg url (Some doc) now) = 0 ->
      threats (run_passes cfg url (Some doc) now) = [])
  /\ (score (run_passes cfg url None now) = 0 ->
      threats (run_passes cfg url None now) = []).
Proof.
  pose proof (sound__analyzeURL url) as [Hu Hu0].
  pose proof (sound__analyzeContent doc) as [Hc Hc0].
  pose proof (sound__analyzeForms doc url) as [Hf Hf0].
  pose proof (sound__analyzeBehavior doc) as [Hb Hb0].
  split; [split; assumption |]. split; [split; assumption |].
  split; [split; assumption |]. split; [split; assumption |].
  unfold run_passes; cbn [score threats _mergeAnalysis].
  split; [lia |]. split.
  - intros H. rewrite Hu0, Hc0, Hf0, Hb0 by lia. reflexivity.
  - intros H. rewrite Hu0 by lia. reflexivity.
Qed.

End WithPlatform.

End EngineScores.

(** ** The check before navigation *)

Module BackgroundFacts.

Import Config PhishingDetector Background.

Section WithPlatform.
Context {P : Platform}.

(** X21.  Under the default configuration, with the feature on, navigation
    is blocked exactly when the URL is not an internal page, parses, starts
    like an IP-literal URL, has a host with a suspicious TLD, is not served
    over https and has login or payment in its path: no two of the three
    signals reach the HIGH threshold. *)
Theorem blocking_needs_all_three_signals (url : string) :
  shouldBlockNavigation CONFIG true url = true
  <-> isInternalPage url = false
      /\ exists urlObj,
           new_URL url = Some urlObj
           /\ IP_ADDRESS_PATTERN_test url = true
           /\ _hasSuspiciousTLD CONFIG (JsString.toLowerCase (hostname urlObj)) = true
           /\ String.eqb (protocol urlObj) "https:" = false
           /\ (JsString.includes "login" (JsString.toLowerCase (pathname urlObj))
               || JsString.includes "payment" (JsString.toLowerCase (pathname urlObj)))%bool
              = true.
Proof.
  unfold shouldBlockNavigation. cbn [negb].
  destruct (isInternalPage url).
  - split; [discriminate | intros [H _]; discriminate].
  - destruct (new_URL url) as [urlObj |].
    + unfold quickScore, _hasSuspiciousTLD. cbv zeta.
      split.
      * intros Hblock. split; [reflexivity |]. exists urlObj.
        split; [reflexivity |].
        destruct (IP_ADDRESS_PATTERN_test url);
          destruct (existsb _ (SUSPICIOUS_TLDS (PATTERNS CONFIG)));
          destruct (String.eqb (protocol urlObj) "https:");
          destruct (JsString.includes "login" (JsString.toLowerCase (pathname urlObj))
                    || JsString.includes "payment"
                         (JsString.toLowerCase (pathname urlObj)))%bool;
          cbn in Hblock; try discriminate Hblock; repeat split.
      * intros (_ & u & Hu & H1 & H2 & H3 & H4). injection Hu as <-.
        rewrite H1, H2, H3, H4. reflexivity.
    + split; [discriminate | intros [_ [u [Hu _]]]; discriminate].
Qed.

(** X22.  Whatever the pre-navigation check blocks, the URL pass of the
    full analysis rates at 70 or more under the default configuration, that
    is high or critical. *)
Theorem blocked_urls_are_rated_high (url : string) :
  shouldBlockNavigation CONFIG true url = true ->
  70 <= a_score (_analyzeURL CONFIG url)
  /\ (_getRiskLevel CONFIG (a_score (_analyzeURL CONFIG url)) = high
      \/ _getRiskLevel CONFIG (a_score (_analyzeURL CONFIG url)) = critical).
Proof.
  unfold shouldBlockNavigation. cbn [negb].
  destruct (isInternalPage url); [discriminate |].
  destruct (new_URL url) as [urlObj |] eqn:Hurl; [| discriminate].
  intros Hblock.
  assert (Hscore : 70 <= a_score (_analyzeURL CONFIG url)).
  { unfold _analyzeURL. rewrite Hurl.
    unfold url_rules, url_rules_after, url_rule_homograph, url_rules_before,
      _isSensitivePath, _hasSuspiciousTLD.
    cbv zeta. cbn [a_score].
    unfold quickScore in Hblock.
    destruct (_detectTyposquatting CONFIG (JsString.toLowerCase (hostname urlObj)));
      rewrite !DetectorFacts.rule_score;
      cbn [a_score empty_analysis CONFIG SCORE_WEIGHTS NON_HTTPS_SENSITIVE
             IP_ADDRESS_DOMAIN SUSPICIOUS_TLD EXCESSIVE_SUBDOMAINS HOMOGRAPH_ATTACK
             TYPOSQUATTING_W URL_AT_SYMBOL URL_SHORTENER EMBEDDED_URL SUSPICIOUS_KEYWORD
             RISK_THRESHOLDS HIGH] in *;
      destruct (IP_ADDRESS_PATTERN_test url);
      destruct (existsb _ (SUSPICIOUS_TLDS (PATTERNS CONFIG)));
      destruct (String.eqb (protocol urlObj) "https:");
      destruct (JsString.includes "login" (JsString.toLowerCase (pathname urlObj)));
      destruct (JsString.includes "payment" (JsString.toLowerCase (pathname urlObj)));
      cbn [negb andb orb] in *; try discriminate;
      repeat match goal with
             | |- context [if ?b then _ else _] => destruct b
             end; lia. }
  split; [exact Hscore |].
  unfold _getRiskLevel. cbn [RISK_THRESHOLDS CONFIG CRITICAL HIGH MEDIUM LOW].
  destruct (Z.geb_spec (a_score (_analyzeURL CONFIG url)) 80); [now right |].
  destruct (Z.geb_spec (a_score (_analyzeURL CONFIG url)) 60); [now left | lia].
Qed.

End WithPlatform.

End BackgroundFacts.

(** ** The logger *)

Module LoggerFacts.

Import Logger.

(** X23.  Whatever level name is given to [setLevel], the level it sets is
    between 1 and 3: the name debug selects level 0, which the fallback to
    1 replaces.  At every level a logger can be at, [debug] writes nothing
    and [error] always writes. *)
Theorem debug_level_is_unreachable (toUpperCase : string -> string) (currentLevel : Z) :
  reachable toUpperCase currentLevel ->
  1 <= currentLevel <= 3
  /\ debug_writes currentLevel = false
  /\ error_writes currentLevel = true.
Proof.
  intros Hreach.
  assert (Hrange : 1 <= currentLevel <= 3).
  { destruct Hreach as [| level].
    - unfold initial_level. lia.
    - unfold setLevel, level_named, levels. cbn [find fst snd].
      destruct (String.eqb "DEBUG" (toUpperCase level)); [cbn; lia |].
      destruct (String.eqb "INFO" (toUpperCase level)); [cbn; lia |].
      destruct (String.eqb "WARN" (toUpperCase level)); [cbn; lia |].
      destruct (String.eqb "ERROR" (toUpperCase level)); cbn; lia. }
  split; [exact Hrange |]. unfold debug_writes, error_writes.
  destruct (Z.leb_spec currentLevel 0); [lia |].
  destruct (Z.leb_spec currentLevel 3); [| lia].
  split; reflexivity.
Qed.

End LoggerFacts.

(** ** Recency across an import *)

Module CacheRecency.

Import CacheManager Scenario.

(** X24.  [import] does not restore recency: after a well-formed snapshot
    with distinct live keys has been imported, the access time recorded for
    every entry is the time it was inserted, so the next eviction goes by
    insertion time, whatever was read before the export. *)
Theorem import_forgets_recency :
  forall (P : Platform) (c : CacheManager.t jsval) (s : string) (snap : jsval)
         (entries : list Snapshot.entry) (st : Stats) (now : Z),
    JSON_parse s = Some snap ->
    Snapshot.read snap = Some (entries, st) ->
    NoDup (map Snapshot.key (Snapshot.live (ttlMs c) now entries)) ->
    exists c',
      import c s now = Some (true, c')
      /\ accessOrder c'
         = map (fun e => (Snapshot.key e, Snapshot.timestamp e))
               (Snapshot.live (ttlMs c) now entries)
      /\ JsMap.keys (accessOrder c') = JsMap.keys (cache c').
Proof.
  intros P c s snap entries st now Hparse Hread Hnd.
  rewrite (ImportFacts.import_well_formed c s snap entries st now Hparse Hread).
  eexists. split; [reflexivity |].
  destruct (ImportFacts.fold_store_fields (Snapshot.live (ttlMs c) now entries) (clear c))
    as (_ & _ & _ & Hcache & Horder).
  cbn [cache accessOrder with_stats]. rewrite Hcache, Horder.
  change (cache (clear c)) with (@nil (string * Entry jsval)).
  change (accessOrder (clear c)) with (@nil (string * Z)).
  rewrite !ImportFacts.fold_set_distinct by exact Hnd.
  split; [reflexivity |].
  unfold JsMap.keys. cbn [app]. rewrite !map_map. reflexivity.
Qed.

Lemma import_forgets_recency_witness :
  accessOrder refreshed_cache = [("https://a.example/", 3); ("https://b.example/", 2)]
  /\ exists c',
       import (P := RP) refreshed_cache (export (P := RP) refreshed_cache 4) 5
       = Some (true, c')
       /\ accessOrder c' = [("https://a.example/", 1); ("https://b.example/", 2)]
       /\ JsMap.keys (cache (set (P := RP) c' "https://c.example/" (JStr "third") 6))
          = ["https://b.example/"; "https://c.example/"].
Proof.
  split; [vm_compute; reflexivity |].
  destruct (@import_forgets_recency RP refreshed_cache (export (P := RP) refreshed_cache 4)
              (export_value refreshed_cache 4)
              (map Snapshot.of_stored (cache refreshed_cache)) (stats refreshed_cache) 5)
    as (c' & Himport & Horder & _).
  - vm_compute. reflexivity.
  - vm_compute. reflexivity.
  - vm_compute. repeat constructor; simpl; intuition discriminate.
  - exists c'. split; [exact Himport |]. split; [rewrite Horder; vm_compute; reflexivity |].
    pose proof Himport as Hvalue. vm_compute in Hvalue. injection Hvalue as <-.
    vm_compute. reflexivity.
Defined.

(** X25.  On a consistent cache that is full, a [set] of a new key first
    removes the key whose recorded access time is the smallest, counts one
    eviction and then stores the new entry, so the size does not change;
    this holds when no stored key is the empty string. *)
Theorem eviction_removes_least_recent :
  forall (P : Platform) (A : Type) (c : CacheManager.t A) (url : string) (d : A) (now : Z),
    consistent c ->
    cache c <> [] ->
    ~ In EmptyString (JsMap.keys (accessOrder c)) ->
    JsMap.size (cache c) >= maxEntries c ->
    JsMap.has (_generateKey url) (cache c) = false ->
    exists lruKey lruTime,
      In (lruKey, lruTime) (accessOrder c)
      /\ (forall k t, In (k, t) (accessOrder c) -> lruTime <= t)
      /\ cache (set c url d now)
         = JsMap.set (_generateKey url) {| data := d; timestamp := now |}
                     (JsMap.delete lruKey (cache c))
      /\ evictions (stats (set c url d now)) = evictions (stats c) + 1
      /\ JsMap.size (cache (set c url d now)) = JsMap.size (cache c).
Proof.
  intros P A c url d now Hc Hne Hnoempty Hfull Hnew.
  destruct Hc as (Hnd & Hnd' & Hsame).
  assert (Horder : accessOrder c <> []).
  { destruct (cache c) as [| [k0 e0] r] eqn:Hcache; [congruence |].
    assert (Hin : In k0 (JsMap.keys (accessOrder c))) by (apply Hsame; simpl; now left).
    intros Hnil. rewrite Hnil in Hin. destruct Hin. }
  destruct (CacheFacts.lru_scan_min (accessOrder c) Horder) as (k & t & Hscan & Hin & Hmin).
  assert (Hk : In k (JsMap.keys (accessOrder c))) by (eapply CacheFacts.In_keys; eassumption).
  exists k, t. split; [exact Hin |]. split; [exact Hmin |].
  unfold set, _evictLRU. rewrite Hnew, Hscan.
  destruct (Z.geb_spec (JsMap.size (cache c)) (maxEntries c)); [| lia].
  destruct (String.eqb_spec k EmptyString) as [-> | Hnonempty]; [contradiction |].
  cbn [negb andb cache stats evictions count_set with_stats with_maps].
  split; [reflexivity |]. split; [reflexivity |].
  unfold JsMap.size. f_equal.
  rewrite (JsMapFacts.set_fresh _ (_generateKey url)).
  - rewrite length_app. cbn [length].
    pose proof (JsMapFacts.length_delete _ k (cache c) Hnd (proj2 (Hsame k) Hk)). lia.
  - rewrite JsMapFacts.keys_delete. intros [_ Hin'].
    apply JsMapFacts.has_In in Hin'. congruence.
Qed.

Lemma eviction_removes_least_recent_witness :
  exists lruKey lruTime,
    In (lruKey, lruTime) (accessOrder refreshed_cache)
    /\ (forall k t, In (k, t) (accessOrder refreshed_cache) -> lruTime <= t)
    /\ JsMap.keys (cache (set (P := RP) refreshed_cache "https://c.example/" (JStr "third") 4))
       = ["https://a.example/"; "https://c.example/"].
Proof.
  destruct (@eviction_removes_least_recent RP jsval refreshed_cache
              "https://c.example/" (JStr "third") 4)
    as (k & t & Hin & Hmin & _).
  - apply CacheInvariants.consistent_get.
    apply CacheFacts.consistent_set, CacheFacts.consistent_set, CacheFacts.consistent_new.
  - vm_compute. discriminate.
  - vm_compute. intuition discriminate.
  - vm_compute. discriminate.
  - vm_compute. reflexivity.
  - exists k, t. split; [exact Hin |]. split; [exact Hmin |]. vm_compute. reflexivity.
Defined.

End CacheRecency.

(** ** Instances *)

Module Instances.

Import Config PhishingDetector CacheManager Scenario.

Lemma set_then_get_witness :
  fst (get (P := RP) used_cache "https://a.example/" 900) = Some (JStr "first").
Proof.
  destruct (@CacheOps.set_then_get RP jsval (CacheManager.new 10 1000)
              "https://a.example/" (JStr "first") 5 900) as (Hget & _).
  - simpl. lia.
  - exact Hget.
Defined.

Lemma get_after_expiry_witness :
  fst (get (P := RP) used_cache "https://a.example/" 2000) = None.
Proof.
  destruct (@CacheOps.get_after_expiry RP jsval (CacheManager.new 10 1000)
              "https://a.example/" (JStr "first") 5 2000) as (Hget & _).
  - simpl. lia.
  - exact Hget.
Defined.

Lemma set_without_eviction_witness :
  evictions (stats (set (P := RP) used_cache "https://b.example/" (JStr "second") 6))
  = evictions (stats used_cache).
Proof.
  destruct (@CacheOps.set_without_eviction RP jsval used_cache
              "https://b.example/" (JStr "second") 6) as (Hev & _).
  - left. vm_compute. reflexivity.
  - exact Hev.
Defined.

Lemma used_cache_consistent : consistent used_cache.
Proof. apply CacheFacts.consistent_set, CacheFacts.consistent_new. Qed.

Lemma cleanup_removes_exactly_the_expired_witness :
  JsMap.size (cache used_cache)
  = JsMap.size (cache (snd (cleanup used_cache 2000))) + fst (cleanup used_cache 2000)
  /\ fst (cleanup used_cache 2000) = 1.
Proof.
  destruct (@CacheInvariants.cleanup_removes_exactly_the_expired jsval used_cache 2000)
    as (_ & Hsize & _).
  - apply CacheFacts.consistent_set, CacheFacts.consistent_new.
  - split; [exact Hsize | vm_compute; reflexivity].
Defined.

Lemma operations_keep_consistency_witness :
  consistent (set (P := RP) used_cache "https://b.example/" (JStr "second") 6)
  /\ forall r c', import (P := RP) used_cache broken_snapshot 6 = Some (r, c') ->
                  consistent c'.
Proof.
  destruct (@CacheInvariants.operations_keep_consistency RP used_cache
              "https://b.example/" (JStr "second") broken_snapshot 6)
    as (Hset & _ & _ & _ & _ & _ & Himport).
  - apply CacheFacts.consistent_set, CacheFacts.consistent_new.
  - split; [exact Hset | exact Himport].
Defined.

Lemma populate_within_capacity_witness :
  JsMap.size (cache (populate (P := RP) (CacheManager.new 2 1000)
                              [("https://a.example/", JStr "first", 1);
                               ("https://b.example/", JStr "second", 2);
                               ("https://c.example/", JStr "third", 3)]))
  <= 2.
Proof.
  apply (@CacheInvariants.populate_within_capacity RP jsval 2 1000).
  - lia.
  - repeat constructor; vm_compute; discriminate.
Defined.

Lemma close_labels_are_flagged_witness :
  typosquats CONFIG "paypa1" "paypal.com" = true.
Proof.
  apply LevenshteinFacts.close_labels_are_flagged.
  - simpl. lia.
  - vm_compute. discriminate.
  - vm_compute. discriminate.
  - vm_compute. discriminate.
Defined.

Lemma typosquatting_target_is_legitimate_witness :
  In "google.com" _legitimateDomains
  /\ JsString.split_head "."%char "google.com" <> JsString.split_head "."%char "gooogle.com".
Proof.
  destruct (TyposquattingFacts.typosquatting_target_is_legitimate
              CONFIG "gooogle.com" "google.com") as (Hin & Hne & _).
  - vm_compute. reflexivity.
  - split; assumption.
Defined.

Lemma substitution_needs_trailing_s_witness :
  JsString.endsWith "s" "usps" = true.
Proof.
  apply (TyposquattingFacts.substitution_needs_trailing_s "usp" "usps").
  vm_compute. reflexivity.
Defined.

Lemma doubled_test_needs_plain_label_witness :
  Label.no_doubled "paypal".
Proof.
  destruct (TyposquattingFacts.doubled_test_needs_plain_label "paaypal" "paypal")
    as (Hplain & _).
  - vm_compute. reflexivity.
  - exact Hplain.
Defined.

Lemma keyboard_test_needs_similar_lengths_witness :
  Z.abs (JsString.len "gpogle" - JsString.len "google") <= 2.
Proof.
  destruct (TyposquattingFacts.keyboard_test_needs_similar_lengths CONFIG "gpogle" "google")
    as (Hlen & _).
  - simpl. lia.
  - vm_compute. reflexivity.
  - exact Hlen.
Defined.

Lemma analyze_returns_null_exactly_on_expiry_between_reads_witness :
  fst (Clocked.analyze (P := RP) Clocked.visited "https://example.org/" None
         Clocked.straddling) = None.
Proof.
  destruct (@EngineCache.analyze_returns_null_exactly_on_expiry_between_reads RP
              Clocked.visited "https://example.org/" None Clocked.straddling)
    as (_ & Hnull).
  apply Hnull. split; [discriminate |].
  exists (CacheManager.set (P := RP) (CacheManager.new 1000 (30 * 60 * 1000))
            "https://example.org/"
            (run_passes (P := RP) CONFIG "https://example.org/" None 0) 0).
  exists {| CacheManager.data := run_passes (P := RP) CONFIG "https://example.org/" None 0;
            CacheManager.timestamp := 0 |}.
  split; [vm_compute; reflexivity |].
  split; [vm_compute; reflexivity |].
  split; [vm_compute; discriminate | vm_compute; reflexivity].
Defined.

Lemma analyze_next_call_repeats_the_stored_result_witness :
  fst (Clocked.analyze (P := RP)
         (snd (Clocked.analyze (P := RP) (PhishingDetector.new CONFIG)
                 "https://example.org/" None (Clocked.steady 0)))
         "https://example.org/" (Some auto_submit_page)
         {| Clocked.at_has := 1000; Clocked.at_get := 1001;
            Clocked.at_results := 1001; Clocked.at_set := 1001 |})
  = Some (run_passes (P := RP) CONFIG "https://example.org/" None 0).
Proof.
  destruct (@EngineCache.analyze_next_call_repeats_the_stored_result RP
              (PhishingDetector.new CONFIG)
              (CacheManager.new 1000 (30 * 60 * 1000))
              "https://example.org/" None (Some auto_submit_page) (Clocked.steady 0)
              {| Clocked.at_has := 1000; Clocked.at_get := 1001;
                 Clocked.at_results := 1001; Clocked.at_set := 1001 |})
    as (_ & Hagain).
  - discriminate.
  - reflexivity.
  - reflexivity.
  - simpl. lia.
  - simpl. lia.
  - exact Hagain.
Defined.

Lemma positive_weights_give_sound_scores_witness :
  0 <= score (run_passes (P := RP) CONFIG "https://example.org/" None 0)
    <= score (run_passes (P := RP) CONFIG "https://example.org/" (Some auto_submit_page) 0).
Proof.
  destruct (@EngineScores.positive_weights_give_sound_scores RP CONFIG)
    with (url := "https://example.org/") (doc := auto_submit_page) (now := 0)
    as (_ & _ & _ & _ & Hscore & _).
  - unfold Weights.positive, Weights.at_least. repeat constructor; simpl; lia.
  - exact Hscore.
Defined.

Lemma blocked_urls_are_rated_high_witness :
  70 <= a_score (_analyzeURL (P := RP) CONFIG "http://1.2.3.4.tk/login").
Proof.
  destruct (@BackgroundFacts.blocked_urls_are_rated_high RP "http://1.2.3.4.tk/login")
    as (Hscore & _).
  - vm_compute. reflexivity.
  - exact Hscore.
Defined.

Lemma debug_level_is_unreachable_witness :
  Logger.setLevel Logger.toUpperCase "debug" = 1
  /\ Logger.debug_writes (Logger.setLevel Logger.toUpperCase "debug") = false.
Proof.
  destruct (LoggerFacts.debug_level_is_unreachable Logger.toUpperCase
              (Logger.setLevel Logger.toUpperCase "debug")) as (_ & Hdebug & _).
  - apply Logger.reachable_set.
  - split; [vm_compute; reflexivity | exact Hdebug].
Defined.

End Instances.
